(** * service-data: the real-estate scrapers, embedded in Rocq

    The development follows the three scrapers of the repository:

    - [Py]        the few pieces of Python the scrapers rely on (exceptions,
                  [str] operations, [str.format], the [re.sub] call of the
                  assetplan scraper);
    - [Somma]     scraper_somma_nunoa.py: the retry policy, the three fetch
                  tiers and the escalator [_fetch_html];
    - [Assetplan] scraper_assetplan.py: the pagination loop, the per-card
                  detail fetch and the two output files;
    - [Bluehome]  scraper_bluehome.py: the order of page loads and pauses.

    Python strings are modelled as [string] (one character per byte; the
    class [\d] is the ASCII digits), integers as [Z] or [nat], the [set] of
    page hashes as a [gset Z], the file system as a [gmap string _]. *)

From Stdlib Require Import ZArith QArith List String Ascii Bool Lia Lqa DecimalString.
From stdpp Require Import gmap strings list fin_sets.

Local Open Scope Z_scope.

(* ===================================================================== *)
(** * Python values and library calls *)
(* ===================================================================== *)

Module Py.

(** Exception classes met in the scrapers. *)
Inductive PyExc : Type :=
  | ConnectionError
  | Timeout
  | RetryError
  | HTTPError (status : Z)
  | ValueError (msg : string)
  | IndexError
  | KeyError (key : string)
  | OSError
  | OtherError (name : string).

(** The outcome of a call that either returns or raises. *)
Inductive Try (A : Type) : Type :=
  | Returned (a : A)
  | Raised (e : PyExc).
Arguments Returned {A} a.
Arguments Raised {A} e.


(** ** [str] operations *)

Definition is_digit (c : ascii) : bool :=
  let n := nat_of_ascii c in (Nat.leb 48 n && Nat.leb n 57)%bool.

(** [s.startswith(p)] *)
Fixpoint startswith (p s : string) : bool :=
  match p, s with
  | EmptyString, _ => true
  | String _ _, EmptyString => false
  | String a p', String b s' => if Ascii.eqb a b then startswith p' s' else false
  end.

(** [p in s] *)
Fixpoint contains (p s : string) : bool :=
  (startswith p s ||
   match s with
   | EmptyString => false
   | String _ s' => contains p s'
   end)%bool.

(** [s[:n]] *)
Fixpoint str_take (n : nat) (s : string) : string :=
  match n, s with
  | O, _ => EmptyString
  | S _, EmptyString => EmptyString
  | S k, String c s' => String c (str_take k s')
  end.

(** Truthiness of a [str]: the empty string is false. *)
Definition truthy (s : string) : bool :=
  match s with EmptyString => false | String _ _ => true end.

(** [s.replace(old, new)] for a non-empty [old] (both call sites pass
    [".txt"]): occurrences are replaced left to right, without overlap.
    [skip] counts the characters of a matched occurrence still to drop. *)
Fixpoint replace_from (skip : nat) (old new s : string) : string :=
  match s with
  | EmptyString => EmptyString
  | String c s' =>
      match skip with
      | S k => replace_from k old new s'
      | O =>
          if startswith old s
          then new +:+ replace_from (String.length old - 1) old new s'
          else String c (replace_from 0 old new s')
      end
  end.

Definition replace (old new s : string) : string := replace_from 0 old new s.


(** [str(n)] for a non-negative integer. *)
Definition str_of_nat (n : nat) : string :=
  NilEmpty.string_of_uint (Nat.to_uint n).

(** ** [re.sub(r"page=\d+", "page={}", url)]

    Leftmost, non-overlapping matches; [\d+] is greedy.  In [InMatch k]
    the scan is inside a match: [k] characters of the literal [page=] are
    still to drop, and at [k = 0] the digits are being dropped. *)
Inductive SubMode : Type := Scan | InMatch (k : nat).

Definition page_digits_here (s : string) : bool :=
  match s with
  | String "p" (String "a" (String "g" (String "e" (String "=" (String d _))))) =>
      is_digit d
  | _ => false
  end.

Fixpoint sub_page (m : SubMode) (s : string) : string :=
  match s with
  | EmptyString => EmptyString
  | String c s' =>
      let scan :=
        if page_digits_here s
        then "page={}" +:+ sub_page (InMatch 4) s'
        else String c (sub_page Scan s') in
      match m with
      | Scan => scan
      | InMatch (S k) => sub_page (InMatch k) s'
      | InMatch O => if is_digit c then sub_page (InMatch 0) s' else scan
      end
  end.

Definition re_sub_page (url : string) : string := sub_page Scan url.

(** The number of matches [re.sub] replaces. *)
Fixpoint count_page (m : SubMode) (s : string) : nat :=
  match s with
  | EmptyString => O
  | String c s' =>
      let scan :=
        if page_digits_here s
        then S (count_page (InMatch 4) s')
        else count_page Scan s' in
      match m with
      | Scan => scan
      | InMatch (S k) => count_page (InMatch k) s'
      | InMatch O => if is_digit c then count_page (InMatch 0) s' else scan
      end
  end.

(** ** [template.format] with positional arguments

    The replacement fields modelled are [{}] (automatic numbering),
    [{index}] (manual numbering) and a plain keyword name, with the
    escapes [{{] and [}}].  A field that carries an attribute or index
    access, a conversion or a format spec is left to [format_other],
    which stands for what Python returns for such a template; [fmt]
    answers [None] there.  [args] holds the positional arguments already
    converted with [str]. *)
Inductive Numbering : Type := Unset | Auto (next : nat) | Manual.

Inductive FmtMode : Type :=
  | Text                    (* literal text *)
  | Open                    (* just after a "{" *)
  | Field (acc : string)    (* inside a replacement field *)
  | Close.                  (* just after a "}" in literal text *)

Definition FmtResult : Type := option (Try string).

Definition emit (v : string) (r : FmtResult) : FmtResult :=
  match r with
  | Some (Returned s) => Some (Returned (v +:+ s))
  | _ => r
  end.

Fixpoint all_digits (s : string) : bool :=
  match s with
  | EmptyString => true
  | String c s' => (is_digit c && all_digits s')%bool
  end.

Fixpoint nat_of_digits (acc : nat) (s : string) : nat :=
  match s with
  | EmptyString => acc
  | String c s' => nat_of_digits (10 * acc + (nat_of_ascii c - 48)) s'
  end.

Definition plain_name (name : string) : bool :=
  negb (contains "." name || contains "[" name ||
        contains "!" name || contains ":" name).

Definition positional (args : list string) (i : nat) (num : Numbering)
  : Try (string * Numbering) :=
  match nth_error args i with
  | Some v => Returned (v, num)
  | None => Raised IndexError
  end.

Definition field_lookup (args : list string) (num : Numbering) (name : string)
  : option (Try (string * Numbering)) :=
  if negb (plain_name name) then None
  else match name with
       | EmptyString =>
           match num with
           | Manual =>
               Some (Raised (ValueError
                 "cannot switch from manual field specification to automatic field numbering"))
           | Unset => Some (positional args 0 (Auto 1))
           | Auto n => Some (positional args n (Auto (S n)))
           end
       | String _ _ =>
           if all_digits name then
             match num with
             | Auto _ =>
                 Some (Raised (ValueError
                   "cannot switch from automatic field numbering to manual field specification"))
             | _ => Some (positional args (nat_of_digits 0 name) Manual)
             end
           else Some (Raised (KeyError name))
       end.

Fixpoint fmt (args : list string) (m : FmtMode) (num : Numbering) (s : string)
  : FmtResult :=
  match s with
  | EmptyString =>
      match m with
      | Text => Some (Returned EmptyString)
      | Open => Some (Raised (ValueError "Single '{' encountered in format string"))
      | Field _ => Some (Raised (ValueError "expected '}' before end of string"))
      | Close => Some (Raised (ValueError "Single '}' encountered in format string"))
      end
  | String c s' =>
      let fill name :=
        match field_lookup args num name with
        | None => None
        | Some (Raised e) => Some (Raised e)
        | Some (Returned (v, num')) => emit v (fmt args Text num' s')
        end in
      match m with
      | Text =>
          if Ascii.eqb c "{" then fmt args Open num s'
          else if Ascii.eqb c "}" then fmt args Close num s'
          else emit (String c EmptyString) (fmt args Text num s')
      | Open =>
          if Ascii.eqb c "{" then emit "{" (fmt args Text num s')
          else if Ascii.eqb c "}" then fill EmptyString
          else fmt args (Field (String c EmptyString)) num s'
      | Field acc =>
          if Ascii.eqb c "}" then fill acc
          else if Ascii.eqb c "{" then None
          else fmt args (Field (acc +:+ String c EmptyString)) num s'
      | Close =>
          if Ascii.eqb c "}" then emit "}" (fmt args Text num s')
          else Some (Raised (ValueError "Single '}' encountered in format string"))
      end
  end.

(** A string without [{] nor [}]. *)
Fixpoint brace_free (s : string) : bool :=
  match s with
  | EmptyString => true
  | String c s' =>
      (negb (Ascii.eqb c "{") && negb (Ascii.eqb c "}") && brace_free s')%bool
  end.

Definition format (format_other : string -> list string -> Try string)
    (template : string) (args : list string) : Try string :=
  match fmt args Text Unset template with
  | Some r => r
  | None => format_other template args
  end.

(** ** HTTP through [requests] *)

Record Response : Type := { status_code : Z; text : string }.

Inductive Method : Type :=
  GET | HEAD | POST | PUT | DELETE | OPTIONS | TRACE | PATCH | CONNECT.



(** The arguments the scrapers give to [urllib3]'s [Retry]. *)
Record Retry : Type := {
  total : nat;
  backoff_factor : Q;
  status_forcelist : list Z;
  allowed_methods : list Method
}.


(** [Response.raise_for_status()] *)
Definition raise_for_status (r : Response) : Try unit :=
  if (400 <=? status_code r) && (status_code r <? 600)
  then Raised (HTTPError (status_code r))
  else Returned tt.

(** ** Statements with state and exceptions

    A statement runs on the local variables and the outside world [S];
    it ends with a value, with an exception, or, for [while True], with
    the fuel of the model used up.  The state reached is kept in all three
    cases: what a [try] body did before raising stays done. *)
Inductive Res (A : Type) : Type :=
  | Val (a : A)
  | Exn (e : PyExc)
  | OutOfFuel.
Arguments Val {A} a.
Arguments Exn {A} e.
Arguments OutOfFuel {A}.

Definition M (S A : Type) : Type := S -> Res A * S.

Definition ret {S A} (a : A) : M S A := fun s => (Val a, s).

Definition bind {S A B} (m : M S A) (k : A -> M S B) : M S B :=
  fun s =>
    match m s with
    | (Val a, s') => k a s'
    | (Exn e, s') => (Exn e, s')
    | (OutOfFuel, s') => (OutOfFuel, s')
    end.

Definition raise {S A} (e : PyExc) : M S A := fun s => (Exn e, s).

Definition lift {S A} (t : Try A) : M S A :=
  match t with Returned a => ret a | Raised e => raise e end.

Definition gets {S A} (f : S -> A) : M S A := fun s => (Val (f s), s).

Definition modify {S} (f : S -> S) : M S unit := fun s => (Val tt, f s).

(** [try: body  except Exception as e: handler e] *)
Definition try_except {S A} (body : M S A) (handler : PyExc -> M S A) : M S A :=
  fun s =>
    match body s with
    | (Exn e, s') => handler e s'
    | r => r
    end.

(** [for x in l: f x] *)
Fixpoint for_each {S A} (l : list A) (f : A -> M S unit) : M S unit :=
  match l with
  | [] => ret tt
  | x :: l' => bind (f x) (fun _ => for_each l' f)
  end.

End Py.

Declare Scope py_scope.
Delimit Scope py_scope with py.
Notation "x <- c1 ;; c2" := (Py.bind c1 (fun x => c2))
  (at level 100, c1 at next level, right associativity) : py_scope.
Notation "c1 ;; c2" := (Py.bind c1 (fun _ => c2))
  (at level 100, right associativity) : py_scope.

(* ===================================================================== *)
(** * scraper_somma_nunoa.py *)
(* ===================================================================== *)

Module Somma.
Import Py.

(** [_make_session]: the retry policy mounted on both schemes. *)
Definition retries : Retry := {|
  total := 2;
  backoff_factor := 1 # 2;
  status_forcelist := [429; 500; 502; 503; 504];
  allowed_methods := [GET]
|}.

(** The three fetch tiers, in the order the trace lists their use. *)
Inductive Tier : Type := PlainHTTP | StealthHTTP | HeadlessBrowser.

(** What the outside answers to each tier for a URL and a timeout:
    the response [ses.get] / [scraper.get] ends with once the adapter is
    done with its retries (or the exception it raises), and the rendered
    page of the browser (or the exception of the import, launch or
    navigation). *)
Record Env : Type := {
  plain_get : string -> Z -> Try Response;
  cloud_get : string -> Z -> Try Response;
  browser_content : string -> Z -> Try string
}.

(** The body shared by tiers 1 and 2 once the response is there. *)
Definition checked_text (r : Try Response) : Try string :=
  match r with
  | Raised e => Raised e
  | Returned resp =>
      if status_code resp =? 403 then Raised (HTTPError 403)
      else match raise_for_status resp with
           | Raised e => Raised e
           | Returned _ => Returned (text resp)
           end
  end.

(** Each tier returns its result with the trace of tiers it invoked. *)
Definition _requests_fetch (env : Env) (url : string) (timeout : Z)
  : Try string * list Tier :=
  (checked_text (plain_get env url timeout), [PlainHTTP]).

Definition _cloudscraper_fetch (env : Env) (url : string) (timeout : Z)
  : Try string * list Tier :=
  (checked_text (cloud_get env url timeout), [StealthHTTP]).

Definition _playwright_fetch (env : Env) (url : string) (timeout : Z)
  : Try string * list Tier :=
  (browser_content env url timeout, [HeadlessBrowser]).

Definition _fetch_html (env : Env) (url : string) (timeout : Z)
    (use_browser use_cloudscraper : bool) : Try string * list Tier :=
  if use_browser then _playwright_fetch env url timeout
  else
    match _requests_fetch env url timeout with
    | (Returned html, tr) => (Returned html, tr)
    | (Raised (HTTPError st), tr) =>
        if (st =? 403) && use_cloudscraper
        then let (r, tr') := _cloudscraper_fetch env url timeout in (r, tr ++ tr')
        else (Raised (HTTPError st), tr)
    | (Raised e, tr) => (Raised e, tr)
    end.

(** [scrape_departamentos]: the page is fetched first; everything after
    (the cards, the aggregate, the file) is computed from the HTML by
    [build], and is only reached when the fetch returned. *)
Definition scrape_departamentos {Resultado : Type}
    (build : string -> string -> Resultado)
    (env : Env) (url output_path : string) (timeout : Z)
    (use_browser use_cloudscraper : bool) : Try Resultado * list Tier :=
  match _fetch_html env url timeout use_browser use_cloudscraper with
  | (Returned html, tr) => (Returned (build url html), tr)
  | (Raised e, tr) => (Raised e, tr)
  end.

(** Whether the flags of the caller allow a tier. *)
Definition allowed (use_browser use_cloudscraper : bool) (t : Tier) : bool :=
  match t with
  | PlainHTTP => true
  | StealthHTTP => use_cloudscraper
  | HeadlessBrowser => use_browser
  end.

End Somma.

(* ===================================================================== *)
(** * scraper_assetplan.py *)
(* ===================================================================== *)

Module Assetplan.
Import Py.
Local Open Scope py_scope.

Definition ASSETPLAN_BASE : string := "https://www.assetplan.cl".

(** [_make_session]: the retry policy mounted on both schemes. *)
Definition retries : Retry := {|
  total := 4;
  backoff_factor := 4 # 5;
  status_forcelist := [429; 500; 502; 503; 504];
  allowed_methods := [GET; HEAD]
|}.

(** ** Data *)

(** What lines 84-97 read from one listing card: the text of the title
    tag, its [href] (empty when there is no tag or no attribute), the
    address and the price shown on the card. *)
Record Anuncio : Type := {
  a_nombre : string;
  a_link_rel : string;
  a_direccion : string;
  a_precio : string
}.

(** One entry of [departamentos]. *)
Record Departamento : Type := {
  d_dormitorios : string;
  d_banos : string;
  d_m2_utiles : string;
  d_precio : string;
  d_unidades_disponibles : string;
  d_link : string
}.

(** One entry of [properties]. *)
Record Property : Type := {
  p_Operador : string;
  p_nombre : string;
  p_direccion : string;
  p_precio : string;
  p_link : string;
  p_comodidades : list string;
  p_departamentos : list Departamento;
  p_scraped_at : string
}.

(** What lines 137-188 read from one bordered tipologia block. *)
Record Tipologia : Type := {
  t_dormitorios : string;
  t_banos : string;
  t_m2_utiles : string;
  t_precio : string;
  t_unidades : string;
  t_link_tip : string
}.

(** A parsed detail page: the stripped texts of the [p.text-sm] of the
    first comodidades block, and the bordered blocks of the tipologia
    grid, both in document order (empty when the block or the grid is
    missing).  Reading one tipologia block may raise: the whole of it sits
    inside the [try]. *)
Record Ficha : Type := {
  f_comodidades : list string;
  f_tipologias : list (Try Tipologia)
}.

(** The content of an output file. *)
Inductive FileContent : Type :=
  | JsonArray (records : list Property)      (* json.dump(properties, indent=2) *)
  | JsonLines (records : list Property).     (* one json.dumps(item) per line *)

(** What the run does to the outside, in order. *)
Inductive Event : Type :=
  | EvListing (page : nat) (url : string) (r : Try Response)
  | EvFicha (url : string) (r : Try Response)
  | EvSleep (seconds : Q)
  | EvMakedirs (dir : string)
  | EvWrite (path : string).

(** The outside of the function: the network, the libraries whose code is
    not in the repository, the clock and the file system. *)
Record Env : Type := {
  (** [session.get(url, timeout=30)] for the k-th request of the run *)
  net : nat -> string -> Try Response;
  (** the string hash of the interpreter, before it is cut to [Py_hash_t] *)
  str_hash : string -> Z;
  (** [soup.select("div.w-full...")] followed by the reads of lines 84-97 *)
  select_anuncios : string -> list Anuncio;
  (** [urllib.parse.urljoin] on the card link *)
  urljoin : string -> string -> string;
  (** [BeautifulSoup(dresp.text)] followed by the reads of lines 110-188 *)
  parse_ficha : string -> Try Ficha;
  (** [time.strftime(..., time.gmtime())] when k records are collected *)
  gmtime : nat -> string;
  (** [str.format] outside the fields modelled by [Py.fmt] *)
  format_other : string -> list string -> Try string;
  (** [os.path.dirname] *)
  dirname : string -> string;
  (** the error, if any, of opening a path for writing *)
  open_error : string -> option PyExc
}.

(** Local variables of [scrape_assetplan] and the state of the outside. *)
Record State : Type := {
  page : nat;
  properties : list Property;
  seen_page_html_hash : gset Z;
  count_items : nat;
  detalles : list string;
  departamentos : list Departamento;
  requests : nat;
  log : list Event;
  files : gmap string FileContent
}.

Definition init : State := {|
  page := 1; properties := []; seen_page_html_hash := ∅; count_items := 0;
  detalles := []; departamentos := []; requests := 0; log := []; files := ∅
|}.

Definition set_page (v : nat) (s : State) : State :=
  {| page := v; properties := properties s;
     seen_page_html_hash := seen_page_html_hash s; count_items := count_items s;
     detalles := detalles s; departamentos := departamentos s;
     requests := requests s; log := log s; files := files s |}.
Definition set_properties (v : list Property) (s : State) : State :=
  {| page := page s; properties := v;
     seen_page_html_hash := seen_page_html_hash s; count_items := count_items s;
     detalles := detalles s; departamentos := departamentos s;
     requests := requests s; log := log s; files := files s |}.
Definition set_seen (v : gset Z) (s : State) : State :=
  {| page := page s; properties := properties s;
     seen_page_html_hash := v; count_items := count_items s;
     detalles := detalles s; departamentos := departamentos s;
     requests := requests s; log := log s; files := files s |}.
Definition set_count_items (v : nat) (s : State) : State :=
  {| page := page s; properties := properties s;
     seen_page_html_hash := seen_page_html_hash s; count_items := v;
     detalles := detalles s; departamentos := departamentos s;
     requests := requests s; log := log s; files := files s |}.
Definition set_detalles (v : list string) (s : State) : State :=
  {| page := page s; properties := properties s;
     seen_page_html_hash := seen_page_html_hash s; count_items := count_items s;
     detalles := v; departamentos := departamentos s;
     requests := requests s; log := log s; files := files s |}.
Definition set_departamentos (v : list Departamento) (s : State) : State :=
  {| page := page s; properties := properties s;
     seen_page_html_hash := seen_page_html_hash s; count_items := count_items s;
     detalles := detalles s; departamentos := v;
     requests := requests s; log := log s; files := files s |}.
Definition set_requests (v : nat) (s : State) : State :=
  {| page := page s; properties := properties s;
     seen_page_html_hash := seen_page_html_hash s; count_items := count_items s;
     detalles := detalles s; departamentos := departamentos s;
     requests := v; log := log s; files := files s |}.
Definition emit_event (e : Event) (s : State) : State :=
  {| page := page s; properties := properties s;
     seen_page_html_hash := seen_page_html_hash s; count_items := count_items s;
     detalles := detalles s; departamentos := departamentos s;
     requests := requests s; log := log s ++ [e]; files := files s |}.
Definition set_file (path : string) (c : FileContent) (s : State) : State :=
  {| page := page s; properties := properties s;
     seen_page_html_hash := seen_page_html_hash s; count_items := count_items s;
     detalles := detalles s; departamentos := departamentos s;
     requests := requests s; log := log s; files := <[path := c]> (files s) |}.

(** ** The builtin [hash]: a [Py_hash_t], 64 bits, signed *)

Definition hash_bits : Z := 64.

Definition to_Py_hash_t (z : Z) : Z :=
  (z + 2 ^ (hash_bits - 1)) mod 2 ^ hash_bits - 2 ^ (hash_bits - 1).

Definition hash (env : Env) (s : string) : Z := to_Py_hash_t (str_hash env s).

(** The prefix of the page that is hashed: [resp.text[:10000]]. *)
Definition hashed_prefix (s : string) : string := str_take (Z.to_nat 10000) s.

(** ** Page URLs (lines 41-54) *)

Definition base_url_of (url : string) : string :=
  if contains "page=" url then re_sub_page url
  else url +:+ (if contains "?" url then "&page={}" else "?page={}").

Definition page_url (env : Env) (base_url : string) (page : nat) : Try string :=
  format (format_other env) base_url [str_of_nat page].

(** ** Statements *)

Abbreviation Stmt := (M State).

(** [session.get(url, timeout=30)]: the request is counted and logged
    whether it returns or raises. *)
Definition session_get (env : Env) (ev : Try Response -> Event) (url : string)
  : Stmt Response :=
  fun s =>
    let r := net env (requests s) url in
    let s' := emit_event (ev r) (set_requests (S (requests s)) s) in
    match r with
    | Returned resp => (Val resp, s')
    | Raised e => (Exn e, s')
    end.

Definition sleep (seconds : Q) : Stmt unit := modify (emit_event (EvSleep seconds)).

Definition mk_departamento (t : Tipologia) (link_full : string) : Departamento := {|
  d_dormitorios := t_dormitorios t;
  d_banos := t_banos t;
  d_m2_utiles := t_m2_utiles t;
  d_precio := t_precio t;
  d_unidades_disponibles := t_unidades t;
  d_link := if truthy (t_link_tip t) then t_link_tip t else link_full
|}.

(** Lines 106-201: what the [try] of one card does with the response. *)
Definition read_ficha (env : Env) (link_full : string) (dresp : Response)
  : Stmt unit :=
  if status_code dresp =? 200 then
    dsoup <- lift (parse_ficha env (text dresp)) ;;
    for_each (f_comodidades dsoup) (fun txt =>
      if truthy txt
      then modify (fun s => set_detalles (detalles s ++ [txt]) s)
      else ret tt) ;;
    for_each (f_tipologias dsoup) (fun depto =>
      t <- lift depto ;;
      modify (fun s =>
        set_departamentos (departamentos s ++ [mk_departamento t link_full]) s))
  else ret tt.

(** Lines 105-201: the body of the [try] of one card. *)
Definition ficha_body (env : Env) (link_full : string) : Stmt unit :=
  dresp <- session_get env (EvFicha link_full) link_full ;;
  read_ficha env link_full dresp.

(** The entries read before the first one that raises. *)
Fixpoint returned_prefix {A} (l : list (Try A)) : list A :=
  match l with
  | Returned a :: l' => a :: returned_prefix l'
  | _ => []
  end.

(** What the [try] of a card leaves in [detalles] and [departamentos],
    given the outcome of its request. *)
Definition details_of (env : Env) (link_full : string) (r : Try Response)
  : list string * list Departamento :=
  match r with
  | Raised _ => ([], [])
  | Returned dresp =>
      if status_code dresp =? 200 then
        match parse_ficha env (text dresp) with
        | Raised _ => ([], [])
        | Returned dsoup =>
            (List.filter truthy (f_comodidades dsoup),
             map (fun t => mk_departamento t link_full)
                 (returned_prefix (f_tipologias dsoup)))
        end
      else ([], [])
  end.


(** The events one card adds to the log: its detail request, when it has
    a link, as the k-th request of the run. *)
Definition ficha_events (env : Env) (link_full : string) (k : nat) : list Event :=
  if truthy link_full then [EvFicha link_full (net env k link_full)] else [].

(** The states that differ at most in [detalles] and [departamentos]. *)
Definition only_details (s s' : State) : Prop :=
  page s' = page s /\ properties s' = properties s /\
  seen_page_html_hash s' = seen_page_html_hash s /\
  count_items s' = count_items s /\ requests s' = requests s /\
  log s' = log s /\ files s' = files s.

(** Lines 103-203: [if link_full: try: ... except Exception as e: print]. *)
Definition enrich (env : Env) (link_full : string) : Stmt unit :=
  if truthy link_full
  then try_except (ficha_body env link_full) (fun _ => ret tt)
  else ret tt.

Definition link_full_of (env : Env) (a : Anuncio) : string :=
  if truthy (a_link_rel a) then urljoin env ASSETPLAN_BASE (a_link_rel a)
  else EmptyString.

Definition mk_property (env : Env) (a : Anuncio) (s : State) : Property := {|
  p_Operador := "assetplan";
  p_nombre := a_nombre a;
  p_direccion := a_direccion a;
  p_precio := a_precio a;
  p_link := link_full_of env a;
  p_comodidades := detalles s;
  p_departamentos := departamentos s;
  p_scraped_at := gmtime env (List.length (properties s))
|}.

(** Lines 82-217: the body of [for anuncio in anuncios]. *)
Definition process_anuncio (env : Env) (a : Anuncio) : Stmt unit :=
  modify (set_detalles []) ;;
  modify (set_departamentos []) ;;
  enrich env (link_full_of env a) ;;
  modify (fun s => set_properties (properties s ++ [mk_property env a s]) s) ;;
  modify (fun s => set_count_items (S (count_items s)) s).

(** The fields of a record that come from the listing card. *)
Definition base_of_property (p : Property)
  : string * string * string * string * string :=
  (p_Operador p, p_nombre p, p_direccion p, p_precio p, p_link p).

Definition base_of_anuncio (env : Env) (a : Anuncio)
  : string * string * string * string * string :=
  ("assetplan", a_nombre a, a_direccion a, a_precio a, link_full_of env a).

(** The events the cards of one page add to the log, the first detail
    request being the k-th request of the run. *)
Fixpoint cards_events (env : Env) (l : list Anuncio) (k : nat) : list Event :=
  match l with
  | [] => []
  | a :: l' =>
      let ev := ficha_events env (link_full_of env a) k in
      ev ++ cards_events env l' (k + List.length ev)
  end.

Definition is_ficha (e : Event) : Prop :=
  match e with EvFicha _ _ => True | _ => False end.

(** Whether two detail requests follow each other in a log with nothing
    in between. *)
Fixpoint adjacent_fichas (l : list Event) : bool :=
  match l with
  | EvFicha _ _ :: ((EvFicha _ _ :: _) as l') => true
  | _ :: l' => adjacent_fichas l'
  | [] => false
  end.

(** The five [break] statements of the loop, by line. *)
Inductive BreakSite : Type :=
  | NetworkError (e : PyExc)      (* line 60 *)
  | BadStatus (status : Z)        (* line 64 *)
  | RepeatedContent               (* line 70 *)
  | NoAnuncios                    (* line 79 *)
  | NoUsefulItems.                (* line 221 *)

Inductive Ctl : Type := Continue | Break (site : BreakSite).



(** Lines 54-224: one turn of [while True]. *)
Definition page_iteration (env : Env) (base_url : string) : Stmt Ctl :=
  n <- gets page ;;
  page_url <- lift (page_url env base_url n) ;;
  got <- try_except
           (resp <- session_get env (EvListing n page_url) page_url ;; ret (inr resp))
           (fun e => ret (inl e)) ;;
  match got with
  | inl e => ret (Break (NetworkError e))
  | inr resp =>
      if negb (status_code resp =? 200) then ret (Break (BadStatus (status_code resp)))
      else
        let h := hash env (hashed_prefix (text resp)) in
        seen <- gets seen_page_html_hash ;;
        if bool_decide (h ∈ seen) then ret (Break RepeatedContent)
        else
          modify (fun s => set_seen ({[h]} ∪ seen_page_html_hash s) s) ;;
          let anuncios := select_anuncios env (text resp) in
          match anuncios with
          | [] => ret (Break NoAnuncios)
          | _ :: _ =>
              modify (set_count_items 0) ;;
              for_each anuncios (process_anuncio env) ;;
              c <- gets count_items ;;
              if Nat.eqb c 0 then ret (Break NoUsefulItems)
              else
                modify (fun s => set_page (S (page s)) s) ;;
                sleep (4 # 5) ;;
                ret Continue
          end
  end.

(** The state after the listing request of a turn, whatever its result. *)
Definition after_listing (env : Env) (u : string) (s : State) : State :=
  emit_event (EvListing (page s) u (net env (requests s) u))
             (set_requests (S (requests s)) s).






(** [while True]: at most [fuel] turns. *)
Fixpoint walk (env : Env) (base_url : string) (fuel : nat) : Stmt BreakSite :=
  match fuel with
  | O => fun s => (OutOfFuel, s)
  | S fuel' =>
      c <- page_iteration env base_url ;;
      match c with
      | Break site => ret site
      | Continue => walk env base_url fuel'
      end
  end.

(** The states at the head of the loop in a run that starts in [init]. *)
Inductive reachable (env : Env) (base_url : string) : State -> Prop :=
  | reach_init : reachable env base_url init
  | reach_turn s s' :
      reachable env base_url s ->
      page_iteration env base_url s = (Val Continue, s') ->
      reachable env base_url s'.

(** [with open(path, "w") as f: ...] writing [content]. *)
Definition write_file (env : Env) (path : string) (content : FileContent)
  : Stmt unit :=
  match open_error env path with
  | Some e => raise e
  | None => modify (fun s => emit_event (EvWrite path) (set_file path content s))
  end.

(** Lines 226-244. *)
Definition write_results (env : Env) (output_path : string) : Stmt unit :=
  let outdir := dirname env output_path in
  (if truthy outdir then modify (emit_event (EvMakedirs outdir)) else ret tt) ;;
  let json_output := replace ".txt" ".json" output_path in
  ps <- gets properties ;;
  write_file env json_output (JsonArray ps) ;;
  let jsonl_output := replace ".txt" ".jsonl" output_path in
  try_except
    (ps' <- gets properties ;; write_file env jsonl_output (JsonLines ps'))
    (fun _ => ret tt).

(** What [write_results] adds to the log and to the files. *)
Definition makedirs_events (env : Env) (output_path : string) : list Event :=
  if truthy (dirname env output_path)
  then [EvMakedirs (dirname env output_path)] else [].

Definition jsonl_written (env : Env) (output_path : string) : bool :=
  match open_error env (replace ".txt" ".jsonl" output_path) with
  | None => true
  | Some _ => false
  end.

Definition scrape_assetplan (env : Env) (fuel : nat) (url output_path : string)
  : Stmt BreakSite :=
  site <- walk env (base_url_of url) fuel ;;
  write_results env output_path ;;
  ret site.

End Assetplan.

(* ===================================================================== *)
(** * scraper_bluehome.py *)
(* ===================================================================== *)

Module Bluehome.
Import Py.
Local Open Scope py_scope.

(** One entry of [departamentos]; [baños] and [m2_utiles] are set to the
    empty string by [setdefault] at the start of the detail loop. *)
Record Dept : Type := {
  dormitorios : string;
  unidades_disponibles : string;
  link : string;
  banos : string;
  m2_utiles : string
}.

(** What lines 95-129 read from one container that has an info block. *)
Record Container : Type := {
  c_nombre : string;
  c_direccion : string;
  c_precio : string;
  c_departamentos : list Dept
}.

(** One entry of [edificios]. *)
Record Edificio : Type := {
  e_nombre : string;
  e_direccion : string;
  e_precio : string;
  e_comodidades : list string;
  e_departamentos : list Dept
}.

Inductive Event : Type :=
  | EvLoadListing (url : string)
  | EvLoadDetail (url : string)
  | EvSleep (seconds : Q)
  | EvWrite (path : string) (content : list Edificio)
  | EvQuit.

Record Env : Type := {
  (** [driver.get(url)] for the k-th navigation, then [driver.page_source];
      [Raised] when [driver.get] raises *)
  navigate : nat -> string -> Try string;
  (** the wait for the first building container of the listing *)
  listing_wait : Try unit;
  (** the containers of the listing that have an info block *)
  select_containers : string -> list Container;
  (** lines 152-180: the amenities and the features read from a detail page,
      applied to the comodidades found so far and to the entry of index idx *)
  apply_detail : nat -> list string -> Dept -> string -> list string * Dept;
  (** the 53 random bits behind the k-th call of [random.random()] *)
  random_bits : nat -> Z
}.

Record State : Type := {
  edificios : list Edificio;
  comodidades : list string;
  navigations : nat;
  draws : nat;
  log : list Event
}.

Definition init : State :=
  {| edificios := []; comodidades := []; navigations := 0; draws := 0; log := [] |}.

Definition emit_event (e : Event) (s : State) : State :=
  {| edificios := edificios s; comodidades := comodidades s;
     navigations := navigations s; draws := draws s; log := log s ++ [e] |}.
Definition set_comodidades (v : list string) (s : State) : State :=
  {| edificios := edificios s; comodidades := v;
     navigations := navigations s; draws := draws s; log := log s |}.
Definition set_edificios (v : list Edificio) (s : State) : State :=
  {| edificios := v; comodidades := comodidades s;
     navigations := navigations s; draws := draws s; log := log s |}.
Definition set_navigations (v : nat) (s : State) : State :=
  {| edificios := edificios s; comodidades := comodidades s;
     navigations := v; draws := draws s; log := log s |}.
Definition set_draws (v : nat) (s : State) : State :=
  {| edificios := edificios s; comodidades := comodidades s;
     navigations := navigations s; draws := v; log := log s |}.

Abbreviation Stmt := (M State).

(** [random.random()]: a multiple of 2^-53 in [0, 1). *)
Definition random (env : Env) : Stmt Q :=
  fun s =>
    (Val (Qmake (random_bits env (draws s) mod 2 ^ 53) (2 ^ 53)),
     set_draws (S (draws s)) s).

(** [random.uniform(a, b)] *)
Definition uniform (env : Env) (a b : Q) : Stmt Q :=
  u <- random env ;; ret (a + (b - a) * u)%Q.

Definition sleep (seconds : Q) : Stmt unit := modify (emit_event (EvSleep seconds)).

Definition driver_get (env : Env) (ev : string -> Event) (url : string)
  : Stmt string :=
  fun s =>
    let s' := emit_event (ev url) (set_navigations (S (navigations s)) s) in
    match navigate env (navigations s) url with
    | Returned src => (Val src, s')
    | Raised e => (Exn e, s')
    end.

(** Lines 133-183: [for idx, dept in enumerate(departamentos)]; the
    entries are updated in place, so the loop returns them. *)
Fixpoint detail_loop (env : Env) (detail_delay : Q * Q) (idx : nat)
    (depts : list Dept) : Stmt (list Dept) :=
  match depts with
  | [] => ret []
  | dept :: rest =>
      dept' <- (if negb (truthy (link dept)) then ret dept
                else
                  src <- driver_get env EvLoadDetail (link dept) ;;
                  found <- gets comodidades ;;
                  let upd := apply_detail env idx found dept src in
                  modify (set_comodidades (fst upd)) ;;
                  pause <- uniform env (fst detail_delay) (snd detail_delay) ;;
                  sleep pause ;;
                  ret (snd upd)) ;;
      rest' <- detail_loop env detail_delay (S idx) rest ;;
      ret (dept' :: rest')
  end.

(** Lines 94-191: the body of [for container in ...]. *)
Definition process_container (env : Env) (detail_delay : Q * Q) (c : Container)
  : Stmt unit :=
  modify (set_comodidades []) ;;
  depts <- detail_loop env detail_delay 0 (c_departamentos c) ;;
  found <- gets comodidades ;;
  modify (fun s => set_edificios (edificios s ++ [{|
    e_nombre := c_nombre c; e_direccion := c_direccion c;
    e_precio := c_precio c; e_comodidades := found;
    e_departamentos := depts |}]) s).

(** [try: body  finally: fin] *)
Definition try_finally {A} (body : Stmt A) (fin : Stmt unit) : Stmt A :=
  fun s =>
    match body s with
    | (r, s') => (r, snd (fin s'))
    end.

Definition detail_delay_default : Q * Q := (3 # 5, 7 # 5).

Definition scrape_bluehome (env : Env) (url output_path : string)
    (detail_delay : Q * Q) : Stmt (list Edificio) :=
  try_finally
    (src <- driver_get env EvLoadListing url ;;
     lift (listing_wait env) ;;
     for_each (select_containers env src) (process_container env detail_delay) ;;
     es <- gets edificios ;;
     modify (emit_event (EvWrite output_path es)) ;;
     ret es)
    (modify (emit_event EvQuit)).

(** A log is paced between [lo] and [hi] when every load of a detail page
    is directly followed by a pause of a length within the two bounds, or,
    when the load raised, by the end of the run. *)
Fixpoint paced (lo hi : Q) (l : list Event) : Prop :=
  match l with
  | [] => True
  | EvLoadDetail _ :: l' =>
      match l' with
      | EvSleep d :: _ => (lo <= d /\ d <= hi)%Q
      | [EvQuit] => True
      | _ => False
      end /\ paced lo hi l'
  | _ :: l' => paced lo hi l'
  end.

(** Loads that returned, each with its pause. *)
Inductive chunks (lo hi : Q) : list Event -> Prop :=
  | chunks_nil : chunks lo hi []
  | chunks_cons u d l :
      (lo <= d /\ d <= hi)%Q -> chunks lo hi l ->
      chunks lo hi (EvLoadDetail u :: EvSleep d :: l).

End Bluehome.

(* ===================================================================== *)
(** * Concrete sites used in the examples *)
(* ===================================================================== *)

Module Examples.
Import Py.

Definition resp (status : Z) (body : string) : Try Response :=
  Returned {| status_code := status; text := body |}.

(** A site that answers 403 to plain HTTP and serves the page to the
    stealth client. *)
Definition blocked_env : Somma.Env := {|
  Somma.plain_get := fun _ _ => resp 403 "Forbidden";
  Somma.cloud_get := fun _ _ => resp 200 "<html>plantas</html>";
  Somma.browser_content := fun _ _ => Returned "<html>plantas</html>"
|}.

Definition somma_url : string :=
  "https://www.sommaplazanunoa.cl/santiago/conventional/".

(** ** An assetplan site *)

Definition card (nombre href : string) : Assetplan.Anuncio := {|
  Assetplan.a_nombre := nombre;
  Assetplan.a_link_rel := href;
  Assetplan.a_direccion := "Av. Macul 2301";
  Assetplan.a_precio := "$420.000"
|}.

Fixpoint toy_hash (acc : Z) (s : string) : Z :=
  match s with
  | EmptyString => acc
  | String c s' => toy_hash (31 * acc + Z.of_nat (nat_of_ascii c)) s'
  end.

(** A site given by its network, its listing parser and its detail
    parser; the other libraries are the same for all examples. *)
Definition site (net : nat -> string -> Try Response)
    (select : string -> list Assetplan.Anuncio)
    (parse : string -> Try Assetplan.Ficha) : Assetplan.Env := {|
  Assetplan.net := net;
  Assetplan.str_hash := toy_hash 7;
  Assetplan.select_anuncios := select;
  Assetplan.urljoin := fun base rel => base +:+ rel;
  Assetplan.parse_ficha := parse;
  Assetplan.gmtime := fun _ => "2025-08-26T12:00:00Z";
  Assetplan.format_other := fun _ _ => Raised (ValueError "format spec");
  Assetplan.dirname := fun _ => "data/raw";
  Assetplan.open_error := fun _ => None
|}.

Definition listing_url : string :=
  "https://www.assetplan.cl/arriendo/departamento?page=1&servicioPro=1".

Definition select_two (html : string) : list Assetplan.Anuncio :=
  if String.eqb html "<listado 1>"
  then [card "Edificio Uno" "/proyecto/uno"; card "Edificio Dos" "/proyecto/dos"]
  else if String.eqb html "<listado 2>"
  then [card "Edificio Tres" ""]
  else [].

Definition piscina : Assetplan.Ficha := {|
  Assetplan.f_comodidades := ["Piscina"; ""; "Gimnasio"];
  Assetplan.f_tipologias :=
    [Returned {| Assetplan.t_dormitorios := "2"; Assetplan.t_banos := "1";
                 Assetplan.t_m2_utiles := "45 m2"; Assetplan.t_precio := "$420.000";
                 Assetplan.t_unidades := "3"; Assetplan.t_link_tip := "" |}]
|}.


(** Two listing pages, then a 404; every detail page is served. *)
Definition two_pages_net (k : nat) (url : string) : Try Response :=
  if String.eqb url "https://www.assetplan.cl/arriendo/departamento?page=1&servicioPro=1"
  then resp 200 "<listado 1>"
  else if String.eqb url "https://www.assetplan.cl/arriendo/departamento?page=2&servicioPro=1"
  then resp 200 "<listado 2>"
  else if startswith "https://www.assetplan.cl/proyecto/" url
  then resp 200 "<ficha>"
  else resp 404 "Not Found".

Definition two_pages : Assetplan.Env :=
  site two_pages_net select_two (fun _ => Returned piscina).



(** A site that serves the same listing whatever the page asked. *)
Definition looping_net (k : nat) (url : string) : Try Response :=
  if startswith "https://www.assetplan.cl/proyecto/" url
  then resp 200 "<ficha>"
  else resp 200 "<listado 1>".

Definition looping : Assetplan.Env :=
  site looping_net select_two (fun _ => Returned piscina).

(** ** A bluehome site: one building with two tipologias *)

Definition edificio_azul : Bluehome.Container := {|
  Bluehome.c_nombre := "Edificio Azul";
  Bluehome.c_direccion := "Av. Irarrazaval 1500";
  Bluehome.c_precio := "";
  Bluehome.c_departamentos :=
    [ {| Bluehome.dormitorios := "1"; Bluehome.unidades_disponibles := "3";
         Bluehome.link := "https://bluehome.cl/departamento/1d";
         Bluehome.banos := ""; Bluehome.m2_utiles := "" |};
      {| Bluehome.dormitorios := "2"; Bluehome.unidades_disponibles := "1";
         Bluehome.link := "https://bluehome.cl/departamento/2d";
         Bluehome.banos := ""; Bluehome.m2_utiles := "" |} ]
|}.

Definition bluehome_site : Bluehome.Env := {|
  Bluehome.navigate := fun _ url => Returned ("<html>" +:+ url +:+ "</html>");
  Bluehome.listing_wait := Returned tt;
  Bluehome.select_containers := fun _ => [edificio_azul];
  Bluehome.apply_detail := fun _ found dept _ => (found, dept);
  Bluehome.random_bits := fun k => 1234567 * Z.of_nat (S k)
|}.

End Examples.


From Stdlib Require DecimalNat DecimalFacts Permutation Sorted.

(* ===================================================================== *)
(** * Regular expressions and text helpers

    The second part of the development covers the code around the fetch
    and the pagination: the fields the three scrapers read from the pages
    ([Re], [SommaFields], [BluehomeFields], [AssetplanFields]), the
    aggregate of the somma scraper, and the entry point ([Main]).  As
    before the text is ASCII: [\d], [\s], [str.lower], [str.isdigit] and
    [re.IGNORECASE] are those of the ASCII characters. *)
(* ===================================================================== *)

Module Re.
Import Py.

(** The whitespace of [\s] and of [str.strip] among the ASCII characters:
    tab to carriage return, the four separators 0x1c-0x1f, and the space. *)
Definition is_space (c : ascii) : bool :=
  let n := nat_of_ascii c in
  ((Nat.leb 9 n && Nat.leb n 13) || (Nat.leb 28 n && Nat.leb n 32))%bool.

(** [str.lower] on ASCII letters. *)
Definition lower_char (c : ascii) : ascii :=
  let n := nat_of_ascii c in
  if (Nat.leb 65 n && Nat.leb n 90)%bool then ascii_of_nat (n + 32) else c.

Fixpoint lower (s : string) : string :=
  match s with
  | EmptyString => EmptyString
  | String c s' => String (lower_char c) (lower s')
  end.

(** The longest prefix whose characters satisfy [p], and what follows. *)
Fixpoint span (p : ascii -> bool) (s : string) : string * string :=
  match s with
  | EmptyString => (EmptyString, EmptyString)
  | String c s' =>
      if p c then let (run, rest) := span p s' in (String c run, rest)
      else (EmptyString, s)
  end.

(** The constructs the patterns of the repository are written with. *)
Inductive Pattern : Type :=
  | Eps                             (* the empty pattern *)
  | Lit (c : ascii)                 (* one character *)
  | Class (p : ascii -> bool)       (* one character of a class *)
  | Plus (p : ascii -> bool)        (* class+, greedy *)
  | Opt (r : Pattern)               (* r?, greedy *)
  | Seq (r1 r2 : Pattern)
  | Group (r : Pattern).            (* the capturing group, number 1 *)

(** A literal word. *)
Fixpoint lits (s : string) : Pattern :=
  match s with
  | EmptyString => Eps
  | String c s' => Seq (Lit c) (lits s')
  end.

(** What was consumed between [s] and its suffix [rest]. *)
Definition consumed (s rest : string) : string :=
  str_take (String.length s - String.length rest) s.

(** [class+] against [s]: the continuation is tried after the longest run
    first, then after shorter and shorter ones. *)
Fixpoint plus {A} (p : ascii -> bool) (s : string) (k : string -> option A)
  : option A :=
  match s with
  | EmptyString => None
  | String c s' =>
      if p c then
        match plus p s' k with
        | Some a => Some a
        | None => k s'
        end
      else None
  end.

(** Matching by backtracking, as [re] does: [match_at ic r s cap k] matches
    [r] at the start of [s] and hands what follows, with the text captured
    so far, to [k]; the first alternative that lets [k] succeed wins.
    [ic] is [re.IGNORECASE]. *)
Fixpoint match_at {A} (ic : bool) (r : Pattern) (s : string) (cap : string)
    (k : string -> string -> option A) : option A :=
  match r with
  | Eps => k s cap
  | Lit c =>
      match s with
      | String a s' =>
          if (if ic then Ascii.eqb (lower_char a) (lower_char c) else Ascii.eqb a c)
          then k s' cap else None
      | EmptyString => None
      end
  | Class p =>
      match s with
      | String a s' => if p a then k s' cap else None
      | EmptyString => None
      end
  | Plus p => plus p s (fun rest => k rest cap)
  | Opt r1 =>
      match match_at ic r1 s cap k with
      | Some a => Some a
      | None => k s cap
      end
  | Seq r1 r2 =>
      match_at ic r1 s cap (fun rest cap' => match_at ic r2 rest cap' k)
  | Group r1 =>
      match_at ic r1 s cap (fun rest _ => k rest (consumed s rest))
  end.

(** [pattern.search(s)]: the match at the leftmost position that has one;
    the result is [m.group(1)]. *)
Fixpoint search (ic : bool) (r : Pattern) (s : string) : option string :=
  match match_at ic r s EmptyString (fun _ cap => Some cap) with
  | Some g => Some g
  | None =>
      match s with
      | EmptyString => None
      | String _ s' => search ic r s'
      end
  end.

(** [re.sub(r"\s+", " ", s)]: every run of whitespace becomes one space.
    [in_run] tells that the run being read was already replaced. *)
Fixpoint sub_spaces (in_run : bool) (s : string) : string :=
  match s with
  | EmptyString => EmptyString
  | String c s' =>
      if is_space c then
        if in_run then sub_spaces true s' else String " " (sub_spaces true s')
      else String c (sub_spaces false s')
  end.

(** [s.strip()] *)
Definition lstrip (s : string) : string := snd (span is_space s).

Fixpoint rstrip (s : string) : string :=
  match s with
  | EmptyString => EmptyString
  | String c s' =>
      match rstrip s' with
      | EmptyString => if is_space c then EmptyString else String c EmptyString
      | r => String c r
      end
  end.

Definition strip (s : string) : string := rstrip (lstrip s).

(** Every character of [s] satisfies [p]. *)
Fixpoint all_chars (p : ascii -> bool) (s : string) : bool :=
  match s with
  | EmptyString => true
  | String c s' => (p c && all_chars p s')%bool
  end.

(** [s] starts with a character that satisfies [p]. *)
Definition head_is (p : ascii -> bool) (s : string) : bool :=
  match s with
  | EmptyString => false
  | String c _ => p c
  end.

Definition not_digit (c : ascii) : bool := negb (is_digit c).

Fixpoint map_chars (f : ascii -> ascii) (s : string) : string :=
  match s with
  | EmptyString => EmptyString
  | String c s' => String (f c) (map_chars f s')
  end.

Definition comma_to_dot (c : ascii) : ascii :=
  if Ascii.eqb c "," then "."%char else c.

(** [s] does not start with a separator followed by a digit. *)
Definition no_fraction (p : ascii -> bool) (s : string) : bool :=
  match s with
  | String c rest => negb (p c && head_is is_digit rest)
  | EmptyString => true
  end.

(** The number at the start of [s]: the run of digits and, when a
    separator of the class [p] and a digit follow it, that separator and
    the next run of digits. *)
Definition number_at (p : ascii -> bool) (s : string) : string :=
  let (whole, rest) := span is_digit s in
  match rest with
  | String c rest' =>
      if (p c && head_is is_digit rest')%bool
      then whole +:+ String c (fst (span is_digit rest'))
      else whole
  | EmptyString => whole
  end.

(** The only whitespace of [s] is single spaces; [after_space] tells that
    the character before [s] is a space. *)
Fixpoint single_spaced (after_space : bool) (s : string) : bool :=
  match s with
  | EmptyString => true
  | String c s' =>
      if is_space c
      then (Ascii.eqb c " " && negb after_space && single_spaced true s')%bool
      else single_spaced false s'
  end.

(** Any character but [x]. *)
Definition is_not (x c : ascii) : bool := negb (Ascii.eqb c x).

(** A pattern without a capturing group. *)
Fixpoint group_free (r : Pattern) : bool :=
  match r with
  | Group _ => false
  | Opt r1 => group_free r1
  | Seq r1 r2 => (group_free r1 && group_free r2)%bool
  | _ => true
  end.

(** What a match is: [matches ic r s cap rest cap'] when [r] matches a
    prefix of [s] that leaves [rest], the captured text going from [cap]
    to [cap']. *)
Inductive matches (ic : bool) : Pattern -> string -> string -> string -> string -> Prop :=
  | matches_eps s cap : matches ic Eps s cap s cap
  | matches_lit c a s cap :
      (if ic then Ascii.eqb (lower_char a) (lower_char c) else Ascii.eqb a c) = true ->
      matches ic (Lit c) (String a s) cap s cap
  | matches_class (p : ascii -> bool) a s cap :
      p a = true -> matches ic (Class p) (String a s) cap s cap
  | matches_plus (p : ascii -> bool) run rest cap :
      truthy run = true -> all_chars p run = true ->
      matches ic (Plus p) (run +:+ rest) cap rest cap
  | matches_opt r s cap rest cap' :
      matches ic r s cap rest cap' -> matches ic (Opt r) s cap rest cap'
  | matches_skip r s cap : matches ic (Opt r) s cap s cap
  | matches_seq r1 r2 s cap mid cap1 rest cap2 :
      matches ic r1 s cap mid cap1 -> matches ic r2 mid cap1 rest cap2 ->
      matches ic (Seq r1 r2) s cap rest cap2
  | matches_group r s cap rest cap' :
      matches ic r s cap rest cap' ->
      matches ic (Group r) s cap rest (consumed s rest).

(** ** The patterns of the three scrapers *)

Definition is_dot_or_comma (c : ascii) : bool :=
  (Ascii.eqb c "." || Ascii.eqb c ",")%bool.

Definition is_digit_or_plus (c : ascii) : bool :=
  (is_digit c || Ascii.eqb c "+")%bool.

(** [(\d+)] *)
Definition INT_RE : Pattern := Group (Plus is_digit).

(** [(\d+(?:[.,]\d+)?)] *)
Definition NUM_RE : Pattern :=
  Group (Seq (Plus is_digit) (Opt (Seq (Class is_dot_or_comma) (Plus is_digit)))).

(** [(\d+)\s+Unidades?\s+disponibles], compiled with [re.I] *)
Definition UNITS_RE : Pattern :=
  Seq (Group (Plus is_digit))
    (Seq (Plus is_space)
       (Seq (lits "Unidade")
          (Seq (Opt (Lit "s"))
             (Seq (Plus is_space) (lits "disponibles"))))).

(** [Ver\s+([\d\+]+)\s+disponibles?] *)
Definition VER_RE : Pattern :=
  Seq (lits "Ver")
    (Seq (Plus is_space)
       (Seq (Group (Plus is_digit_or_plus))
          (Seq (Plus is_space)
             (Seq (lits "disponible") (Opt (Lit "s")))))).

End Re.

(* ===================================================================== *)
(** * scraper_somma_nunoa.py: the fields of a card and the aggregate *)
(* ===================================================================== *)

Module SommaFields.
Import Py Re.

(** ** [int] and [str] on integers

    [max_str_digits] is the interpreter's limit on the number of digits
    of a decimal conversion ([sys.get_int_max_str_digits()], 4300 by
    default where the limit exists); 0 means no limit. *)
Definition within_limit (max_str_digits n : nat) : bool :=
  (Nat.eqb max_str_digits 0 || Nat.leb n max_str_digits)%bool.

(** The whitespace [int] accepts around a literal. *)
Definition is_c_space (c : ascii) : bool :=
  let n := nat_of_ascii c in
  ((Nat.leb 9 n && Nat.leb n 13) || Nat.eqb n 32)%bool.

Fixpoint rstrip_c (s : string) : string :=
  match s with
  | EmptyString => EmptyString
  | String c s' =>
      match rstrip_c s' with
      | EmptyString => if is_c_space c then EmptyString else String c EmptyString
      | r => String c r
      end
  end.

(** Digits with single underscores between them; the result holds the
    digits alone. [after_digit] tells that the previous character was a
    digit. *)
Fixpoint digit_groups (after_digit : bool) (s : string) : option string :=
  match s with
  | EmptyString => if after_digit then Some EmptyString else None
  | String c s' =>
      if is_digit c then
        match digit_groups true s' with
        | Some ds => Some (String c ds)
        | None => None
        end
      else if (Ascii.eqb c "_" && after_digit)%bool then
        match s' with
        | String d _ => if is_digit d then digit_groups false s' else None
        | EmptyString => None
        end
      else None
  end.

(** [int(s)] for a string [s] *)
Definition int (max_str_digits : nat) (s : string) : Try Z :=
  let body := rstrip_c (snd (span is_c_space s)) in
  let '(negative, literal) :=
    match body with
    | String "-" r => (true, r)
    | String "+" r => (false, r)
    | _ => (false, body)
    end in
  match digit_groups false literal with
  | None => Raised (ValueError "invalid literal for int() with base 10")
  | Some ds =>
      if within_limit max_str_digits (String.length ds) then
        let n := Z.of_nat (nat_of_digits 0 ds) in
        Returned (if negative then - n else n)
      else Raised (ValueError "Exceeds the limit for integer string conversion")
  end.

(** [str(z)] for an integer [z] *)
Definition str (max_str_digits : nat) (z : Z) : Try string :=
  let ds := str_of_nat (Z.abs_nat z) in
  if within_limit max_str_digits (String.length ds)
  then Returned (if z <? 0 then String "-" ds else ds)
  else Raised (ValueError "Exceeds the limit for integer string conversion").

(** [s.isdigit()] *)
Definition isdigit (s : string) : bool := (truthy s && all_digits s)%bool.

(** ** The helpers *)

Definition _safe_int (max_str_digits : nat) (s : string) (default : Z) : Z :=
  match int max_str_digits s with
  | Returned z => z
  | Raised _ => default
  end.

Definition _extract_m2 (dynamic_after_text : string) : string :=
  match search false NUM_RE (replace "," "." dynamic_after_text) with
  | Some g => g +:+ " m2"
  | None => EmptyString
  end.

Definition _extract_units (max_str_digits : nat) (availability_text : string) : Z :=
  if negb (truthy availability_text) then 0
  else
    match search true UNITS_RE availability_text with
    | Some g => _safe_int max_str_digits g 0
    | None =>
        if contains "disponible" (lower availability_text) then 1 else 0
    end.

(** [_extract_bed_bath], from the texts of the [.small-abbr] spans of the
    details line ([None] when the card has no such line). *)
Definition _extract_bed_bath (abbrs : option (list string)) : string * string :=
  match abbrs with
  | None => (EmptyString, EmptyString)
  | Some abbrs =>
      let nums := List.filter isdigit abbrs in
      (nth 0 nums EmptyString, nth 1 nums EmptyString)
  end.

(** ** Cards and tiles *)

(** What lines 153-182 read from one card: the texts ([_text] gives the
    empty string for a missing element) and the two attributes (empty
    when the anchor or the attribute is missing). *)
Record Card : Type := {
  c_title : string;
  c_abbrs : option (list string);
  c_dynamic_after : string;
  c_fee : string;
  c_availability_right : string;
  c_availability_any : string;
  c_href : string;
  c_data_url : string
}.

(** One entry of [tiles]. *)
Record Tile : Type := {
  planta : string;
  dormitorios : string;
  banos : string;
  m2_utiles : string;
  precio_mensual : string;
  availability_text : string;
  unidades_disponibles : Z;
  link_detalle : string;
  img_url : string
}.

(** Lines 153-194: the body of [for card in ...]. *)
Definition mk_tile (max_str_digits : nat) (card : Card) : Tile :=
  let '(dorms, baths) := _extract_bed_bath (c_abbrs card) in
  let availability :=
    if truthy (c_availability_right card) then c_availability_right card
    else c_availability_any card in
  {| planta := c_title card;
     dormitorios := dorms;
     banos := baths;
     m2_utiles := _extract_m2 (c_dynamic_after card);
     precio_mensual := c_fee card;
     availability_text := availability;
     unidades_disponibles := _extract_units max_str_digits availability;
     link_detalle := c_href card;
     img_url := c_data_url card |}.

(** ** The aggregate by number of bedrooms *)

(** [agg[d]["unidades_disponibles"] += u] on the dictionary, kept in
    insertion order; a missing key starts at 0. *)
Fixpoint add_units (d : string) (u : Z) (agg : list (string * Z))
  : list (string * Z) :=
  match agg with
  | [] => [(d, 0 + u)]
  | (k, v) :: rest =>
      if String.eqb k d then (k, v + u) :: rest
      else (k, v) :: add_units d u rest
  end.

(** Lines 197-200. *)
Definition aggregate (tiles : list Tile) : list (string * Z) :=
  fold_left (fun agg t => add_units (dormitorios t) (unidades_disponibles t) agg)
            tiles [].

(** The value of [agg[d]["unidades_disponibles"]], 0 for a missing key. *)
Fixpoint units_of (d : string) (agg : list (string * Z)) : Z :=
  match agg with
  | [] => 0
  | (k, v) :: rest => if String.eqb k d then v else units_of d rest
  end.

(** The units of the tiles whose [dormitorios] is [d], added up. *)
Definition total_for (d : string) (tiles : list Tile) : Z :=
  fold_right Z.add 0
    (map unidades_disponibles
       (List.filter (fun t => String.eqb (dormitorios t) d) tiles)).

(** [_sort_key]: [(int(k) if k.isdigit() else 999, k)] *)
Definition _sort_key (max_str_digits : nat) (item : string * Z) : Try (Z * string) :=
  let k := fst item in
  if isdigit k then
    match int max_str_digits k with
    | Returned n => Returned (n, k)
    | Raised e => Raised e
    end
  else Returned (999, k).

(** The order of tuples [(int, str)]. *)
Definition key_lt (a b : Z * string) : bool :=
  ((fst a <? fst b) || ((fst a =? fst b) && String.ltb (snd a) (snd b)))%bool.

(** Two bedroom labels in the order of their keys: both keys exist and
    the second is not smaller than the first. *)
Definition key_order (max_str_digits : nat) (d1 d2 : string) : Prop :=
  exists k1 k2,
    _sort_key max_str_digits (d1, 0) = Returned k1
    /\ _sort_key max_str_digits (d2, 0) = Returned k2
    /\ key_lt k2 k1 = false.

(** [f] on every element, in order, up to the first that raises. *)
Fixpoint try_map {A B} (f : A -> Try B) (l : list A) : Try (list B) :=
  match l with
  | [] => Returned []
  | x :: l' =>
      match f x with
      | Raised e => Raised e
      | Returned y =>
          match try_map f l' with
          | Raised e => Raised e
          | Returned ys => Returned (y :: ys)
          end
      end
  end.

(** Stable insertion: [x] goes before the first element whose key is not
    smaller than its own. *)
Fixpoint insert_by {A} (kx : Z * string) (x : A) (l : list ((Z * string) * A))
  : list ((Z * string) * A) :=
  match l with
  | [] => [(kx, x)]
  | (ky, y) :: l' =>
      if key_lt ky kx then (ky, y) :: insert_by kx x l'
      else (kx, x) :: (ky, y) :: l'
  end.

(** [sorted(items, key=_sort_key)]: the keys are computed first, for all
    the items in order; the sort is stable. *)
Definition sorted (max_str_digits : nat) (items : list (string * Z))
  : Try (list (string * Z)) :=
  match try_map (_sort_key max_str_digits) items with
  | Raised e => Raised e
  | Returned keys =>
      Returned (map snd (fold_right (fun kx acc => insert_by (fst kx) (snd kx) acc)
                           [] (combine keys items)))
  end.

(** One entry of [departamentos]. *)
Record Departamento : Type := {
  d_dormitorios : string;
  d_unidades_disponibles : string;
  d_banos : string;
  d_m2_utiles : string
}.

Record Resultado : Type := {
  fuente : string;
  departamentos : list Departamento;
  detalle_plantas : list Tile
}.

(** Lines 207-214. *)
Definition mk_departamento (max_str_digits : nat) (item : string * Z)
  : Try Departamento :=
  match str max_str_digits (snd item) with
  | Raised e => Raised e
  | Returned units =>
      Returned {| d_dormitorios := fst item;
                  d_unidades_disponibles := units;
                  d_banos := EmptyString;
                  d_m2_utiles := EmptyString |}
  end.

(** Lines 149-220: from the HTML to [resultado]. [select_cards] is
    [soup.select(".fp-group .fp-card")] followed by the reads of the
    card. *)
Definition build_resultado (max_str_digits : nat)
    (select_cards : string -> list Card) (url html : string) : Try Resultado :=
  let tiles := map (mk_tile max_str_digits) (select_cards html) in
  match sorted max_str_digits (aggregate tiles) with
  | Raised e => Raised e
  | Returned items =>
      match try_map (mk_departamento max_str_digits) items with
      | Raised e => Raised e
      | Returned deps =>
          Returned {| fuente := url; departamentos := deps;
                      detalle_plantas := tiles |}
      end
  end.

(** The whole of [scrape_departamentos]: the fetch, the build, the file. *)
Definition scrape_departamentos (max_str_digits : nat)
    (select_cards : string -> list Card) (open_error : string -> option PyExc)
    (env : Somma.Env) (url output_path : string) (timeout : Z)
    (use_browser use_cloudscraper : bool) (files : gmap string Resultado)
  : Try Resultado * list Somma.Tier * gmap string Resultado :=
  match Somma.scrape_departamentos (build_resultado max_str_digits select_cards)
          env url output_path timeout use_browser use_cloudscraper with
  | (Raised e, tr) => (Raised e, tr, files)
  | (Returned (Raised e), tr) => (Raised e, tr, files)
  | (Returned (Returned r), tr) =>
      match open_error output_path with
      | Some e => (Raised e, tr, files)
      | None => (Returned r, tr, <[output_path := r]> files)
      end
  end.

End SommaFields.

(* ===================================================================== *)
(** * scraper_bluehome.py: the fields of the listing and of a detail page *)
(* ===================================================================== *)

Module BluehomeFields.
Import Py Re.

Definition BASE : string := "https://bluehome.cl".

Definition _clean_text (s : string) : string :=
  if truthy s then strip (sub_spaces false s) else EmptyString.

Definition _find_int (text default : string) : string :=
  match search false INT_RE text with
  | Some g => g
  | None => default
  end.

Definition _find_num (text default : string) : string :=
  match search false NUM_RE (replace "," "." text) with
  | Some g => g
  | None => default
  end.

(** [urljoin] is the library's; it raises on some references. *)
Definition _full_url (urljoin : string -> string -> Try string) (href : string)
  : Try string :=
  if negb (truthy href) then Returned EmptyString
  else urljoin BASE href.

(** What lines 108-122 read from one [div.building-rooms--items] that has
    an anchor: [a.get_text(separator="|")], the text of the
    [span.d-inline-block] if there is one, and [a.get("href") or ""]. *)
Record RoomItem : Type := {
  r_text : string;
  r_span : option string;
  r_href : string
}.

(** [s.split(sep, 1)[0]] *)
Definition split_first (sep : ascii) (s : string) : string :=
  fst (span (fun c => negb (Ascii.eqb c sep)) s).

(** Line 115. *)
Definition dorms_token (texto : string) : string :=
  if contains "|" texto then split_first "|" texto else texto.

(** Lines 113-129, with the two [setdefault] of lines 136-137. *)
Definition mk_dept (urljoin : string -> string -> Try string) (item : RoomItem)
  : Try Bluehome.Dept :=
  let texto := _clean_text (r_text item) in
  let dormitorios := _find_int (dorms_token texto) EmptyString in
  let unidades :=
    _find_int (match r_span item with Some t => t | None => EmptyString end)
              EmptyString in
  match _full_url urljoin (r_href item) with
  | Raised e => Raised e
  | Returned link =>
      Returned {| Bluehome.dormitorios := dormitorios;
                  Bluehome.unidades_disponibles := unidades;
                  Bluehome.link := link;
                  Bluehome.banos := EmptyString;
                  Bluehome.m2_utiles := EmptyString |}
  end.

(** The texts of the three [span.text] of the features list, each
    missing or present. *)
Record Features : Type := {
  bed : option string;
  bathtub : option string;
  texture : option string
}.

(** What lines 156-177 select in a detail page: for each [li] of the
    amenities list the text of its first [span], if any; the features
    list. *)
Record DetailPage : Type := {
  amenities : option (list (option string));
  features : option Features
}.

(** Lines 158-163. *)
Fixpoint read_amenities (lis : list (option string)) : list string :=
  match lis with
  | [] => []
  | None :: rest => read_amenities rest
  | Some t :: rest =>
      let txt := _clean_text t in
      if truthy txt then txt :: read_amenities rest else read_amenities rest
  end.

Definition set_dormitorios (v : string) (d : Bluehome.Dept) : Bluehome.Dept :=
  {| Bluehome.dormitorios := v;
     Bluehome.unidades_disponibles := Bluehome.unidades_disponibles d;
     Bluehome.link := Bluehome.link d;
     Bluehome.banos := Bluehome.banos d;
     Bluehome.m2_utiles := Bluehome.m2_utiles d |}.
Definition set_banos (v : string) (d : Bluehome.Dept) : Bluehome.Dept :=
  {| Bluehome.dormitorios := Bluehome.dormitorios d;
     Bluehome.unidades_disponibles := Bluehome.unidades_disponibles d;
     Bluehome.link := Bluehome.link d;
     Bluehome.banos := v;
     Bluehome.m2_utiles := Bluehome.m2_utiles d |}.
Definition set_m2_utiles (v : string) (d : Bluehome.Dept) : Bluehome.Dept :=
  {| Bluehome.dormitorios := Bluehome.dormitorios d;
     Bluehome.unidades_disponibles := Bluehome.unidades_disponibles d;
     Bluehome.link := Bluehome.link d;
     Bluehome.banos := Bluehome.banos d;
     Bluehome.m2_utiles := v |}.

(** Lines 166-180. *)
Definition read_features (f : Features) (dept : Bluehome.Dept) : Bluehome.Dept :=
  let d1 :=
    match bed f with
    | Some t => set_dormitorios (_find_int t (Bluehome.dormitorios dept)) dept
    | None => dept
    end in
  let d2 :=
    match bathtub f with
    | Some t => set_banos (_find_int t EmptyString) d1
    | None => d1
    end in
  match texture f with
  | Some t =>
      let m2v := _find_num t EmptyString in
      set_m2_utiles (if truthy m2v then m2v +:+ " m2" else EmptyString) d2
  | None => d2
  end.

(** Lines 152-180, for the page source [src] of the entry of index [idx];
    [parse] is [BeautifulSoup(src, "html.parser")] followed by the
    selections. *)
Definition read_detail (parse : string -> DetailPage) (idx : nat)
    (comodidades : list string) (dept : Bluehome.Dept) (src : string)
  : list string * Bluehome.Dept :=
  let det := parse src in
  let comodidades' :=
    match idx, comodidades with
    | O, [] =>
        match amenities det with
        | Some lis => read_amenities lis
        | None => []
        end
    | _, _ => comodidades
    end in
  (comodidades',
   match features det with
   | Some f => read_features f dept
   | None => dept
   end).

(** The outside of [scrape_bluehome] with the reads of the detail page
    done by the code above. *)
Definition env_with_reads (parse : string -> DetailPage)
    (navigate : nat -> string -> Try string) (listing_wait : Try unit)
    (select_containers : string -> list Bluehome.Container)
    (random_bits : nat -> Z) : Bluehome.Env :=
  {| Bluehome.navigate := navigate;
     Bluehome.listing_wait := listing_wait;
     Bluehome.select_containers := select_containers;
     Bluehome.apply_detail := read_detail parse;
     Bluehome.random_bits := random_bits |}.

(** The events of the detail loop: a load of a detail page, a pause. *)
Definition is_detail_event (e : Bluehome.Event) : bool :=
  match e with
  | Bluehome.EvLoadDetail _ | Bluehome.EvSleep _ => true
  | _ => false
  end.

(** The detail pages a log loads, in order. *)
Fixpoint loads (l : list Bluehome.Event) : list string :=
  match l with
  | [] => []
  | Bluehome.EvLoadDetail u :: l' => u :: loads l'
  | _ :: l' => loads l'
  end.

(** The links of the entries of a building that have one. *)
Definition links_of (c : Bluehome.Container) : list string :=
  List.filter truthy (map Bluehome.link (Bluehome.c_departamentos c)).

(** The amenities a building gets: those of the page of its first entry,
    when that entry has a link. [k] is the number of navigations done
    before the building. *)
Definition first_amenities (parse : string -> DetailPage)
    (navigate : nat -> string -> Try string) (k : nat)
    (depts : list Bluehome.Dept) : list string :=
  match depts with
  | [] => []
  | d :: _ =>
      if truthy (Bluehome.link d) then
        match navigate k (Bluehome.link d) with
        | Returned src =>
            match amenities (parse src) with
            | Some lis => read_amenities lis
            | None => []
            end
        | Raised _ => []
        end
      else []
  end.

End BluehomeFields.

(* ===================================================================== *)
(** * scraper_assetplan.py: the button of a tipologia *)
(* ===================================================================== *)

Module AssetplanFields.
Import Py Re.

(** Lines 171-185: [unidades], from the text of the button if there is
    one. *)
Definition unidades_of (a_tag : option string) : string :=
  match a_tag with
  | None => EmptyString
  | Some text =>
      match search false VER_RE text with
      | Some g => g
      | None => EmptyString
      end
  end.

(** Lines 138-145: [dormitorios], from the stripped texts of the [p] of
    the dormitorios block if there is one. *)
Definition dormitorios_of (ps : option (list string)) : string :=
  match ps with
  | Some (p0 :: p1 :: _) =>
      if contains "dormitorio" (lower p1) then p0 else EmptyString
  | _ => EmptyString
  end.

(** A record whose details can be used: each entry of [departamentos]
    has a link, no entry of [comodidades] is empty, a record without a
    link of its own has no details, and the operator is the constant. *)
Definition record_ok (p : Assetplan.Property) : Prop :=
  Forall (fun d => truthy (Assetplan.d_link d) = true) (Assetplan.p_departamentos p)
  /\ Forall (fun c => truthy c = true) (Assetplan.p_comodidades p)
  /\ (truthy (Assetplan.p_link p) = false ->
      Assetplan.p_comodidades p = [] /\ Assetplan.p_departamentos p = [])
  /\ Assetplan.p_Operador p = "assetplan".

End AssetplanFields.

(* ===================================================================== *)
(** * main_scraper.py *)
(* ===================================================================== *)

Module Main.
Import Py.
Local Open Scope py_scope.







End Main.

(* ===================================================================== *)
(** * Sample pages *)
(* ===================================================================== *)

Module Samples.
Import Py.

(** Four cards of a somma page: two plans with two bedrooms, one with
    one, and a studio whose details line has no number. *)
Definition card (title : string) (abbrs : list string)
    (after availability : string) : SommaFields.Card :=
  {| SommaFields.c_title := title;
     SommaFields.c_abbrs := Some abbrs;
     SommaFields.c_dynamic_after := after;
     SommaFields.c_fee := "$ 450.000";
     SommaFields.c_availability_right := availability;
     SommaFields.c_availability_any := EmptyString;
     SommaFields.c_href := EmptyString;
     SommaFields.c_data_url := EmptyString |}.

Definition somma_cards : list SommaFields.Card :=
  [ card "Planta B" ["2"; "Dormitorios"; "/"; "2"; "Banos"]
      "58,4 m2" "3 Unidades disponibles";
    card "Planta A" ["1"; "Dormitorio"; "/"; "1"; "Bano"]
      "37+ m2" "Disponible 26 de agosto de 2025";
    card "Planta C" ["2"; "Dormitorios"; "/"; "1"; "Bano"]
      "52 m2" "1 Unidades disponibles";
    card "Estudio" ["Estudio"] EmptyString EmptyString ].

Definition select_cards (html : string) : list SommaFields.Card := somma_cards.

(** A label of 4301 digits, one more than the interpreter converts by
    default. *)
Definition long_label : string := string_of_list_ascii (repeat "7"%char 4301).


Definition somma_url : string := "https://www.sommaplazanunoa.cl/".

Definition somma_departamentos : list SommaFields.Departamento :=
  [ {| SommaFields.d_dormitorios := "1";
       SommaFields.d_unidades_disponibles := "1";
       SommaFields.d_banos := EmptyString;
       SommaFields.d_m2_utiles := EmptyString |};
    {| SommaFields.d_dormitorios := "2";
       SommaFields.d_unidades_disponibles := "4";
       SommaFields.d_banos := EmptyString;
       SommaFields.d_m2_utiles := EmptyString |};
    {| SommaFields.d_dormitorios := EmptyString;
       SommaFields.d_unidades_disponibles := "0";
       SommaFields.d_banos := EmptyString;
       SommaFields.d_m2_utiles := EmptyString |} ].

Definition somma_resultado : SommaFields.Resultado :=
  {| SommaFields.fuente := somma_url;
     SommaFields.departamentos := somma_departamentos;
     SommaFields.detalle_plantas :=
       map (SommaFields.mk_tile 4300) somma_cards |}.

(** A bluehome building whose first entry has no link; the detail page
    of the second one lists an amenity. *)
Definition bluehome_parse (src : string) : BluehomeFields.DetailPage :=
  {| BluehomeFields.amenities := Some [Some " Piscina  temperada "; None; Some " "];
     BluehomeFields.features :=
       Some {| BluehomeFields.bed := Some "2 dormitorios";
               BluehomeFields.bathtub := Some "1";
               BluehomeFields.texture := Some "52,3 m2" |} |}.

Definition bluehome_entry (dorms link : string) : Bluehome.Dept :=
  {| Bluehome.dormitorios := dorms;
     Bluehome.unidades_disponibles := "3";
     Bluehome.link := link;
     Bluehome.banos := EmptyString;
     Bluehome.m2_utiles := EmptyString |}.

Definition bluehome_container : Bluehome.Container :=
  {| Bluehome.c_nombre := "Edificio Azul";
     Bluehome.c_direccion := "Av. Irarrazaval 100";
     Bluehome.c_precio := "$ 400.000";
     Bluehome.c_departamentos :=
       [ bluehome_entry "1" EmptyString;
         bluehome_entry "2" "https://bluehome.cl/azul/2d" ] |}.

Definition bluehome_env : Bluehome.Env :=
  BluehomeFields.env_with_reads bluehome_parse
    (fun _ _ => Returned "<html>") (Returned tt)
    (fun _ => [bluehome_container]) (fun _ => 0).

(** The two-page assetplan site on a disk where the JSON file cannot be
    opened, and on one where only the JSONL file cannot. *)
Definition with_open_error (open_error : string -> option PyExc)
    (env : Assetplan.Env) : Assetplan.Env :=
  {| Assetplan.net := Assetplan.net env;
     Assetplan.str_hash := Assetplan.str_hash env;
     Assetplan.select_anuncios := Assetplan.select_anuncios env;
     Assetplan.urljoin := Assetplan.urljoin env;
     Assetplan.parse_ficha := Assetplan.parse_ficha env;
     Assetplan.gmtime := Assetplan.gmtime env;
     Assetplan.format_other := Assetplan.format_other env;
     Assetplan.dirname := Assetplan.dirname env;
     Assetplan.open_error := open_error |}.

Definition read_only_disk : Assetplan.Env :=
  with_open_error (fun _ => Some OSError) Examples.two_pages.

Definition no_jsonl_disk : Assetplan.Env :=
  with_open_error
    (fun path => if String.eqb path "data/raw/assetplan.jsonl"
                 then Some OSError else None)
    Examples.two_pages.

End Samples.
(* ===================================================================== *)
(** * The escalator and the retry policy *)
(* ===================================================================== *)

Section SommaFacts.
Import Py Somma.

Lemma fetch_html_trace_allowed env url timeout ub uc :
  Forall (fun t => allowed ub uc t = true)
         (snd (_fetch_html env url timeout ub uc)).
Proof.
  unfold _fetch_html, _requests_fetch, _cloudscraper_fetch, _playwright_fetch.
  destruct ub; simpl.
  - repeat constructor.
  - destruct (checked_text (plain_get env url timeout)) as [html|e]; simpl.
    + repeat constructor.
    + destruct e; simpl; try (repeat constructor).
      destruct (status =? 403) eqn:E403; destruct uc; simpl; repeat constructor.
Qed.


(** C2. When plain HTTP fails with the 403 block: with the stealth tier
    enabled and succeeding, the fetch returns the stealth tier's content;
    with it disabled, the 403 failure is the result and only plain HTTP was
    invoked; and whatever the outcome, every tier invoked is one the flags
    of the caller allow. *)
Theorem fetch_html_blocked env url timeout :
  fst (_requests_fetch env url timeout) = Raised (HTTPError 403) ->
  (forall html,
      fst (_cloudscraper_fetch env url timeout) = Returned html ->
      _fetch_html env url timeout false true
      = (Returned html, [PlainHTTP; StealthHTTP]))
  /\ _fetch_html env url timeout false false
     = (Raised (HTTPError 403), [PlainHTTP])
  /\ (forall ub uc,
        Forall (fun t => allowed ub uc t = true)
               (snd (_fetch_html env url timeout ub uc))).
Proof.
  intros Hblocked.
  split; [|split]; [| |intros ub uc; apply fetch_html_trace_allowed];
    unfold _fetch_html, _requests_fetch, _cloudscraper_fetch in *;
    simpl in Hblocked; rewrite Hblocked; simpl.
  - intros html Hcloud. now rewrite Hcloud.
  - reflexivity.
Qed.

Lemma fetch_html_blocked_witness :
  _fetch_html Examples.blocked_env Examples.somma_url 30 false true
  = (Returned "<html>plantas</html>", [PlainHTTP; StealthHTTP])
  /\ _fetch_html Examples.blocked_env Examples.somma_url 30 false false
     = (Raised (HTTPError 403), [PlainHTTP]).
Proof.
  destruct (fetch_html_blocked Examples.blocked_env Examples.somma_url 30
              eq_refl) as (Hon & Hoff & _).
  split; [apply Hon; reflexivity | exact Hoff].
Defined.




End SommaFacts.

(* ===================================================================== *)
(** * Statements *)
(* ===================================================================== *)

Section StmtFacts.
Import Py.
Context {S A B : Type}.

(** Running [bind]: the continuation runs on the state the first
    statement reached, unless that one raised or ran out of fuel. *)
Lemma bind_run (m : M S A) (k : A -> M S B) s :
  bind m k s = match m s with
               | (Val a, s') => k a s'
               | (Exn e, s') => (Exn e, s')
               | (OutOfFuel, s') => (OutOfFuel, s')
               end.
Proof. reflexivity. Qed.

End StmtFacts.

(* ===================================================================== *)
(** * The assetplan scraper: one card *)
(* ===================================================================== *)

Section AssetplanCard.
Import Py Assetplan.
Variable env : Env.

#[local] Instance only_details_refl : Reflexive only_details.
Proof. intros s. unfold only_details. tauto. Qed.

#[local] Instance only_details_trans : Transitive only_details.
Proof.
  intros a b c Hab Hbc. unfold only_details in *.
  destruct Hab as (?&?&?&?&?&?&?), Hbc as (?&?&?&?&?&?&?).
  repeat split; congruence.
Qed.

Lemma comodidades_loop l : forall s,
  exists s',
    for_each l (fun txt =>
      if truthy txt
      then modify (fun s => set_detalles (detalles s ++ [txt]) s)
      else ret tt) s = (Val tt, s')
    /\ only_details s s'
    /\ detalles s' = detalles s ++ List.filter truthy l
    /\ departamentos s' = departamentos s.
Proof.
  set (g := fun txt : string => _).
  induction l as [|txt l IH]; intros s; simpl.
  - exists s. rewrite app_nil_r. repeat split; reflexivity.
  - rewrite bind_run. unfold g at 1. destruct (truthy txt); simpl.
    + destruct (IH (set_detalles (detalles s ++ [txt]) s))
        as (s' & Hrun & HR & Hdet & Hdep).
      rewrite Hrun. exists s'. split; [reflexivity|]. simpl in *.
      rewrite Hdet, <- app_assoc. unfold only_details in *. simpl in *. tauto.
    + destruct (IH s) as (s' & Hrun & HR & Hdet & Hdep).
      rewrite Hrun. exists s'. tauto.
Qed.

Lemma tipologias_loop link_full l : forall s,
  exists r s',
    for_each l (fun depto =>
      bind (lift depto) (fun t =>
        modify (fun s =>
          set_departamentos (departamentos s ++ [mk_departamento t link_full]) s)))
      s = (r, s')
    /\ r <> OutOfFuel
    /\ only_details s s'
    /\ detalles s' = detalles s
    /\ departamentos s'
       = departamentos s
           ++ map (fun t => mk_departamento t link_full) (returned_prefix l).
Proof.
  set (g := fun depto : Try Tipologia => _).
  induction l as [|[t|e] l IH]; intros s; simpl.
  - exists (Val tt), s. rewrite app_nil_r.
    repeat split; try reflexivity. discriminate.
  - rewrite bind_run. unfold g at 1. rewrite bind_run. simpl.
    destruct (IH (set_departamentos
                    (departamentos s ++ [mk_departamento t link_full]) s))
      as (r & s' & Hrun & Hfuel & HR & Hdet & Hdep).
    rewrite Hrun. exists r, s'. split; [reflexivity|].
    simpl in *. rewrite Hdep, <- app_assoc.
    unfold only_details in *. simpl in *. tauto.
  - rewrite bind_run. unfold g at 1. rewrite bind_run. simpl.
    exists (Exn e), s. rewrite app_nil_r.
    repeat split; try reflexivity. discriminate.
Qed.
Lemma read_ficha_spec link_full dresp s :
  exists r s',
    read_ficha env link_full dresp s = (r, s')
    /\ r <> OutOfFuel
    /\ only_details s s'
    /\ detalles s'
       = detalles s ++ fst (details_of env link_full (Returned dresp))
    /\ departamentos s'
       = departamentos s ++ snd (details_of env link_full (Returned dresp)).
Proof.
  unfold read_ficha, details_of. destruct (status_code dresp =? 200).
  - unfold bind at 1.
    destruct (parse_ficha env (text dresp)) as [dsoup|e]; simpl.
    + unfold bind at 1.
      destruct (comodidades_loop (f_comodidades dsoup) s)
        as (s1 & Hrun & HR & Hdet & Hdep).
      rewrite Hrun.
      destruct (tipologias_loop link_full (f_tipologias dsoup) s1)
        as (r & s2 & Hrun2 & Hfuel & HR2 & Hdet2 & Hdep2).
      rewrite Hrun2. exists r, s2. split; [reflexivity|].
      split; [exact Hfuel|]. split; [etransitivity; eassumption|].
      split; congruence.
    + exists (Exn e), s. rewrite !app_nil_r.
      repeat split; try reflexivity. discriminate.
  - exists (Val tt), s. simpl. rewrite !app_nil_r.
    repeat split; try reflexivity. discriminate.
Qed.

Lemma enrich_spec link_full s :
  exists s',
    enrich env link_full s = (Val tt, s')
    /\ page s' = page s /\ properties s' = properties s
    /\ seen_page_html_hash s' = seen_page_html_hash s
    /\ count_items s' = count_items s /\ files s' = files s
    /\ log s' = log s ++ ficha_events env link_full (requests s)
    /\ requests s'
       = (requests s + List.length (ficha_events env link_full (requests s)))%nat
    /\ (if truthy link_full
        then detalles s'
             = detalles s
                 ++ fst (details_of env link_full (net env (requests s) link_full))
             /\ departamentos s'
                = departamentos s
                    ++ snd (details_of env link_full (net env (requests s) link_full))
        else detalles s' = detalles s /\ departamentos s' = departamentos s).
Proof.
  unfold enrich, ficha_events. destruct (truthy link_full).
  - unfold try_except, ficha_body, bind, session_get.
    destruct (net env (requests s) link_full) as [dresp|e]; simpl.
    + match goal with |- context [read_ficha env link_full dresp ?s1] =>
        destruct (read_ficha_spec link_full dresp s1)
          as (r & s2 & Hrun & Hfuel & HR & Hdet & Hdep)
      end.
      rewrite Hrun. destruct HR as (?&?&?&?&?&?&?). simpl in *.
      destruct r as [[]|e|]; [| |congruence];
        (eexists; split; [reflexivity|]);
        repeat split; try congruence; try lia.
    + eexists; split; [reflexivity|]. simpl. rewrite !app_nil_r.
      repeat split; lia.
  - exists s. simpl. rewrite app_nil_r. repeat split; lia.
Qed.

Lemma process_anuncio_spec a s :
  exists s' p,
    process_anuncio env a s = (Val tt, s')
    /\ properties s' = properties s ++ [p]
    /\ base_of_property p = base_of_anuncio env a
    /\ (p_comodidades p, p_departamentos p)
       = (if truthy (link_full_of env a)
          then details_of env (link_full_of env a)
                 (net env (requests s) (link_full_of env a))
          else ([], []))
    /\ page s' = page s
    /\ seen_page_html_hash s' = seen_page_html_hash s
    /\ count_items s' = S (count_items s) /\ files s' = files s
    /\ log s' = log s ++ ficha_events env (link_full_of env a) (requests s)
    /\ requests s'
       = (requests s + List.length (ficha_events env (link_full_of env a) (requests s)))%nat.
Proof.
  unfold process_anuncio, bind, modify.
  destruct (enrich_spec (link_full_of env a)
              (set_departamentos [] (set_detalles [] s)))
    as (s1 & Hrun & Hpage & Hprops & Hseen & Hcount & Hfiles & Hlog & Hreq & Hdet).
  rewrite Hrun. simpl in *.
  eexists; eexists; split; [reflexivity|]. simpl.
  rewrite Hprops.
  repeat split; try assumption; try congruence.
  simpl. destruct (truthy (link_full_of env a)); destruct Hdet as [-> ->];
    [symmetry; apply surjective_pairing | reflexivity].
Qed.

Lemma cards_spec anuncios : forall s,
  exists s' ps,
    for_each anuncios (process_anuncio env) s = (Val tt, s')
    /\ properties s' = properties s ++ ps
    /\ map base_of_property ps = map (base_of_anuncio env) anuncios
    /\ page s' = page s
    /\ seen_page_html_hash s' = seen_page_html_hash s
    /\ count_items s' = (count_items s + List.length anuncios)%nat
    /\ files s' = files s
    /\ log s' = log s ++ cards_events env anuncios (requests s)
    /\ requests s'
       = (requests s + List.length (cards_events env anuncios (requests s)))%nat.
Proof.
  induction anuncios as [|a l IH]; intros s; simpl.
  - exists s, []. rewrite !app_nil_r. repeat split; lia.
  - unfold bind.
    destruct (process_anuncio_spec a s)
      as (s1 & p & Hrun & Hprops & Hbase & _ & Hpage & Hseen & Hcount & Hfiles & Hlog & Hreq).
    rewrite Hrun.
    destruct (IH s1)
      as (s2 & ps & Hrun2 & Hprops2 & Hbase2 & Hpage2 & Hseen2 & Hcount2 & Hfiles2 & Hlog2 & Hreq2).
    rewrite Hrun2. exists s2, (p :: ps).
    split; [reflexivity|].
    rewrite Hprops2, Hprops, Hlog2, Hlog, Hreq2, Hreq, Hcount2, Hcount.
    rewrite <- !app_assoc, length_app. simpl.
    repeat split; try congruence; try lia.
Qed.

Lemma cards_events_fichas anuncios : forall k,
  Forall is_ficha (cards_events env anuncios k).
Proof.
  induction anuncios as [|a l IH]; intros k; simpl; [constructor|].
  apply Forall_app. split; [|apply IH].
  unfold ficha_events. destruct (truthy _); repeat constructor.
Qed.

End AssetplanCard.

(* ===================================================================== *)
(** * The assetplan scraper: one turn of the loop *)
(* ===================================================================== *)

Section AssetplanTurn.
Import Py Assetplan.
Variable env : Env.
Variable base_url : string.

Lemma page_iteration_bad_url s e :
  page_url env base_url (page s) = Raised e ->
  page_iteration env base_url s = (Exn e, s).
Proof.
  intros Hurl. unfold page_iteration, bind, gets. simpl. now rewrite Hurl.
Qed.

(** What a turn does, case by case, once its page URL is built. *)
Lemma page_iteration_spec s u :
  page_url env base_url (page s) = Returned u ->
  match net env (requests s) u with
  | Raised e =>
      page_iteration env base_url s
      = (Val (Break (NetworkError e)), after_listing env u s)
  | Returned resp =>
      if negb (status_code resp =? 200) then
        page_iteration env base_url s
        = (Val (Break (BadStatus (status_code resp))), after_listing env u s)
      else if bool_decide (hash env (hashed_prefix (text resp))
                             ∈ seen_page_html_hash s) then
        page_iteration env base_url s
        = (Val (Break RepeatedContent), after_listing env u s)
      else
        let seen' := {[hash env (hashed_prefix (text resp))]}
                       ∪ seen_page_html_hash s in
        match select_anuncios env (text resp) with
        | [] =>
            page_iteration env base_url s
            = (Val (Break NoAnuncios), set_seen seen' (after_listing env u s))
        | anuncios =>
            exists s' ps,
              page_iteration env base_url s = (Val Continue, s')
              /\ properties s' = properties s ++ ps
              /\ map base_of_property ps = map (base_of_anuncio env) anuncios
              /\ page s' = S (page s)
              /\ seen_page_html_hash s' = seen'
              /\ files s' = files s
              /\ log s' = log s
                   ++ EvListing (page s) u (Returned resp)
                      :: cards_events env anuncios (S (requests s))
                   ++ [EvSleep (4 # 5)]
              /\ requests s'
                 = S (requests s
                      + List.length (cards_events env anuncios (S (requests s))))
        end
  end.
Proof.
  intros Hurl.
  unfold page_iteration, after_listing, bind, gets, try_except, session_get.
  simpl. rewrite Hurl. simpl.
  destruct (net env (requests s) u) as [resp|e]; simpl; [|reflexivity].
  destruct (status_code resp =? 200); simpl; [|reflexivity].
  destruct (bool_decide _); simpl; [reflexivity|].
  destruct (select_anuncios env (text resp)) as [|a l] eqn:Hsel; [reflexivity|].
  match goal with |- context [for_each (a :: l) (process_anuncio env) ?s0] =>
    destruct (cards_spec env (a :: l) s0)
      as (s1 & ps & Hrun & Hprops & Hbase & Hpage & Hseen & Hcount & Hfiles & Hlog & Hreq)
  end.
  rewrite Hrun. simpl in Hcount. rewrite Hcount. simpl.
  eexists; exists ps; split; [reflexivity|]. simpl in *.
  rewrite Hlog, <- !app_assoc. simpl.
  repeat split; try assumption; try congruence; try lia.
Qed.

End AssetplanTurn.

(* ===================================================================== *)
(** * The assetplan scraper: the output files *)
(* ===================================================================== *)

Section AssetplanWrite.
Import Py Assetplan.
Variable env : Env.

Lemma write_file_ok path content s :
  open_error env path = None ->
  write_file env path content s
  = (Val tt, emit_event (EvWrite path) (set_file path content s)).
Proof. intros H. unfold write_file. now rewrite H. Qed.

Lemma write_results_spec output_path s :
  let json := replace ".txt" ".json" output_path in
  let jsonl := replace ".txt" ".jsonl" output_path in
  open_error env json = None ->
  exists s',
    write_results env output_path s = (Val tt, s')
    /\ properties s' = properties s
    /\ files s'
       = (if jsonl_written env output_path
          then <[jsonl := JsonLines (properties s)]>
                 (<[json := JsonArray (properties s)]> (files s))
          else <[json := JsonArray (properties s)]> (files s))
    /\ log s'
       = log s ++ makedirs_events env output_path ++ EvWrite json
           :: (if jsonl_written env output_path then [EvWrite jsonl] else []).
Proof.
  intros json jsonl Hopen.
  unfold write_results, makedirs_events, jsonl_written.
  fold json jsonl. rewrite bind_run.
  destruct (truthy (dirname env output_path)); simpl;
    rewrite bind_run; simpl; rewrite bind_run, write_file_ok by exact Hopen;
    unfold try_except; rewrite bind_run; simpl; unfold write_file;
    destruct (open_error env jsonl); simpl;
    (eexists; split; [reflexivity|]); simpl;
    rewrite <- ?app_assoc; simpl; repeat split; reflexivity.
Qed.

End AssetplanWrite.

(* ===================================================================== *)
(** * Failures: listing pages and detail pages *)
(* ===================================================================== *)

Section AssetplanFailures.
Import Py Assetplan.








End AssetplanFailures.

(* ===================================================================== *)
(** * The assetplan scraper: the walk *)
(* ===================================================================== *)

Section AssetplanWalk.
Import Py Assetplan.
Variable env : Env.
Variable base_url : string.




(** A turn that goes on: what held before, and what it did. *)
Lemma page_iteration_continue_inv s s' :
  page_iteration env base_url s = (Val Continue, s') ->
  exists u resp ps,
    page_url env base_url (page s) = Returned u
    /\ net env (requests s) u = Returned resp
    /\ status_code resp = 200
    /\ (hash env (hashed_prefix (text resp)) ∉ seen_page_html_hash s)
    /\ select_anuncios env (text resp) <> []
    /\ properties s' = properties s ++ ps
    /\ map base_of_property ps
       = map (base_of_anuncio env) (select_anuncios env (text resp))
    /\ page s' = S (page s)
    /\ seen_page_html_hash s'
       = {[hash env (hashed_prefix (text resp))]} ∪ seen_page_html_hash s
    /\ files s' = files s
    /\ log s' = log s
         ++ EvListing (page s) u (Returned resp)
            :: cards_events env (select_anuncios env (text resp)) (S (requests s))
         ++ [EvSleep (4 # 5)].
Proof.
  intros Hrun.
  destruct (page_url env base_url (page s)) as [u|e] eqn:Hurl.
  2:{ rewrite (page_iteration_bad_url _ _ _ _ Hurl) in Hrun. discriminate. }
  pose proof (page_iteration_spec env base_url s u Hurl) as Hspec.
  destruct (net env (requests s) u) as [resp|e] eqn:Hnet; [|congruence].
  destruct (Z.eqb_spec (status_code resp) 200) as [Hst|Hst]; simpl in Hspec;
    [|congruence].
  destruct (bool_decide_reflect
              (hash env (hashed_prefix (text resp)) ∈ seen_page_html_hash s))
    as [Hin|Hin]; [congruence|].
  destruct (select_anuncios env (text resp)) as [|a l] eqn:Hsel; [congruence|].
  destruct Hspec as (s1 & ps & Hrun1 & Hprops & Hbase & Hpage & Hseen & Hfiles & Hlog & _).
  rewrite Hrun in Hrun1. injection Hrun1 as <-.
  exists u, resp, ps. rewrite Hsel. repeat split; try assumption. discriminate.
Qed.



(** ** Repeated pages *)

(** In a run, the hash of every listing page in the log is in the set. *)
Lemma reachable_seen s :
  reachable env base_url s ->
  forall p u resp,
    In (EvListing p u (Returned resp)) (log s) ->
    hash env (hashed_prefix (text resp)) ∈ seen_page_html_hash s.
Proof.
  induction 1 as [|s s' Hreach IH Hturn]; intros p u resp Hin.
  - contradiction.
  - destruct (page_iteration_continue_inv s s' Hturn)
      as (u0 & resp0 & ps & _ & _ & _ & _ & _ & _ & _ & _ & Hseen & _ & Hlog).
    rewrite Hseen. rewrite Hlog in Hin.
    apply in_app_or in Hin. destruct Hin as [Hin|[Hin|Hin]].
    + apply elem_of_union_r. eapply IH. exact Hin.
    + injection Hin as _ _ <-. apply elem_of_union_l, elem_of_singleton. reflexivity.
    + apply in_app_or in Hin. destruct Hin as [Hin|[Hin|[]]]; [|discriminate].
      pose proof (cards_events_fichas env (select_anuncios env (text resp0))
                    (S (requests s))) as Hall.
      rewrite Forall_forall in Hall. apply list_elem_of_In, Hall in Hin.
      contradiction.
Qed.

(** ** Termination *)


Lemma walk_unfold fuel s :
  walk env base_url (S fuel) s
  = match page_iteration env base_url s with
    | (Val (Break site), s') => (Val site, s')
    | (Val Continue, s') => walk env base_url fuel s'
    | (Exn e, s') => (Exn e, s')
    | (OutOfFuel, s') => (OutOfFuel, s')
    end.
Proof.
  simpl. rewrite bind_run.
  destruct (page_iteration env base_url s) as [[[|site]|e|] s']; reflexivity.
Qed.

Section Pigeonhole.

(** The argument only needs a finite set that holds every hash. *)
Variable range : gset Z.
Hypothesis hash_bounded : forall x, hash env x ∈ range.


End Pigeonhole.


End AssetplanWalk.

(* ===================================================================== *)
(** * The walk: repeated pages, termination, order *)
(* ===================================================================== *)

Section AssetplanClaims.
Import Py Assetplan.

(** C3. In a run, when the page just fetched has the same first 10000
    characters as a listing page fetched before, the walk ends right after
    that request: the turn only adds the request to the log, no record is
    added, and no further request is made.  For a page answered 200 the
    loop leaves through the repeated-content [break]. *)
Theorem repeated_page_ends_walk env base_url s u resp :
  reachable env base_url s ->
  page_url env base_url (page s) = Returned u ->
  net env (requests s) u = Returned resp ->
  (exists p u' resp',
      In (EvListing p u' (Returned resp')) (log s)
      /\ hashed_prefix (text resp') = hashed_prefix (text resp)) ->
  forall fuel,
    exists site s',
      walk env base_url (S fuel) s = (Val site, s')
      /\ (status_code resp = 200 -> site = RepeatedContent)
      /\ properties s' = properties s
      /\ log s' = log s ++ [EvListing (page s) u (Returned resp)]
      /\ requests s' = S (requests s).
Proof.
  intros Hreach Hurl Hnet (p & u' & resp' & Hin & Hsame) fuel.
  pose proof (reachable_seen env base_url s Hreach p u' resp' Hin) as Hseen.
  rewrite Hsame in Hseen.
  pose proof (page_iteration_spec env base_url s u Hurl) as Hspec.
  rewrite Hnet in Hspec.
  assert (Hafter : properties (after_listing env u s) = properties s
                   /\ log (after_listing env u s)
                      = log s ++ [EvListing (page s) u (Returned resp)]
                   /\ requests (after_listing env u s) = S (requests s)).
  { unfold after_listing. simpl. rewrite Hnet. auto. }
  simpl. rewrite bind_run.
  destruct (Z.eqb_spec (status_code resp) 200) as [Hst|Hst]; simpl in Hspec.
  - rewrite bool_decide_eq_true_2 in Hspec by exact Hseen.
    rewrite Hspec. exists RepeatedContent, (after_listing env u s).
    split; [reflexivity|]. split; [reflexivity|]. exact Hafter.
  - rewrite Hspec. exists (BadStatus (status_code resp)), (after_listing env u s).
    split; [reflexivity|]. split; [contradiction|]. exact Hafter.
Qed.

Lemma repeated_page_ends_walk_witness :
  exists s1 site s',
    page_iteration Examples.looping (base_url_of Examples.listing_url) init
    = (Val Continue, s1)
    /\ walk Examples.looping (base_url_of Examples.listing_url) 1 s1
       = (Val site, s')
    /\ site = RepeatedContent
    /\ properties s' = properties s1.
Proof.
  eexists.
  assert (Hturn : page_iteration Examples.looping
                    (base_url_of Examples.listing_url) init
                  = (Val Continue, ?[s1])) by (vm_compute; reflexivity).
  destruct (repeated_page_ends_walk Examples.looping
              (base_url_of Examples.listing_url) _
              "https://www.assetplan.cl/arriendo/departamento?page=2&servicioPro=1"
              {| status_code := 200; text := "<listado 1>" |}
              (reach_turn _ _ _ _ (reach_init _ _) Hturn)
              eq_refl eq_refl) with (fuel := 0%nat)
    as (site & s' & Hwalk & Hsite & Hprops & _).
  - exists 1%nat, "https://www.assetplan.cl/arriendo/departamento?page=1&servicioPro=1",
      {| status_code := 200; text := "<listado 1>" |}.
    split; [left; reflexivity|reflexivity].
  - exists site, s'. split; [exact Hturn|]. split; [exact Hwalk|].
    split; [apply Hsite; reflexivity|exact Hprops].
Defined.






End AssetplanClaims.

(* ===================================================================== *)
(** * The bluehome scraper: loads and pauses *)
(* ===================================================================== *)

Section BluehomeFacts.
Import Py Bluehome.
Variable env : Env.
Variables lo hi : Q.
Hypothesis lo_le_hi : (lo <= hi)%Q.

Lemma chunks_app l1 l2 : chunks lo hi l1 -> chunks lo hi l2 -> chunks lo hi (l1 ++ l2).
Proof. induction 1; simpl; [auto|]. intros. constructor; auto. Qed.

Lemma paced_chunks_app l rest :
  chunks lo hi l -> paced lo hi rest -> paced lo hi (l ++ rest).
Proof. induction 1 as [|u d l Hd _ IH]; simpl; auto. Qed.

(** [random.uniform(lo, hi)] stays within its bounds. *)
Lemma uniform_bounds bits :
  (lo <= lo + (hi - lo) * (bits mod 2 ^ 53 # 2 ^ 53)
   /\ lo + (hi - lo) * (bits mod 2 ^ 53 # 2 ^ 53) <= hi)%Q.
Proof.
  set (u := Qmake (bits mod 2 ^ 53) (2 ^ 53)).
  assert (Hu : (0 <= u /\ u <= 1)%Q).
  { pose proof (Z.mod_pos_bound bits (2 ^ 53) eq_refl) as Hb.
    unfold u, Qle. simpl. change (Z.pos (2 ^ 53)) with (2 ^ 53)%Z. lia. }
  destruct Hu as [Hu0 Hu1]. split; nra.
Qed.

Lemma detail_loop_log : forall depts idx s,
  exists r s' l,
    detail_loop env (lo, hi) idx depts s = (r, s')
    /\ log s' = log s ++ l
    /\ edificios s' = edificios s
    /\ match r with
       | Val _ => chunks lo hi l
       | Exn _ => exists l0 u, chunks lo hi l0 /\ l = l0 ++ [EvLoadDetail u]
       | OutOfFuel => False
       end.
Proof.
  induction depts as [|dept rest IH]; intros idx s; simpl.
  - exists (Val []), s, []. rewrite app_nil_r.
    repeat split. constructor.
  - rewrite bind_run. destruct (truthy (link dept)); simpl.
    + rewrite bind_run. unfold driver_get.
      destruct (navigate env (navigations s) (link dept)) as [src|e]; simpl.
      * rewrite !bind_run.
        pose proof (uniform_bounds (random_bits env (draws s))) as Hd.
        match goal with |- context [detail_loop env (lo, hi) (S idx) rest ?s0] =>
          destruct (IH (S idx) s0) as (r & s' & l & Hloop & Hlog & Hed & Hr) end.
        rewrite Hloop. simpl in Hlog, Hed.
        destruct r as [ds|e|]; [| |contradiction].
        -- eexists; eexists; eexists (EvLoadDetail (link dept) :: EvSleep _ :: l).
           split; [reflexivity|]. rewrite Hlog, <- !app_assoc.
           split; [reflexivity|]. split; [exact Hed|]. constructor; assumption.
        -- destruct Hr as (l0 & u & Hl0 & ->).
           eexists; eexists; eexists (EvLoadDetail (link dept) :: EvSleep _ :: l0 ++ [EvLoadDetail u]).
           split; [reflexivity|]. rewrite Hlog, <- !app_assoc.
           split; [reflexivity|]. split; [exact Hed|].
           eexists (EvLoadDetail (link dept) :: EvSleep _ :: l0), u.
           split; [constructor; eassumption|reflexivity].
      * eexists; eexists; exists [EvLoadDetail (link dept)].
        split; [reflexivity|]. simpl. split; [reflexivity|].
        split; [reflexivity|]. exists [], (link dept). split; [constructor|reflexivity].
    + destruct (IH (S idx) s) as (r & s' & l & Hloop & Hlog & Hed & Hr).
      rewrite bind_run, Hloop.
      destruct r as [ds|e|]; [| |contradiction];
        eexists; eexists; exists l; (split; [reflexivity|]); auto.
Qed.

Lemma process_container_log c s :
  exists r s' l,
    process_container env (lo, hi) c s = (r, s')
    /\ log s' = log s ++ l
    /\ match r with
       | Val _ => chunks lo hi l
       | Exn _ => exists l0 u, chunks lo hi l0 /\ l = l0 ++ [EvLoadDetail u]
       | OutOfFuel => False
       end.
Proof.
  unfold process_container. rewrite bind_run. simpl. rewrite bind_run.
  destruct (detail_loop_log (c_departamentos c) 0 (set_comodidades [] s))
    as (r & s' & l & Hloop & Hlog & _ & Hr).
  rewrite Hloop. simpl in Hlog.
  destruct r as [ds|e|]; [| |contradiction].
  - rewrite bind_run. simpl. eexists; eexists; exists l.
    split; [reflexivity|]. split; [exact Hlog|exact Hr].
  - eexists; eexists; exists l. split; [reflexivity|]. split; [exact Hlog|exact Hr].
Qed.

Lemma containers_log cs : forall s,
  exists r s' l,
    for_each cs (process_container env (lo, hi)) s = (r, s')
    /\ log s' = log s ++ l
    /\ match r with
       | Val _ => chunks lo hi l
       | Exn _ => exists l0 u, chunks lo hi l0 /\ l = l0 ++ [EvLoadDetail u]
       | OutOfFuel => False
       end.
Proof.
  induction cs as [|c cs IH]; intros s; simpl.
  - exists (Val tt), s, []. rewrite app_nil_r. repeat split. constructor.
  - rewrite bind_run.
    destruct (process_container_log c s) as (r & s1 & l & Hrun & Hlog & Hr).
    rewrite Hrun. destruct r as [[]|e|]; [| |contradiction].
    + destruct (IH s1) as (r2 & s2 & l2 & Hrun2 & Hlog2 & Hr2).
      rewrite Hrun2. exists r2, s2, (l ++ l2).
      split; [reflexivity|]. rewrite Hlog2, Hlog, <- app_assoc.
      split; [reflexivity|].
      destruct r2 as [[]|e|]; [| |contradiction].
      * apply chunks_app; assumption.
      * destruct Hr2 as (l0 & u & Hl0 & ->). exists (l ++ l0), u.
        split; [apply chunks_app; assumption|apply app_assoc].
    + exists (Exn e), s1, l. auto.
Qed.

Lemma scrape_bluehome_paced url output_path :
  paced lo hi (log (snd (scrape_bluehome env url output_path (lo, hi) init))).
Proof.
  unfold scrape_bluehome, try_finally. rewrite bind_run. unfold driver_get.
  destruct (navigate env (navigations init) url) as [src|e]; simpl; [|auto].
  rewrite bind_run. destruct (listing_wait env) as [[]|e]; simpl; [|auto].
  rewrite bind_run.
  match goal with |- context [for_each _ _ ?s0] =>
    destruct (containers_log (select_containers env src) s0)
      as (r & s' & l & Hrun & Hlog & Hr) end.
  rewrite Hrun. simpl in Hlog.
  destruct r as [[]|e|]; [| |contradiction]; simpl; rewrite Hlog.
  - rewrite <- !app_assoc. simpl. apply paced_chunks_app; simpl; auto.
  - destruct Hr as (l0 & u & Hl0 & ->). simpl. rewrite <- !app_assoc. simpl.
    apply paced_chunks_app; simpl; auto.
Qed.

End BluehomeFacts.

Section Pauses.
Import Py.

(** C9, as the code has it.  In a bluehome run every load of a detail
    page is directly followed by a pause drawn uniformly between the two
    bounds of [detail_delay] (or by the end of the run when the load
    raised), so two detail loads are always separated by such a pause.  In
    an assetplan run the only pause is the fixed 0.8 s that follows the
    last card of a page before the next listing page: a turn logs its
    listing request, then the detail requests of its cards with nothing
    in between, then that pause. *)
Theorem pauses_between_detail_fetches :
  (forall env url output_path lo hi,
      (lo <= hi)%Q ->
      Bluehome.paced lo hi
        (Bluehome.log
           (snd (Bluehome.scrape_bluehome env url output_path (lo, hi)
                   Bluehome.init))))
  /\ (forall env base_url s s',
        Assetplan.page_iteration env base_url s = (Val Assetplan.Continue, s') ->
        exists u resp,
          Assetplan.log s'
          = Assetplan.log s
              ++ Assetplan.EvListing (Assetplan.page s) u (Returned resp)
                 :: Assetplan.cards_events env
                      (Assetplan.select_anuncios env (text resp))
                      (S (Assetplan.requests s))
              ++ [Assetplan.EvSleep (4 # 5)]
          /\ Forall Assetplan.is_ficha
               (Assetplan.cards_events env
                  (Assetplan.select_anuncios env (text resp))
                  (S (Assetplan.requests s)))).
Proof.
  split.
  - intros env url output_path lo hi Hle. now apply scrape_bluehome_paced.
  - intros env base_url s s' Hturn.
    destruct (page_iteration_continue_inv env base_url s s' Hturn)
      as (u & resp & ps & _ & _ & _ & _ & _ & _ & _ & _ & _ & _ & Hlog).
    exists u, resp. split; [exact Hlog|apply cards_events_fichas].
Qed.

Lemma pauses_between_detail_fetches_witness :
  Bluehome.paced (3 # 5) (7 # 5)
    (Bluehome.log
       (snd (Bluehome.scrape_bluehome Examples.bluehome_site
               "https://bluehome.cl/departamento" "data/raw/bluehome.json"
               Bluehome.detail_delay_default Bluehome.init))).
Proof.
  apply (proj1 pauses_between_detail_fetches). unfold Qle. simpl. lia.
Defined.

(** C9, as the claim states it, fails on the assetplan scraper: on a
    listing page with two cards, the two detail requests follow each
    other in the log with no pause in between. *)
Lemma assetplan_details_without_pause :
  Assetplan.adjacent_fichas
    (Assetplan.log
       (snd (Assetplan.walk Examples.two_pages
               (Assetplan.base_url_of Examples.listing_url) 5 Assetplan.init)))
  = true.
Proof. vm_compute. reflexivity. Qed.

End Pauses.

(* ===================================================================== *)
(** * The output paths *)
(* ===================================================================== *)

Section Paths.
Import Py.

Lemma length_append s1 s2 :
  String.length (s1 +:+ s2) = (String.length s1 + String.length s2)%nat.
Proof. induction s1 as [|c s1 IH]; simpl; [reflexivity|now rewrite IH]. Qed.





End Paths.

(* ===================================================================== *)
(** * The two output files and the page URLs *)
(* ===================================================================== *)

Section AssetplanOutput.
Import Py Assetplan.





Lemma append_cons c s t : String c s +:+ t = String c (s +:+ t).
Proof. reflexivity. Qed.

Lemma append_nil_r s : s +:+ EmptyString = s.
Proof.
  induction s as [|c s IH]; [reflexivity|]. now rewrite append_cons, IH.
Qed.

(** Text without braces goes through [format] unchanged. *)
Lemma fmt_text args num rest : forall s,
  brace_free s = true ->
  fmt args Text num (s +:+ rest) = emit s (fmt args Text num rest).
Proof.
  induction s as [|c s IH].
  - intros _. change (EmptyString +:+ rest) with rest.
    destruct (fmt args Text num rest) as [[x|e]|]; reflexivity.
  - simpl. rewrite !andb_true_iff, !negb_true_iff. intros [[Ho Hc] Hs].
    rewrite Ho, Hc, (IH Hs).
    destruct (fmt args Text num rest) as [[x|e]|]; reflexivity.
Qed.

(** The second branch of the construction, for every start URL without
    braces: a URL that does not contain [page=] gets [page=N] appended,
    after [&] when it contains a [?] and after [?] otherwise. *)
Lemma page_url_appended env url n :
  contains "page=" url = false ->
  brace_free url = true ->
  page_url env (base_url_of url) n
  = Returned (url +:+ (if contains "?" url then "&page=" else "?page=")
                  +:+ str_of_nat n).
Proof.
  intros Hpage Hfree. unfold page_url, base_url_of, format.
  rewrite Hpage, (fmt_text _ _ _ _ Hfree).
  destruct (contains "?" url).
  - change (fmt [str_of_nat n] Text Unset "&page={}")
      with (Some (Returned ("&page=" +:+ str_of_nat n +:+ EmptyString))).
    simpl. now rewrite append_nil_r.
  - change (fmt [str_of_nat n] Text Unset "?page={}")
      with (Some (Returned ("?page=" +:+ str_of_nat n +:+ EmptyString))).
    simpl. now rewrite append_nil_r.
Qed.

Lemma brace_free_app s1 : forall s2,
  brace_free (s1 +:+ s2) = (brace_free s1 && brace_free s2)%bool.
Proof.
  induction s1 as [|c s1 IH]; intros s2; [reflexivity|].
  rewrite append_cons. simpl. rewrite IH, !andb_assoc. reflexivity.
Qed.

Lemma sub_page_scan c s :
  sub_page Scan (String c s)
  = if page_digits_here (String c s)
    then "page={}" +:+ sub_page (InMatch 4) s
    else String c (sub_page Scan s).
Proof. reflexivity. Qed.

Lemma count_page_scan c s :
  count_page Scan (String c s)
  = if page_digits_here (String c s)
    then S (count_page (InMatch 4) s)
    else count_page Scan s.
Proof. reflexivity. Qed.

Lemma sub_page_in_digits c s :
  sub_page (InMatch 0) (String c s)
  = if is_digit c then sub_page (InMatch 0) s else sub_page Scan (String c s).
Proof. reflexivity. Qed.

Lemma count_page_in_digits c s :
  count_page (InMatch 0) (String c s)
  = if is_digit c then count_page (InMatch 0) s else count_page Scan (String c s).
Proof. reflexivity. Qed.

(** A match starts with the five characters of [page=] and a digit. *)
Lemma page_digits_here_inv s :
  page_digits_here s = true ->
  exists d rest, s = "page=" +:+ String d rest /\ is_digit d = true.
Proof.
  destruct s as [|[[] [] [] [] [] [] [] []] s]; try discriminate.
  destruct s as [|[[] [] [] [] [] [] [] []] s]; try discriminate.
  destruct s as [|[[] [] [] [] [] [] [] []] s]; try discriminate.
  destruct s as [|[[] [] [] [] [] [] [] []] s]; try discriminate.
  destruct s as [|[[] [] [] [] [] [] [] []] s]; try discriminate.
  destruct s as [|d s]; try discriminate.
  intros Hd. exists d, s. split; [reflexivity|exact Hd].
Qed.

(** Without a match, the substitution changes nothing. *)
Lemma sub_page_no_match : forall s,
  count_page Scan s = 0%nat -> sub_page Scan s = s.
Proof.
  induction s as [|c s IH]; [reflexivity|].
  rewrite count_page_scan, sub_page_scan.
  destruct (page_digits_here (String c s)); [discriminate|].
  intros Hc. now rewrite IH.
Qed.

(** Inside the digits of a match: the rest of the digits is dropped and
    the scan resumes after them. *)
Lemma sub_page_digits : forall s,
  exists ds post,
    s = ds +:+ post /\ all_digits ds = true
    /\ sub_page (InMatch 0) s = sub_page Scan post
    /\ count_page (InMatch 0) s = count_page Scan post.
Proof.
  induction s as [|c s IH].
  - exists EmptyString, EmptyString. repeat split; reflexivity.
  - rewrite sub_page_in_digits, count_page_in_digits.
    destruct (is_digit c) eqn:Hd.
    + destruct IH as (ds & post & -> & Hds & Hsub & Hcount).
      exists (String c ds), post. simpl all_digits. rewrite Hd. auto.
    + exists EmptyString, (String c s). auto.
Qed.

(** A single match: the digits of that match are replaced by the slot
    and the rest of the URL is unchanged. *)
Lemma sub_page_single : forall s,
  count_page Scan s = 1%nat ->
  exists pre ds post,
    s = pre +:+ "page=" +:+ ds +:+ post
    /\ ds <> EmptyString /\ all_digits ds = true
    /\ sub_page Scan s = pre +:+ "page={}" +:+ post.
Proof.
  induction s as [|c s IH]; [discriminate|].
  rewrite count_page_scan, sub_page_scan.
  destruct (page_digits_here (String c s)) eqn:Hhere.
  - destruct (page_digits_here_inv _ Hhere) as (d & rest & Hs & Hd).
    injection Hs as -> ->.
    change (count_page (InMatch 4) _) with (count_page (InMatch 0) (String d rest)).
    change (sub_page (InMatch 4) _) with (sub_page (InMatch 0) (String d rest)).
    rewrite sub_page_in_digits, count_page_in_digits, Hd.
    destruct (sub_page_digits rest) as (ds & post & -> & Hds & Hsub & Hcount).
    rewrite Hsub, Hcount. intros Hc. injection Hc as Hc.
    rewrite (sub_page_no_match _ Hc).
    exists EmptyString, (String d ds), post.
    split; [reflexivity|]. split; [discriminate|].
    split; [simpl; now rewrite Hd, Hds|reflexivity].
  - intros Hc. destruct (IH Hc) as (pre & ds & post & -> & Hne & Hds & Hsub).
    exists (String c pre), ds, post. rewrite Hsub. auto.
Qed.

Lemma count_page_contains : forall s,
  (0 < count_page Scan s)%nat -> contains "page=" s = true.
Proof.
  induction s as [|c s IH]; [simpl; lia|].
  rewrite count_page_scan.
  destruct (page_digits_here (String c s)) eqn:Hhere.
  - intros _. destruct (page_digits_here_inv _ Hhere) as (d & rest & -> & _).
    reflexivity.
  - intros Hc. apply IH in Hc. simpl in *. rewrite Hc. apply orb_true_r.
Qed.

(** The first branch of the construction, for a start URL without braces
    in which [page=] followed by digits occurs once: the digits are
    replaced by the page number and the rest of the URL is unchanged. *)
Lemma page_url_replaced env url n :
  brace_free url = true ->
  count_page Scan url = 1%nat ->
  exists pre ds post,
    url = pre +:+ "page=" +:+ ds +:+ post
    /\ ds <> EmptyString /\ all_digits ds = true
    /\ page_url env (base_url_of url) n
       = Returned (pre +:+ "page=" +:+ str_of_nat n +:+ post).
Proof.
  intros Hfree Hone.
  destruct (sub_page_single url Hone) as (pre & ds & post & Hurl & Hne & Hds & Hsub).
  exists pre, ds, post. split; [exact Hurl|]. split; [exact Hne|]. split; [exact Hds|].
  unfold page_url, base_url_of, format.
  rewrite (count_page_contains url) by lia.
  unfold re_sub_page. rewrite Hsub.
  rewrite Hurl, !brace_free_app, !andb_true_iff in Hfree.
  destruct Hfree as (Hpre & _ & _ & Hpost).
  rewrite (fmt_text _ _ _ _ Hpre).
  change ("page={}" +:+ post) with ("page=" +:+ "{}" +:+ post).
  rewrite (fmt_text _ _ _ "page=" eq_refl).
  change (fmt [str_of_nat n] Text Unset ("{}" +:+ post))
    with (emit (str_of_nat n) (fmt [str_of_nat n] Text (Auto 1) post)).
  rewrite <- (append_nil_r post) at 1.
  rewrite (fmt_text _ _ _ _ Hpost). simpl. now rewrite append_nil_r.
Qed.

(** C5.  The start URL of the repository, asked for page 5, gives the
    same URL with [page=5]; a start URL without [page=] gets the
    parameter appended.  But the construction does not hold for every
    start URL: with another parameter whose name ends in [page] the
    template receives two slots for one argument and building any page
    URL raises [IndexError]; with only such a parameter, its value is
    replaced and no [page] parameter is appended; with a brace in the URL
    the template is rejected. *)
Theorem page_url_examples env n :
  page_url env (base_url_of Examples.listing_url) 5
  = Returned "https://www.assetplan.cl/arriendo/departamento?page=5&servicioPro=1"
  /\ page_url env (base_url_of "https://www.assetplan.cl/arriendo/departamento") 5
     = Returned "https://www.assetplan.cl/arriendo/departamento?page=5"
  /\ page_url env (base_url_of "https://www.assetplan.cl/arriendo?servicioPro=1") 5
     = Returned "https://www.assetplan.cl/arriendo?servicioPro=1&page=5"
  /\ base_url_of "https://www.assetplan.cl/arriendo?perpage=20&page=3"
     = "https://www.assetplan.cl/arriendo?perpage={}&page={}"
  /\ page_url env (base_url_of "https://www.assetplan.cl/arriendo?perpage=20&page=3") n
     = Raised IndexError
  /\ page_url env (base_url_of "https://www.assetplan.cl/arriendo?homepage=1") 5
     = Returned "https://www.assetplan.cl/arriendo?homepage=5"
  /\ page_url env (base_url_of "https://www.assetplan.cl/arriendo?q={a}&page=3") n
     = Raised (KeyError "a").
Proof. repeat split; reflexivity. Qed.

End AssetplanOutput.

(* ===================================================================== *)
(** * Decimal digits *)
(* ===================================================================== *)

Section Digits.
Import Py.

Lemma string_of_uint_digits d : all_digits (NilEmpty.string_of_uint d) = true.
Proof. induction d; simpl; auto. Qed.

Lemma nat_of_digits_uint d : forall acc,
  nat_of_digits acc (NilEmpty.string_of_uint d) = Nat.of_uint_acc d acc.
Proof.
  induction d; intros acc; simpl NilEmpty.string_of_uint; simpl Nat.of_uint_acc;
    try reflexivity;
    cbn [nat_of_digits]; rewrite IHd; f_equal;
    rewrite Nat.tail_mul_spec; vm_compute (nat_of_ascii _ - 48)%nat; lia.
Qed.

Lemma str_of_nat_digits n : all_digits (str_of_nat n) = true.
Proof. apply string_of_uint_digits. Qed.

Lemma nat_of_str_of_nat n : nat_of_digits 0 (str_of_nat n) = n.
Proof.
  unfold str_of_nat. rewrite nat_of_digits_uint.
  apply DecimalNat.Unsigned.of_to.
Qed.

Lemma str_of_nat_inj n m : str_of_nat n = str_of_nat m -> n = m.
Proof.
  intros H. rewrite <- (nat_of_str_of_nat n), <- (nat_of_str_of_nat m).
  now rewrite H.
Qed.

Lemma str_of_nat_nonempty n : truthy (str_of_nat n) = true.
Proof.
  unfold str_of_nat.
  assert (H : Nat.to_uint n <> Decimal.Nil).
  { rewrite <- (DecimalNat.Unsigned.of_to n) at 1.
    rewrite DecimalNat.Unsigned.to_of.
    apply DecimalFacts.unorm_nonnil. }
  destruct (Nat.to_uint n); try reflexivity. now elim H.
Qed.

End Digits.

(* ===================================================================== *)
(** * Runs of characters and the matcher *)
(* ===================================================================== *)

Section Engine.
Import Py Re.

Lemma all_digits_chars s : all_digits s = all_chars is_digit s.
Proof. induction s; simpl; congruence. Qed.

Lemma all_chars_app p s1 : forall s2,
  all_chars p (s1 +:+ s2) = (all_chars p s1 && all_chars p s2)%bool.
Proof.
  induction s1 as [|c s1 IH]; intros s2; [reflexivity|].
  rewrite append_cons. simpl. rewrite IH. now rewrite andb_assoc.
Qed.

Lemma all_chars_impl (p q : ascii -> bool) s :
  (forall c, p c = true -> q c = true) ->
  all_chars p s = true -> all_chars q s = true.
Proof.
  intros Hpq. induction s as [|c s IH]; simpl; [reflexivity|].
  rewrite !andb_true_iff. intros [Hc Hs]. auto.
Qed.

Lemma append_assoc s1 : forall s2 s3, (s1 +:+ s2) +:+ s3 = s1 +:+ (s2 +:+ s3).
Proof.
  induction s1 as [|c s1 IH]; intros s2 s3; [reflexivity|].
  rewrite !append_cons. now rewrite IH.
Qed.

(** [span] splits the string; the run satisfies the class and what follows
    does not start in it. *)
Lemma span_spec p s :
  fst (span p s) +:+ snd (span p s) = s
  /\ all_chars p (fst (span p s)) = true
  /\ head_is p (snd (span p s)) = false.
Proof.
  induction s as [|c s IH]; simpl; [auto|].
  destruct (p c) eqn:Hc.
  - destruct (span p s) as [run rest]. simpl in *.
    destruct IH as (H1 & H2 & H3). rewrite append_cons, H1, Hc, H2. auto.
  - simpl. rewrite Hc. auto.
Qed.

(** The run of a string built from a run and a rest that stops it. *)
Lemma span_app p run : forall rest,
  all_chars p run = true -> head_is p rest = false ->
  span p (run +:+ rest) = (run, rest).
Proof.
  induction run as [|c run IH]; intros rest Hrun Hrest.
  - change (EmptyString +:+ rest) with rest.
    destruct rest as [|d rest]; [reflexivity|].
    simpl in *. now rewrite Hrest.
  - rewrite append_cons. simpl in *.
    apply andb_true_iff in Hrun. destruct Hrun as [Hc Hrun].
    rewrite Hc, (IH rest Hrun Hrest). reflexivity.
Qed.

Lemma str_take_app s1 : forall s2,
  str_take (String.length s1) (s1 +:+ s2) = s1.
Proof.
  induction s1 as [|c s1 IH]; intros s2; simpl.
  - reflexivity.
  - rewrite ?append_cons. simpl. now rewrite IH.
Qed.

Lemma consumed_app run rest : consumed (run +:+ rest) rest = run.
Proof.
  unfold consumed. rewrite length_append.
  replace (String.length run + String.length rest - String.length rest)%nat
    with (String.length run) by lia.
  apply str_take_app.
Qed.

Lemma consumed_span p s : consumed s (snd (span p s)) = fst (span p s).
Proof.
  destruct (span_spec p s) as (H & _ & _).
  rewrite <- H at 1. apply consumed_app.
Qed.

Lemma head_is_truthy p s : head_is p s = true -> truthy s = true.
Proof. destruct s; simpl; congruence. Qed.

Lemma span_head p s :
  head_is p s = true -> truthy (fst (span p s)) = true.
Proof.
  destruct s as [|c s]; simpl; [discriminate|].
  intros ->. now destruct (span p s).
Qed.

Lemma span_no_head p s : head_is p s = false -> span p s = (EmptyString, s).
Proof.
  destruct s as [|c s]; simpl; [reflexivity|]. now intros ->.
Qed.

(** ** [class+] *)

Lemma plus_no_head {A} p s (k : string -> option A) :
  head_is p s = false -> plus p s k = None.
Proof. destruct s as [|c s]; simpl; [reflexivity|]. now intros ->. Qed.

(** Greedy: when the continuation accepts what follows the longest run,
    that is the match. *)
Lemma plus_longest {A} p (k : string -> option A) a : forall s,
  head_is p s = true ->
  k (snd (span p s)) = Some a ->
  plus p s k = Some a.
Proof.
  induction s as [|c s IH]; simpl; [discriminate|].
  intros Hc. rewrite Hc.
  destruct (head_is p s) eqn:Hs.
  - destruct (span p s) as [run rest] eqn:E. simpl. intros Hk.
    rewrite IH; auto.
  - rewrite (span_no_head p s Hs). simpl. intros Hk.
    now rewrite (plus_no_head p s k Hs).
Qed.

(** A match of [class+] consumed a non-empty run of the class. *)
Lemma plus_inv {A} p (k : string -> option A) a : forall s,
  plus p s k = Some a ->
  exists run rest,
    s = run +:+ rest /\ truthy run = true /\ all_chars p run = true
    /\ k rest = Some a.
Proof.
  induction s as [|c s IH]; simpl; [discriminate|].
  destruct (p c) eqn:Hc; [|discriminate].
  destruct (plus p s k) as [a'|] eqn:E.
  - intros [= ->]. destruct (IH eq_refl) as (run & rest & -> & _ & Hrun & Hk).
    exists (String c run), rest. simpl. rewrite Hc, Hrun. auto.
  - intros Hk. exists (String c EmptyString), s. simpl. rewrite Hc. auto.
Qed.

(** ** The first run of digits *)

Lemma search_int_digit s :
  head_is is_digit s = true ->
  search false INT_RE s = Some (fst (span is_digit s)).
Proof.
  intros H. destruct s as [|c s]; [discriminate|].
  cbn [search INT_RE match_at].
  rewrite (plus_longest is_digit _ (consumed (String c s) (snd (span is_digit (String c s)))));
    auto.
  now rewrite consumed_span.
Qed.

Lemma search_int_skip pre : forall s,
  all_chars not_digit pre = true ->
  search false INT_RE (pre +:+ s) = search false INT_RE s.
Proof.
  induction pre as [|c pre IH]; intros s Hpre; [reflexivity|].
  rewrite append_cons. simpl in Hpre. apply andb_true_iff in Hpre.
  destruct Hpre as [Hc Hpre]. unfold not_digit in Hc.
  apply negb_true_iff in Hc.
  cbn [search INT_RE match_at plus]. rewrite Hc.
  now apply IH.
Qed.

Lemma search_int_none s :
  all_chars not_digit s = true -> search false INT_RE s = None.
Proof.
  intros H. rewrite <- (append_nil_r s). rewrite search_int_skip; auto.
Qed.

(** ** A number with an optional fraction *)

Lemma search_num_skip pre : forall s,
  all_chars not_digit pre = true ->
  search false NUM_RE (pre +:+ s) = search false NUM_RE s.
Proof.
  induction pre as [|c pre IH]; intros s Hpre; [reflexivity|].
  rewrite append_cons. simpl in Hpre. apply andb_true_iff in Hpre.
  destruct Hpre as [Hc Hpre]. unfold not_digit in Hc.
  apply negb_true_iff in Hc.
  cbn [search NUM_RE match_at plus]. rewrite Hc.
  now apply IH.
Qed.

Lemma search_num_none s :
  all_chars not_digit s = true -> search false NUM_RE s = None.
Proof.
  intros H. rewrite <- (append_nil_r s). rewrite search_num_skip; auto.
Qed.

End Engine.

Section EngineNumbers.
Import Py Re.

Lemma search_unfold ic r s :
  search ic r s
  = match match_at ic r s EmptyString (fun _ cap => Some cap) with
    | Some g => Some g
    | None =>
        match s with
        | EmptyString => None
        | String _ s' => search ic r s'
        end
    end.
Proof. destruct s; reflexivity. Qed.

Lemma not_digit_head s : head_is not_digit s = false -> truthy s = true ->
  head_is is_digit s = true.
Proof.
  destruct s as [|c s]; simpl; [discriminate|].
  unfold not_digit. intros H _. now apply negb_false_iff in H.
Qed.

(** [INT_RE.search]: the first run of digits. *)
Lemma search_int_spec s :
  search false INT_RE s
  = let t := snd (span not_digit s) in
    if head_is is_digit t then Some (fst (span is_digit t)) else None.
Proof.
  destruct (span_spec not_digit s) as (Hs & Hpre & Hstop).
  rewrite <- Hs at 1. rewrite search_int_skip by exact Hpre.
  cbv zeta. destruct (head_is is_digit (snd (span not_digit s))) eqn:Hd.
  - now apply search_int_digit.
  - apply search_int_none.
    destruct (snd (span not_digit s)) as [|c t]; [reflexivity|].
    simpl in *. unfold not_digit in Hstop. rewrite Hd in Hstop. discriminate.
Qed.

Lemma match_num_digit s :
  head_is is_digit s = true ->
  match_at false NUM_RE s EmptyString (fun _ cap => Some cap)
  = Some (number_at is_dot_or_comma s).
Proof.
  intros Hd. cbn [NUM_RE match_at].
  apply plus_longest; [exact Hd|].
  unfold number_at.
  destruct (span_spec is_digit s) as (Hs & Hrun & Hstop).
  destruct (span is_digit s) as [whole rest]. simpl in Hs, Hrun, Hstop. simpl snd.
  destruct rest as [|c rest']; [|destruct (is_dot_or_comma c) eqn:Hc; simpl;
    [destruct (head_is is_digit rest') eqn:Hd'; simpl|]].
  - rewrite <- Hs at 1. now rewrite consumed_app.
  - erewrite plus_longest; [reflexivity|exact Hd'|].
    destruct (span_spec is_digit rest') as (Hs' & _ & _).
    f_equal. rewrite <- Hs at 1. rewrite <- Hs' at 1.
    change (String c (fst (span is_digit rest') +:+ snd (span is_digit rest')))
      with (String c (fst (span is_digit rest')) +:+ snd (span is_digit rest')).
    rewrite <- append_assoc. apply consumed_app.
  - rewrite (plus_no_head _ _ _ Hd'). rewrite <- Hs at 1. now rewrite consumed_app.
  - rewrite <- Hs at 1. now rewrite consumed_app.
Qed.

(** [NUM_RE.search]: the number at the first digit. *)
Lemma search_num_spec s :
  search false NUM_RE s
  = let t := snd (span not_digit s) in
    if head_is is_digit t then Some (number_at is_dot_or_comma t) else None.
Proof.
  destruct (span_spec not_digit s) as (Hs & Hpre & Hstop).
  rewrite <- Hs at 1. rewrite search_num_skip by exact Hpre.
  cbv zeta. destruct (head_is is_digit (snd (span not_digit s))) eqn:Hd.
  - rewrite search_unfold. now rewrite match_num_digit.
  - apply search_num_none.
    destruct (snd (span not_digit s)) as [|c t]; [reflexivity|].
    simpl in *. unfold not_digit in Hstop. rewrite Hd in Hstop. discriminate.
Qed.

Lemma number_at_truthy p s :
  head_is is_digit s = true -> truthy (number_at p s) = true.
Proof.
  intros Hd. unfold number_at.
  pose proof (span_head is_digit s Hd) as Hw.
  destruct (span is_digit s) as [whole rest]. simpl in Hw.
  destruct whole as [|w whole]; [discriminate|].
  destruct rest as [|c rest']; [reflexivity|].
  destruct (p c && head_is is_digit rest')%bool; reflexivity.
Qed.

Lemma digit_not_digit c : is_digit c = true -> not_digit c = false.
Proof. unfold not_digit. now intros ->. Qed.

Lemma head_digit_app run rest :
  truthy run = true -> all_chars is_digit run = true ->
  head_is is_digit (run +:+ rest) = true.
Proof.
  destruct run as [|c run]; [discriminate|]. simpl.
  intros _ H. apply andb_true_iff in H. tauto.
Qed.

Lemma head_not_digit_app run rest :
  truthy run = true -> all_chars is_digit run = true ->
  head_is not_digit (run +:+ rest) = false.
Proof.
  destruct run as [|c run]; [discriminate|]. simpl.
  intros _ H. apply andb_true_iff in H. destruct H as [H _].
  now apply digit_not_digit.
Qed.

(** The first run of digits of a text written as: no digit, the run,
    something that does not start with a digit. *)
Lemma search_int_run pre run post :
  all_chars not_digit pre = true ->
  truthy run = true -> all_chars is_digit run = true ->
  head_is is_digit post = false ->
  search false INT_RE (pre +:+ run +:+ post) = Some run.
Proof.
  intros Hpre Ht Hrun Hpost.
  rewrite search_int_skip by exact Hpre.
  rewrite search_int_digit by now apply head_digit_app.
  now rewrite span_app.
Qed.

Lemma number_at_integer p whole post :
  all_chars is_digit whole = true ->
  head_is is_digit post = false -> no_fraction p post = true ->
  number_at p (whole +:+ post) = whole.
Proof.
  intros Hw Hpost Hnf. unfold number_at. rewrite span_app by assumption.
  destruct post as [|c rest']; [reflexivity|].
  simpl in Hnf. apply negb_true_iff in Hnf. now rewrite Hnf.
Qed.

Lemma number_at_decimal p whole sep frac post :
  all_chars is_digit whole = true -> p sep = true -> is_digit sep = false ->
  truthy frac = true -> all_chars is_digit frac = true ->
  head_is is_digit post = false ->
  number_at p (whole +:+ String sep (frac +:+ post))
  = whole +:+ String sep frac.
Proof.
  intros Hw Hsep Hnd Ht Hfrac Hpost. unfold number_at.
  rewrite span_app by assumption.
  rewrite Hsep, (head_digit_app frac post Ht Hfrac). simpl.
  now rewrite span_app.
Qed.

End EngineNumbers.

(* ===================================================================== *)
(** * Integers and their decimal strings *)
(* ===================================================================== *)

Section Integers.
Import Py Re SommaFields.

Lemma digit_char c :
  is_digit c = true ->
  is_c_space c = false /\ is_space c = false
  /\ Ascii.eqb c "-" = false /\ Ascii.eqb c "+" = false
  /\ Ascii.eqb c "_" = false.
Proof.
  destruct c as [[] [] [] [] [] [] [] []]; vm_compute; intros H;
    try discriminate H; repeat split.
Qed.

Lemma rstrip_c_digits s : all_digits s = true -> rstrip_c s = s.
Proof.
  induction s as [|c s IH]; simpl; [reflexivity|].
  rewrite andb_true_iff. intros [Hc Hs]. rewrite (IH Hs).
  destruct s; [|reflexivity].
  destruct (digit_char c Hc) as (-> & _). reflexivity.
Qed.

Lemma digit_groups_digits s : forall b,
  all_digits s = true -> (truthy s = true \/ b = true) ->
  digit_groups b s = Some s.
Proof.
  induction s as [|c s IH]; simpl; intros b Hall Hb.
  - destruct Hb as [Hb | ->]; [discriminate|reflexivity].
  - apply andb_true_iff in Hall. destruct Hall as [Hc Hs].
    rewrite Hc, (IH true Hs); auto.
Qed.

(** [int] on a non-empty string of digits: its value, unless the string
    is longer than the limit. *)
Lemma int_digits max ds :
  truthy ds = true -> all_digits ds = true ->
  int max ds
  = if within_limit max (String.length ds)
    then Returned (Z.of_nat (nat_of_digits 0 ds))
    else Raised (ValueError "Exceeds the limit for integer string conversion").
Proof.
  intros Ht Hall. unfold int.
  assert (Hspan : span is_c_space ds = (EmptyString, ds)).
  { apply span_no_head. destruct ds as [|c ds]; [discriminate|].
    simpl in *. apply andb_true_iff in Hall.
    now destruct (digit_char c (proj1 Hall)) as (-> & _). }
  rewrite Hspan. simpl snd. rewrite (rstrip_c_digits ds Hall).
  assert (Hsign : match ds with
                  | String "-" r => (true, r)
                  | String "+" r => (false, r)
                  | _ => (false, ds)
                  end = (false, ds)).
  { destruct ds as [|c ds]; [reflexivity|].
    simpl in Hall. apply andb_true_iff in Hall. destruct Hall as [Hc _].
    destruct c as [[] [] [] [] [] [] [] []]; try reflexivity;
      vm_compute in Hc; discriminate Hc. }
  rewrite Hsign. rewrite (digit_groups_digits ds false Hall (or_introl Ht)).
  reflexivity.
Qed.

Lemma int_str_of_nat max n :
  within_limit max (String.length (str_of_nat n)) = true ->
  int max (str_of_nat n) = Returned (Z.of_nat n).
Proof.
  intros Hlim.
  rewrite int_digits, Hlim, nat_of_str_of_nat;
    auto using str_of_nat_nonempty, str_of_nat_digits.
Qed.

Lemma str_of_nat_Z max n :
  str max (Z.of_nat n)
  = if within_limit max (String.length (str_of_nat n))
    then Returned (str_of_nat n)
    else Raised (ValueError "Exceeds the limit for integer string conversion").
Proof.
  unfold str. rewrite Zabs2Nat.id.
  destruct (Z.ltb_spec (Z.of_nat n) 0); [lia|reflexivity].
Qed.

Lemma within_limit_unlimited n : within_limit 0 n = true.
Proof. reflexivity. Qed.

Lemma safe_int_digits_nonneg max ds default :
  truthy ds = true -> all_digits ds = true -> 0 <= default ->
  0 <= _safe_int max ds default.
Proof.
  intros Ht Hall Hd. unfold _safe_int. rewrite int_digits by assumption.
  destruct (within_limit max (String.length ds)); lia.
Qed.

End Integers.

(* ===================================================================== *)
(** * The matcher against what a match is *)
(* ===================================================================== *)

Section Matching.
Import Py Re.

(** When the matcher answers, the pattern matched a prefix and the
    continuation accepted what follows. *)
Lemma match_at_sound {A} ic r : forall s cap (K : string -> string -> option A) g,
  match_at ic r s cap K = Some g ->
  exists rest cap', matches ic r s cap rest cap' /\ K rest cap' = Some g.
Proof.
  induction r as [|c|p|p|r IH|r1 IH1 r2 IH2|r IH]; intros s cap K g H;
    cbn [match_at] in H.
  - exists s, cap. split; [constructor|exact H].
  - destruct s as [|a s]; [discriminate|].
    destruct (if ic then Ascii.eqb (lower_char a) (lower_char c) else Ascii.eqb a c)
      eqn:E; [|discriminate].
    exists s, cap. split; [now constructor|exact H].
  - destruct s as [|a s]; [discriminate|].
    destruct (p a) eqn:E; [|discriminate].
    exists s, cap. split; [now constructor|exact H].
  - apply plus_inv in H. destruct H as (run & rest & -> & Ht & Hall & Hk).
    exists rest, cap. split; [now constructor|exact Hk].
  - destruct (match_at ic r s cap K) as [a|] eqn:E.
    + injection H as ->. apply IH in E. destruct E as (rest & cap' & Hm & Hk).
      exists rest, cap'. split; [now constructor|exact Hk].
    + exists s, cap. split; [apply matches_skip|exact H].
  - apply IH1 in H. destruct H as (mid & cap1 & Hm1 & H).
    apply IH2 in H. destruct H as (rest & cap2 & Hm2 & Hk).
    exists rest, cap2. split; [econstructor; eauto|exact Hk].
  - apply IH in H. destruct H as (rest & cap' & Hm & Hk).
    exists rest, (consumed s rest). split; [econstructor; eauto|exact Hk].
Qed.

(** A successful search found a match somewhere in the text. *)
Lemma search_sound ic r : forall s g,
  search ic r s = Some g ->
  exists pre t rest, s = pre +:+ t /\ matches ic r t EmptyString rest g.
Proof.
  induction s as [|c s IH]; intros g H; rewrite search_unfold in H.
  - destruct (match_at ic r EmptyString EmptyString (fun _ cap => Some cap))
      as [a|] eqn:E; [|discriminate].
    injection H as ->. apply match_at_sound in E.
    destruct E as (rest & cap' & Hm & [= ->]).
    exists EmptyString, EmptyString, rest. auto.
  - destruct (match_at ic r (String c s) EmptyString (fun _ cap => Some cap))
      as [a|] eqn:E.
    + injection H as ->. apply match_at_sound in E.
      destruct E as (rest & cap' & Hm & [= ->]).
      exists EmptyString, (String c s), rest. auto.
    + apply IH in H. destruct H as (pre & t & rest & -> & Hm).
      exists (String c pre), t, rest. rewrite append_cons. auto.
Qed.

Lemma matches_seq_inv ic r1 r2 s cap rest cap2 :
  matches ic (Seq r1 r2) s cap rest cap2 ->
  exists mid cap1,
    matches ic r1 s cap mid cap1 /\ matches ic r2 mid cap1 rest cap2.
Proof. inversion 1; subst; eauto. Qed.

Lemma matches_plus_inv ic p s cap rest cap' :
  matches ic (Plus p) s cap rest cap' ->
  cap' = cap /\ exists run,
    s = run +:+ rest /\ truthy run = true /\ all_chars p run = true.
Proof. inversion 1; subst; eauto. Qed.

Lemma matches_group_plus_inv ic p s cap rest cap' :
  matches ic (Group (Plus p)) s cap rest cap' ->
  s = cap' +:+ rest /\ truthy cap' = true /\ all_chars p cap' = true.
Proof.
  inversion 1; subst.
  match goal with H : matches _ (Plus _) _ _ _ _ |- _ =>
    apply matches_plus_inv in H; destruct H as (_ & run & -> & Ht & Hall) end.
  rewrite consumed_app. auto.
Qed.

(** A match leaves a suffix of the text. *)
Lemma matches_suffix ic r s cap rest cap' :
  matches ic r s cap rest cap' -> exists pre, s = pre +:+ rest.
Proof.
  induction 1.
  - now exists EmptyString.
  - now exists (String a EmptyString).
  - now exists (String a EmptyString).
  - now exists run.
  - assumption.
  - now exists EmptyString.
  - destruct IHmatches1 as (p1 & ->). destruct IHmatches2 as (p2 & ->).
    exists (p1 +:+ p2). now rewrite append_assoc.
  - assumption.
Qed.

(** A pattern without a group leaves the captured text as it was. *)
Lemma matches_group_free ic r s cap rest cap' :
  matches ic r s cap rest cap' -> group_free r = true -> cap' = cap.
Proof.
  induction 1; simpl; intros Hgf; try reflexivity; try discriminate; auto.
  apply andb_true_iff in Hgf. destruct Hgf as [H1 H2].
  rewrite (IHmatches2 H2). auto.
Qed.

Lemma lits_group_free w : group_free (lits w) = true.
Proof. induction w; simpl; auto. Qed.

Lemma lower_app s1 : forall s2, lower (s1 +:+ s2) = lower s1 +:+ lower s2.
Proof.
  induction s1 as [|c s1 IH]; intros s2; [reflexivity|].
  rewrite append_cons. simpl. rewrite IH. now rewrite append_cons.
Qed.

(** A literal word matches the text it spells, whatever the case when the
    case is ignored. *)
Lemma matches_lits_inv w : forall s cap rest cap',
  matches true (lits w) s cap rest cap' ->
  exists w', s = w' +:+ rest /\ lower w' = lower w.
Proof.
  induction w as [|c w IH]; intros s cap rest cap' H; cbn [lits] in H.
  - inversion H; subst. now exists EmptyString.
  - apply matches_seq_inv in H. destruct H as (mid & cap1 & H1 & H2).
    inversion H1; subst. apply IH in H2. destruct H2 as (w' & -> & Hw).
    exists (String a w'). rewrite append_cons. split; [reflexivity|].
    simpl. rewrite Hw. f_equal.
    match goal with H : Ascii.eqb _ _ = true |- _ => now apply Ascii.eqb_eq in H end.
Qed.

Lemma match_lits_ic {A} w : forall w' rest cap (K : string -> string -> option A),
  lower w' = lower w ->
  match_at true (lits w) (w' +:+ rest) cap K = K rest cap.
Proof.
  induction w as [|c w IH]; intros w' rest cap K H; destruct w' as [|a w'];
    simpl in H; try discriminate.
  - reflexivity.
  - injection H as Ha Hw. cbn [lits match_at]. rewrite append_cons.
    rewrite Ha, Ascii.eqb_refl. now apply IH.
Qed.

Lemma lower_split a : forall word b,
  lower word = a +:+ b ->
  exists wa wb, word = wa +:+ wb /\ lower wa = a /\ lower wb = b.
Proof.
  induction a as [|c a IH]; intros word b H.
  - now exists EmptyString, word.
  - rewrite append_cons in H. destruct word as [|x word]; [discriminate|].
    simpl in H. injection H as Hx Hw.
    destruct (IH word b Hw) as (wa & wb & -> & Ha & Hb).
    exists (String x wa), wb. rewrite append_cons. simpl. rewrite Hx, Ha. auto.
Qed.

(** ** [p in s] *)

Lemma startswith_app p : forall rest, startswith p (p +:+ rest) = true.
Proof.
  induction p as [|c p IH]; intros rest.
  - now destruct rest.
  - rewrite append_cons. simpl. rewrite Ascii.eqb_refl. apply IH.
Qed.

Lemma contains_here p s : startswith p s = true -> contains p s = true.
Proof. destruct s; simpl; intros ->; reflexivity. Qed.

Lemma contains_app_r p pre : forall s,
  contains p s = true -> contains p (pre +:+ s) = true.
Proof.
  induction pre as [|c pre IH]; intros s H; [exact H|].
  rewrite append_cons. simpl. rewrite (IH s H). apply orb_true_r.
Qed.

Lemma contains_mid p pre post : contains p (pre +:+ p +:+ post) = true.
Proof. apply contains_app_r, contains_here, startswith_app. Qed.

Lemma truthy_app_r a b : truthy b = true -> truthy (a +:+ b) = true.
Proof. destruct a; [auto|reflexivity]. Qed.

Lemma truthy_app_l a b : truthy a = true -> truthy (a +:+ b) = true.
Proof. destruct a; [discriminate|reflexivity]. Qed.

End Matching.

(* ===================================================================== *)
(** * The somma scraper: the fields of a card *)
(* ===================================================================== *)

Section SommaFieldFacts.
Import Py Re SommaFields.

Lemma space_char c :
  is_space c = true ->
  is_digit c = false /\ lower_char c = c.
Proof.
  destruct c as [[] [] [] [] [] [] [] []]; vm_compute; intros H;
    try discriminate H; split; reflexivity.
Qed.

Lemma head_space_not_digit ws rest :
  truthy ws = true -> all_chars is_space ws = true ->
  head_is is_digit (ws +:+ rest) = false.
Proof.
  destruct ws as [|c ws]; [discriminate|]. simpl. intros _ H.
  apply andb_true_iff in H. now destruct (space_char c (proj1 H)).
Qed.

Lemma head_space_app ws rest :
  truthy ws = true -> all_chars is_space ws = true ->
  head_is is_space (ws +:+ rest) = true.
Proof.
  destruct ws as [|c ws]; [discriminate|]. simpl. intros _ H.
  apply andb_true_iff in H. tauto.
Qed.

(** A word that starts, in lower case, with a letter is not whitespace. *)
Lemma head_word_not_space word c w rest :
  lower word = String c w -> is_space c = false ->
  head_is is_space (word +:+ rest) = false.
Proof.
  destruct word as [|a word]; [discriminate|]. simpl. intros [= Ha _] Hc.
  destruct (is_space a) eqn:Hs; [|reflexivity].
  destruct (space_char a Hs) as (_ & Hl). congruence.
Qed.

Lemma search_units_skip pre : forall s,
  all_chars not_digit pre = true ->
  search true UNITS_RE (pre +:+ s) = search true UNITS_RE s.
Proof.
  induction pre as [|c pre IH]; intros s Hpre; [reflexivity|].
  rewrite append_cons. simpl in Hpre. apply andb_true_iff in Hpre.
  destruct Hpre as [Hc Hpre]. unfold not_digit in Hc.
  apply negb_true_iff in Hc.
  cbn [search UNITS_RE match_at plus]. rewrite Hc.
  now apply IH.
Qed.

(** The tail of the pattern, after the word [Unidade]. *)
Lemma match_units_tail s_opt ws2 tail post cap :
  (s_opt = EmptyString \/ lower s_opt = "s") ->
  truthy ws2 = true -> all_chars is_space ws2 = true ->
  lower tail = "disponibles" ->
  match_at true
    (Seq (Opt (Lit "s")) (Seq (Plus is_space) (lits "disponibles")))
    (s_opt +:+ ws2 +:+ tail +:+ post) cap (fun _ cap' => Some cap')
  = Some cap.
Proof.
  intros Hs Ht Hws Htail.
  assert (Hspaces :
    plus is_space (ws2 +:+ tail +:+ post)
      (fun rest => match_at true (lits "disponibles") rest cap
                     (fun _ cap' => Some cap')) = Some cap).
  { apply plus_longest; [now apply head_space_app|].
    rewrite span_app; [|assumption|].
    - simpl snd. now rewrite match_lits_ic.
    - now apply (head_word_not_space tail "d" "isponibles"). }
  destruct Hs as [-> | Hs].
  - change (EmptyString +:+ ws2 +:+ tail +:+ post) with (ws2 +:+ tail +:+ post).
    cbn [match_at].
    destruct ws2 as [|c ws2]; [discriminate|]. rewrite append_cons.
    simpl in Hws. apply andb_true_iff in Hws. destruct Hws as [Hc Hws].
    destruct (space_char c Hc) as (_ & Hl). rewrite Hl.
    assert (Hns : Ascii.eqb c (lower_char "s") = false).
    { apply Ascii.eqb_neq. intros ->. vm_compute in Hc. discriminate. }
    rewrite Hns. rewrite <- append_cons. exact Hspaces.
  - destruct s_opt as [|a [|b s_opt]]; simpl in Hs; try discriminate.
    injection Hs as Ha. rewrite append_cons.
    change (EmptyString +:+ ws2 +:+ tail +:+ post) with (ws2 +:+ tail +:+ post).
    cbn [match_at]. rewrite Ha. change (lower_char "s") with "s"%char.
    rewrite Ascii.eqb_refl. now rewrite Hspaces.
Qed.

(** The pattern at a count followed by the phrase. *)
Lemma match_units_phrase run ws1 word ws2 tail post :
  truthy run = true -> all_chars is_digit run = true ->
  truthy ws1 = true -> all_chars is_space ws1 = true ->
  (lower word = "unidades" \/ lower word = "unidade") ->
  truthy ws2 = true -> all_chars is_space ws2 = true ->
  lower tail = "disponibles" ->
  match_at true UNITS_RE
    (run +:+ ws1 +:+ word +:+ ws2 +:+ tail +:+ post) EmptyString
    (fun _ cap => Some cap)
  = Some run.
Proof.
  intros Hrt Hrun Hw1t Hw1 Hword Hw2t Hw2 Htail.
  assert (Hsplit : exists w7 s_opt,
             word = w7 +:+ s_opt /\ lower w7 = "unidade"
             /\ (s_opt = EmptyString \/ lower s_opt = "s")).
  { destruct Hword as [H|H].
    - change "unidades" with ("unidade" +:+ "s") in H.
      apply lower_split in H. destruct H as (wa & wb & -> & Ha & Hb).
      exists wa, wb. auto.
    - exists word, EmptyString. rewrite append_nil_r. auto. }
  destruct Hsplit as (w7 & s_opt & -> & Hw7 & Hs).
  cbn [UNITS_RE match_at].
  apply plus_longest; [now apply head_digit_app|].
  rewrite span_app; [|assumption|now apply head_space_not_digit].
  simpl snd. rewrite consumed_app.
  apply plus_longest; [now apply head_space_app|].
  rewrite span_app; [|assumption|].
  - simpl snd. rewrite append_assoc.
    rewrite match_lits_ic by exact Hw7.
    now apply match_units_tail.
  - rewrite append_assoc.
    now apply (head_word_not_space w7 "u" "nidade").
Qed.

Lemma units_pattern_inv t rest g :
  matches true UNITS_RE t EmptyString rest g ->
  truthy g = true /\ all_chars is_digit g = true
  /\ exists mid tail, t = g +:+ mid +:+ tail +:+ rest
                      /\ lower tail = "disponibles".
Proof.
  unfold UNITS_RE. intros H.
  apply matches_seq_inv in H. destruct H as (m1 & cap1 & Hg & H).
  apply matches_group_plus_inv in Hg. destruct Hg as (-> & Hgt & Hgd).
  assert (Hcap : g = cap1).
  { eapply matches_group_free; [exact H|reflexivity]. }
  subst g.
  apply matches_seq_inv in H. destruct H as (m2 & c2 & H2 & H).
  apply matches_suffix in H2. destruct H2 as (p2 & ->).
  apply matches_seq_inv in H. destruct H as (m3 & c3 & H3 & H).
  apply matches_suffix in H3. destruct H3 as (p3 & ->).
  apply matches_seq_inv in H. destruct H as (m4 & c4 & H4 & H).
  apply matches_suffix in H4. destruct H4 as (p4 & ->).
  apply matches_seq_inv in H. destruct H as (m5 & c5 & H5 & H).
  apply matches_suffix in H5. destruct H5 as (p5 & ->).
  apply matches_lits_inv in H. destruct H as (tail & -> & Htail).
  repeat split; auto.
  exists (p2 +:+ p3 +:+ p4 +:+ p5), tail.
  rewrite !append_assoc. auto.
Qed.

(** A text the pattern matches holds the word [disponibles]. *)
Lemma search_units_inv text g :
  search true UNITS_RE text = Some g ->
  truthy g = true /\ all_chars is_digit g = true
  /\ contains "disponibles" (lower text) = true.
Proof.
  intros H. apply search_sound in H. destruct H as (pre & t & rest & -> & H).
  apply units_pattern_inv in H.
  destruct H as (Hg & Hd & mid & tail & -> & Htail).
  repeat split; auto.
  rewrite !lower_app, Htail.
  apply contains_app_r. apply contains_app_r. apply contains_app_r.
  apply contains_here, startswith_app.
Qed.

End SommaFieldFacts.

Section SommaFieldClaims.
Import Py Re SommaFields.

Lemma startswith_nil s : startswith EmptyString s = true.
Proof. now destruct s. Qed.

(** [replace(",", ".")] changes each comma and nothing else. *)
Lemma replace_comma s : replace "," "." s = map_chars comma_to_dot s.
Proof.
  unfold replace. induction s as [|c s IH]; [reflexivity|].
  cbn [replace_from startswith map_chars]. unfold comma_to_dot at 1.
  rewrite (Ascii.eqb_sym c ","). destruct (Ascii.eqb "," c).
  - rewrite ?startswith_nil. simpl String.length. simpl Nat.sub.
    rewrite IH. reflexivity.
  - now rewrite IH.
Qed.

Lemma map_chars_app f s1 : forall s2,
  map_chars f (s1 +:+ s2) = map_chars f s1 +:+ map_chars f s2.
Proof.
  induction s1 as [|c s1 IH]; intros s2; [reflexivity|].
  rewrite append_cons. simpl. now rewrite IH, append_cons.
Qed.

Lemma comma_to_dot_digit c : is_digit (comma_to_dot c) = is_digit c.
Proof.
  unfold comma_to_dot. destruct (Ascii.eqb_spec c ","); [subst|]; reflexivity.
Qed.

Lemma comma_to_dot_sep c :
  is_dot_or_comma (comma_to_dot c) = is_dot_or_comma c.
Proof.
  unfold comma_to_dot. destruct (Ascii.eqb_spec c ","); [subst|]; reflexivity.
Qed.

Lemma comma_to_dot_is_dot c : is_dot_or_comma c = true -> comma_to_dot c = "."%char.
Proof.
  unfold is_dot_or_comma, comma_to_dot. destruct (Ascii.eqb_spec c ","); [reflexivity|].
  rewrite orb_false_r. now intros H%Ascii.eqb_eq.
Qed.

Lemma map_comma_not_digit s :
  all_chars not_digit (map_chars comma_to_dot s) = all_chars not_digit s.
Proof.
  induction s as [|c s IH]; [reflexivity|]. simpl.
  unfold not_digit at 1 3. now rewrite comma_to_dot_digit, IH.
Qed.

Lemma map_comma_digits s :
  all_chars is_digit s = true -> map_chars comma_to_dot s = s.
Proof.
  induction s as [|c s IH]; [reflexivity|]. simpl.
  rewrite andb_true_iff. intros [Hc Hs]. rewrite (IH Hs). f_equal.
  unfold comma_to_dot. destruct (Ascii.eqb_spec c ","); [|reflexivity].
  subst. discriminate.
Qed.

Lemma map_comma_head s :
  head_is is_digit (map_chars comma_to_dot s) = head_is is_digit s.
Proof. destruct s; [reflexivity|]. simpl. apply comma_to_dot_digit. Qed.

Lemma map_comma_no_fraction s :
  no_fraction is_dot_or_comma (map_chars comma_to_dot s)
  = no_fraction is_dot_or_comma s.
Proof.
  destruct s as [|c s]; [reflexivity|]. simpl.
  now rewrite comma_to_dot_sep, map_comma_head.
Qed.

Lemma sep_not_digit c : is_dot_or_comma c = true -> is_digit c = false.
Proof.
  unfold is_dot_or_comma. rewrite orb_true_iff.
  intros [H|H]; apply Ascii.eqb_eq in H; subst; reflexivity.
Qed.

(** What [NUM_RE] finds in a text written as: no digit, digits, and
    something that is not the rest of the number. *)
Lemma search_num_integer pre whole post :
  all_chars not_digit pre = true ->
  truthy whole = true -> all_chars is_digit whole = true ->
  head_is is_digit post = false ->
  no_fraction is_dot_or_comma post = true ->
  search false NUM_RE (pre +:+ whole +:+ post) = Some whole.
Proof.
  intros Hpre Ht Hw Hpost Hnf. rewrite search_num_spec.
  rewrite span_app; [|assumption|now apply head_not_digit_app].
  cbv zeta. simpl snd. rewrite head_digit_app by assumption.
  now rewrite number_at_integer.
Qed.

Lemma search_num_decimal pre whole sep frac post :
  all_chars not_digit pre = true ->
  truthy whole = true -> all_chars is_digit whole = true ->
  is_dot_or_comma sep = true ->
  truthy frac = true -> all_chars is_digit frac = true ->
  head_is is_digit post = false ->
  search false NUM_RE (pre +:+ whole +:+ String sep (frac +:+ post))
  = Some (whole +:+ String sep frac).
Proof.
  intros Hpre Ht Hw Hsep Hft Hf Hpost. rewrite search_num_spec.
  rewrite span_app; [|assumption|now apply head_not_digit_app].
  cbv zeta. simpl snd. rewrite head_digit_app by assumption.
  rewrite number_at_decimal; auto using sep_not_digit.
Qed.

(** X1. The floor area of a card: a text without a digit gives the empty
    string; otherwise the first number of the text is kept, with its
    fraction when a dot or a comma and a digit follow the first run of
    digits, the comma written as a dot, and [" m2"] is appended. *)
Theorem extract_m2_shapes :
  (forall text,
      all_chars not_digit text = true -> _extract_m2 text = EmptyString)
  /\ (forall pre whole post,
        all_chars not_digit pre = true ->
        truthy whole = true -> all_chars is_digit whole = true ->
        head_is is_digit post = false ->
        no_fraction is_dot_or_comma post = true ->
        _extract_m2 (pre +:+ whole +:+ post) = whole +:+ " m2")
  /\ (forall pre whole sep frac post,
        all_chars not_digit pre = true ->
        truthy whole = true -> all_chars is_digit whole = true ->
        is_dot_or_comma sep = true ->
        truthy frac = true -> all_chars is_digit frac = true ->
        head_is is_digit post = false ->
        _extract_m2 (pre +:+ whole +:+ String sep (frac +:+ post))
        = whole +:+ "." +:+ frac +:+ " m2").
Proof.
  split; [|split].
  - intros text H. unfold _extract_m2. rewrite replace_comma.
    rewrite search_num_none; [reflexivity|]. now rewrite map_comma_not_digit.
  - intros pre whole post Hpre Ht Hw Hpost Hnf. unfold _extract_m2.
    rewrite replace_comma, !map_chars_app, (map_comma_digits whole Hw).
    rewrite search_num_integer; auto.
    + now rewrite map_comma_not_digit.
    + now rewrite map_comma_head.
    + now rewrite map_comma_no_fraction.
  - intros pre whole sep frac post Hpre Ht Hw Hsep Hft Hf Hpost.
    unfold _extract_m2.
    rewrite replace_comma, !map_chars_app, (map_comma_digits whole Hw).
    cbn [map_chars]. rewrite map_chars_app, (map_comma_digits frac Hf).
    rewrite (comma_to_dot_is_dot sep Hsep).
    rewrite search_num_decimal; auto.
    + now rewrite append_assoc.
    + now rewrite map_comma_not_digit.
    + now rewrite map_comma_head.
Qed.

Lemma extract_m2_shapes_witness :
  _extract_m2 "sin datos" = EmptyString
  /\ _extract_m2 "desde 47+ m2" = "47 m2"
  /\ _extract_m2 "Sup. 37,5 m2" = "37.5 m2".
Proof.
  destruct extract_m2_shapes as (Hnone & Hint & Hdec).
  split; [|split].
  - apply (Hnone "sin datos"). reflexivity.
  - apply (Hint "desde " "47" "+ m2"); reflexivity.
  - apply (Hdec "Sup. " "37" ","%char "5" " m2"); reflexivity.
Defined.

Lemma extract_units_nonneg max text : 0 <= _extract_units max text.
Proof.
  unfold _extract_units. destruct (truthy text); simpl; [|lia].
  destruct (search true UNITS_RE text) as [g|] eqn:E.
  - apply search_units_inv in E. destruct E as (Hg & Hd & _).
    apply safe_int_digits_nonneg; [assumption| |lia].
    now rewrite all_digits_chars.
  - destruct (contains "disponible" (lower text)); lia.
Qed.

(** X2. The count of a card is read from the phrase: for a text that has
    no digit before a decimal number [n], followed by whitespace, the
    word Unidades or Unidade in any case, whitespace and the word
    disponibles in any case, the count is [n], as long as [n] has no more
    digits than the interpreter converts. *)
Theorem extract_units_reads_count max pre n ws1 word ws2 tail post :
  all_chars not_digit pre = true ->
  within_limit max (String.length (str_of_nat n)) = true ->
  truthy ws1 = true -> all_chars is_space ws1 = true ->
  (lower word = "unidades" \/ lower word = "unidade") ->
  truthy ws2 = true -> all_chars is_space ws2 = true ->
  lower tail = "disponibles" ->
  _extract_units max
    (pre +:+ str_of_nat n +:+ ws1 +:+ word +:+ ws2 +:+ tail +:+ post)
  = Z.of_nat n.
Proof.
  intros Hpre Hlim Hw1t Hw1 Hword Hw2t Hw2 Htail.
  unfold _extract_units.
  rewrite truthy_app_r by (apply truthy_app_l, str_of_nat_nonempty).
  simpl negb. cbv iota.
  rewrite search_units_skip by exact Hpre.
  rewrite search_unfold.
  rewrite match_units_phrase; auto using str_of_nat_nonempty.
  - unfold _safe_int. now rewrite int_str_of_nat.
  - rewrite <- all_digits_chars. apply str_of_nat_digits.
Qed.

Lemma extract_units_reads_count_witness :
  _extract_units 4300 "Quedan 12 UNIDADES  disponibles hoy" = 12.
Proof.
  exact (extract_units_reads_count 4300 "Quedan " 12 " " "UNIDADES" "  "
           "disponibles" " hoy" eq_refl eq_refl eq_refl eq_refl
           (or_introl eq_refl) eq_refl eq_refl eq_refl).
Defined.

(** X3. Without the phrase the count is a guess that is never negative:
    the count of any text is at least 0, and a text that does not hold
    the word disponibles, in any case, counts for 1 when it holds the
    word disponible and for 0 otherwise; the empty text counts for 0. *)
Theorem extract_units_without_phrase max text :
  0 <= _extract_units max text
  /\ (contains "disponibles" (lower text) = false ->
      _extract_units max text
      = if contains "disponible" (lower text) then 1 else 0).
Proof.
  split; [apply extract_units_nonneg|].
  intros Hno. unfold _extract_units.
  destruct text as [|c text]; [reflexivity|].
  simpl truthy. simpl negb. cbv iota.
  destruct (search true UNITS_RE (String c text)) as [g|] eqn:E; [|reflexivity].
  apply search_units_inv in E. destruct E as (_ & _ & Hc). congruence.
Qed.

Lemma extract_units_without_phrase_witness :
  _extract_units 4300 "Disponible 26 de agosto de 2025" = 1
  /\ _extract_units 4300 "Agotado" = 0.
Proof.
  split.
  - apply (proj2 (extract_units_without_phrase 4300
                    "Disponible 26 de agosto de 2025")). reflexivity.
  - apply (proj2 (extract_units_without_phrase 4300 "Agotado")). reflexivity.
Defined.

End SommaFieldClaims.

(* ===================================================================== *)
(** * The somma scraper: the aggregate by bedrooms *)
(* ===================================================================== *)

Section SommaAggregate.
Import Py Re SommaFields.

Lemma add_units_keys d u agg :
  map fst (add_units d u agg)
  = if existsb (fun k => String.eqb k d) (map fst agg)
    then map fst agg else map fst agg ++ [d].
Proof.
  induction agg as [|[k v] agg IH]; simpl; [reflexivity|].
  destruct (String.eqb k d) eqn:E; simpl; [reflexivity|].
  rewrite IH. now destruct (existsb _ (map fst agg)).
Qed.

Lemma existsb_key d keys :
  existsb (fun k => String.eqb k d) keys = true <-> In d keys.
Proof.
  rewrite existsb_exists. split.
  - intros (k & Hk & E). apply String.eqb_eq in E. now subst.
  - intros H. exists d. split; [exact H|apply String.eqb_refl].
Qed.

Lemma add_units_in d u agg d' :
  In d' (map fst (add_units d u agg)) <-> In d' (map fst agg) \/ d' = d.
Proof.
  rewrite add_units_keys.
  destruct (existsb _ (map fst agg)) eqn:E.
  - apply existsb_key in E. split; [auto|]. intros [H| ->]; auto.
  - rewrite in_app_iff. simpl. intuition.
Qed.

Lemma add_units_nodup d u agg :
  NoDup (map fst agg) -> NoDup (map fst (add_units d u agg)).
Proof.
  intros H. rewrite add_units_keys.
  destruct (existsb _ (map fst agg)) eqn:E; [exact H|].
  apply NoDup_app; repeat split; auto.
  - intros x Hx Hd. apply list_elem_of_In in Hx, Hd.
    simpl in Hd. destruct Hd as [<-|[]].
    apply existsb_key in Hx. congruence.
  - apply NoDup_singleton.
Qed.

Lemma add_units_units d u agg d' :
  units_of d' (add_units d u agg)
  = units_of d' agg + (if String.eqb d d' then u else 0).
Proof.
  induction agg as [|[k v] agg IH]; simpl.
  - destruct (String.eqb d d'); lia.
  - destruct (String.eqb k d) eqn:E; simpl.
    + apply String.eqb_eq in E. subst k.
      destruct (String.eqb d d'); lia.
    + destruct (String.eqb k d') eqn:E'; [|exact IH].
      apply String.eqb_eq in E'. subst k. rewrite String.eqb_sym, E. lia.
Qed.

Lemma add_units_sum d u agg :
  fold_right Z.add 0 (map snd (add_units d u agg))
  = fold_right Z.add 0 (map snd agg) + u.
Proof.
  induction agg as [|[k v] agg IH]; simpl; [lia|].
  destruct (String.eqb k d); simpl; lia.
Qed.

Lemma total_for_cons d t tiles :
  total_for d (t :: tiles)
  = (if String.eqb (dormitorios t) d then unidades_disponibles t else 0)
    + total_for d tiles.
Proof.
  unfold total_for. simpl. destruct (String.eqb (dormitorios t) d); simpl; lia.
Qed.

(** The loop of lines 198-200 from any dictionary. *)
Lemma aggregate_from tiles : forall agg,
  let agg' := fold_left (fun agg t =>
                add_units (dormitorios t) (unidades_disponibles t) agg)
                tiles agg in
  (NoDup (map fst agg) -> NoDup (map fst agg'))
  /\ (forall d, In d (map fst agg')
                <-> In d (map fst agg) \/ In d (map dormitorios tiles))
  /\ (forall d, units_of d agg' = units_of d agg + total_for d tiles)
  /\ fold_right Z.add 0 (map snd agg')
     = fold_right Z.add 0 (map snd agg)
       + fold_right Z.add 0 (map unidades_disponibles tiles).
Proof.
  induction tiles as [|t tiles IH]; intros agg; simpl.
  - repeat split; auto; try tauto; try (intros; unfold total_for; simpl; lia); lia.
  - destruct (IH (add_units (dormitorios t) (unidades_disponibles t) agg))
      as (Hnd & Hin & Hu & Hs).
    split; [|split; [|split]].
    + intros H. apply Hnd. now apply add_units_nodup.
    + intros d. rewrite Hin, add_units_in. intuition.
    + intros d. rewrite Hu, add_units_units, total_for_cons. lia.
    + rewrite Hs, add_units_sum. lia.
Qed.

Lemma units_of_in d v agg :
  NoDup (map fst agg) -> In (d, v) agg -> units_of d agg = v.
Proof.
  induction agg as [|[k w] agg IH]; simpl; [tauto|].
  intros Hnd [H|H].
  - injection H as -> ->. now rewrite String.eqb_refl.
  - inversion Hnd as [|? ? Hk Hnd']; subst.
    destruct (String.eqb_spec k d) as [->|Hne].
    + exfalso. apply Hk. apply list_elem_of_In. apply in_map_iff.
      now exists (d, v).
    + now apply IH.
Qed.

(** X4. The aggregate holds each bedroom label of the tiles once, and no
    other; the units under a label are those of the tiles with that
    label, added up; so the units of the aggregate add up to those of the
    tiles. *)
Theorem aggregate_totals tiles :
  NoDup (map fst (aggregate tiles))
  /\ (forall d, In d (map fst (aggregate tiles))
                <-> In d (map dormitorios tiles))
  /\ (forall d v, In (d, v) (aggregate tiles) -> v = total_for d tiles)
  /\ fold_right Z.add 0 (map snd (aggregate tiles))
     = fold_right Z.add 0 (map unidades_disponibles tiles).
Proof.
  destruct (aggregate_from tiles []) as (Hnd & Hin & Hu & Hs).
  fold (aggregate tiles) in Hnd, Hin, Hu, Hs. simpl in *.
  assert (Hnd' : NoDup (map fst (aggregate tiles))) by (apply Hnd; constructor).
  split; [exact Hnd'|split; [|split]].
  - intros d. rewrite Hin. tauto.
  - intros d v H. rewrite <- (units_of_in d v _ Hnd' H). apply Hu.
  - exact Hs.
Qed.

Lemma aggregate_totals_witness :
  4 = total_for "2" (map (mk_tile 4300) Samples.somma_cards).
Proof.
  apply (proj1 (proj2 (proj2 (aggregate_totals
                                (map (mk_tile 4300) Samples.somma_cards))))).
  left. reflexivity.
Defined.

End SommaAggregate.

Section SommaSorted.
Import Py Re SommaFields.

(** ** The order of the keys *)

Lemma string_compare_trans a : forall b c,
  String.compare a b <> Gt -> String.compare b c <> Gt ->
  String.compare a c <> Gt.
Proof.
  induction a as [|x a IH]; intros [|y b] [|z c]; simpl; try congruence.
  unfold Ascii.compare.
  destruct (N.compare_spec (N_of_ascii x) (N_of_ascii y)),
           (N.compare_spec (N_of_ascii y) (N_of_ascii z)),
           (N.compare_spec (N_of_ascii x) (N_of_ascii z));
    try congruence; try lia; eauto.
Qed.

Lemma ltb_false_compare a b :
  String.ltb b a = false <-> String.compare a b <> Gt.
Proof.
  unfold String.ltb. rewrite (String.compare_antisym b a).
  destruct (String.compare a b); simpl; split; congruence.
Qed.

Lemma key_lt_false a b :
  key_lt b a = false
  <-> (fst a <= fst b
       /\ (fst a = fst b -> String.compare (snd a) (snd b) <> Gt)).
Proof.
  unfold key_lt. rewrite orb_false_iff, andb_false_iff.
  rewrite Z.ltb_ge, Z.eqb_neq, ltb_false_compare. split.
  - intros (H1 & H2). split; [exact H1|]. intros E.
    destruct H2 as [H2|H2]; [congruence|exact H2].
  - intros (H1 & H2). split; [exact H1|].
    destruct (Z.eq_dec (fst b) (fst a)) as [E|E]; auto.
Qed.

Lemma key_le_trans a b c :
  key_lt b a = false -> key_lt c b = false -> key_lt c a = false.
Proof.
  rewrite !key_lt_false. intros (H1 & H2) (H3 & H4). split; [lia|].
  intros E. apply (string_compare_trans _ (snd b)); [apply H2|apply H4]; lia.
Qed.

Lemma key_lt_asym a b : key_lt a b = true -> key_lt b a = false.
Proof.
  intros H. apply key_lt_false.
  unfold key_lt in H. apply orb_true_iff in H.
  destruct H as [H|H].
  - apply Z.ltb_lt in H. split; lia.
  - apply andb_true_iff in H. destruct H as [E H]. apply Z.eqb_eq in E.
    split; [lia|]. intros _. unfold String.ltb in H.
    destruct (String.compare (snd a) (snd b)); congruence.
Qed.

(** ** Insertion *)

Lemma insert_by_perm {A} k (x : A) l :
  Permutation (insert_by k x l) ((k, x) :: l).
Proof.
  induction l as [|[ky y] l IH]; simpl; [reflexivity|].
  destruct (key_lt ky k); [|reflexivity].
  rewrite IH. apply perm_swap.
Qed.

Lemma insert_by_sorted {A} k (x : A) l :
  Sorted.StronglySorted (fun a b => key_lt (fst b) (fst a) = false) l ->
  Sorted.StronglySorted (fun a b => key_lt (fst b) (fst a) = false)
    (insert_by k x l).
Proof.
  induction l as [|[ky y] l IH]; simpl; intros H.
  - repeat constructor.
  - inversion H as [|? ? Hl Hall]; subst.
    destruct (key_lt ky k) eqn:E.
    + constructor; [now apply IH|].
      eapply Permutation_Forall; [symmetry; apply insert_by_perm|].
      constructor; [|exact Hall]. simpl. now apply key_lt_asym.
    + constructor; [exact H|]. constructor; [exact E|].
      eapply List.Forall_impl; [|exact Hall]. simpl. intros z Hz.
      now apply (key_le_trans k ky (fst z)).
Qed.

Lemma insertion_sorted {A} (kl : list ((Z * string) * A)) :
  let l := fold_right (fun kx acc => insert_by (fst kx) (snd kx) acc) [] kl in
  Permutation l kl
  /\ Sorted.StronglySorted (fun a b => key_lt (fst b) (fst a) = false) l.
Proof.
  induction kl as [|[k x] kl (IHp & IHs)]; simpl.
  - split; constructor.
  - split.
    + rewrite insert_by_perm. now constructor.
    + now apply insert_by_sorted.
Qed.

(** ** [try_map] *)

Lemma try_map_inv {A B} (f : A -> Try B) l : forall ys,
  try_map f l = Returned ys -> Forall2 (fun x y => f x = Returned y) l ys.
Proof.
  induction l as [|x l IH]; simpl; intros ys H.
  - injection H as <-. constructor.
  - destruct (f x) as [y|e] eqn:E; [|discriminate].
    destruct (try_map f l) as [ys'|e]; [|discriminate].
    injection H as <-. constructor; auto.
Qed.




Lemma Forall2_combine {A B} (P : A -> B -> Prop) l ys :
  Forall2 P l ys ->
  Forall (fun kx => P (snd kx) (fst kx)) (combine ys l)
  /\ map snd (combine ys l) = l.
Proof.
  induction 1 as [|x y l ys Hxy H (IH1 & IH2)]; simpl.
  - split; constructor.
  - split; [constructor; auto|now rewrite IH2].
Qed.

Lemma sort_key_fst max d v : _sort_key max (d, v) = _sort_key max (d, 0).
Proof. reflexivity. Qed.

Lemma strongly_sorted_map {A B} (R : A -> A -> Prop) (R' : B -> B -> Prop)
    (P : A -> Prop) (f : A -> B) l :
  (forall a b, P a -> P b -> R a b -> R' (f a) (f b)) ->
  Forall P l -> Sorted.StronglySorted R l ->
  Sorted.StronglySorted R' (map f l).
Proof.
  intros HR HP HS. induction HS as [|a l HS IH Hall]; simpl; [constructor|].
  inversion HP as [|? ? Pa Pl]; subst.
  constructor; [auto|].
  apply List.Forall_map. rewrite List.Forall_forall in *.
  intros b Hb. apply HR; auto.
Qed.

(** [sorted]: the same items, in the order of their keys. *)
Lemma sorted_spec max items l :
  sorted max items = Returned l ->
  Permutation l items
  /\ Sorted.StronglySorted (fun a b => key_order max (fst a) (fst b)) l.
Proof.
  unfold sorted. destruct (try_map (_sort_key max) items) as [keys|e] eqn:E;
    [|discriminate].
  intros [= <-]. apply try_map_inv in E.
  apply Forall2_combine in E. destruct E as (Hkeys & Hitems).
  destruct (insertion_sorted (combine keys items)) as (Hp & Hs).
  cbv zeta in Hp, Hs.
  set (sl := fold_right _ _ _) in *.
  split.
  - etransitivity; [apply Permutation_map; exact Hp|].
    now rewrite Hitems.
  - apply (strongly_sorted_map
             (fun a b : (Z * string) * (string * Z) => key_lt (fst b) (fst a) = false)
             (fun a b => key_order max (fst a) (fst b))
             (fun kx => _sort_key max (snd kx) = Returned (fst kx)) snd sl);
      [| |exact Hs].
    + intros a b Ha Hb Hab. exists (fst a), (fst b).
      destruct a as [ka [da va]], b as [kb [db vb]]. simpl in *.
      split; [exact Ha|split; [exact Hb|exact Hab]].
    + eapply Permutation_Forall; [symmetry; exact Hp|exact Hkeys].
Qed.




Lemma mk_departamento_inv max item dep :
  mk_departamento max item = Returned dep ->
  d_dormitorios dep = fst item
  /\ str max (snd item) = Returned (d_unidades_disponibles dep)
  /\ d_banos dep = EmptyString /\ d_m2_utiles dep = EmptyString.
Proof.
  unfold mk_departamento. destruct (str max (snd item)) as [u|e]; [|discriminate].
  intros [= <-]. auto.
Qed.

Lemma Forall2_map_eq {A B C} (f : A -> C) (g : B -> C) (P : A -> B -> Prop) l ys :
  (forall x y, P x y -> g y = f x) -> Forall2 P l ys -> map g ys = map f l.
Proof.
  intros H. induction 1; simpl; [reflexivity|]. f_equal; auto.
Qed.

(** What [build_resultado] returned was built from the sorted aggregate. *)
Lemma build_resultado_inv max sel url html r :
  build_resultado max sel url html = Returned r ->
  fuente r = url
  /\ detalle_plantas r = map (mk_tile max) (sel html)
  /\ exists items,
       sorted max (aggregate (detalle_plantas r)) = Returned items
       /\ Forall2 (fun item dep => mk_departamento max item = Returned dep)
            items (departamentos r).
Proof.
  unfold build_resultado.
  destruct (sorted max _) as [items|e] eqn:Es; [|discriminate].
  destruct (try_map (mk_departamento max) items) as [deps|e] eqn:Ed;
    [|discriminate].
  intros [= <-]. simpl. repeat split.
  exists items. split; [exact Es|]. now apply try_map_inv.
Qed.

End SommaSorted.

Section SommaResultado.
Import Py Re SommaFields.

Lemma Forall2_in_r {A B} (P : A -> B -> Prop) l ys y :
  Forall2 P l ys -> In y ys -> exists x, In x l /\ P x y.
Proof.
  induction 1 as [|a b l ys Hab H IH]; simpl; [tauto|].
  intros [<-|Hy]; [eauto|].
  destruct (IH Hy) as (x & Hx & Hp). eauto.
Qed.

Lemma strongly_sorted_map_eq {A B C} (R : C -> C -> Prop)
    (f : A -> C) (g : B -> C) l : forall ys,
  map g ys = map f l ->
  Sorted.StronglySorted (fun a b => R (f a) (f b)) l ->
  Sorted.StronglySorted (fun a b => R (g a) (g b)) ys.
Proof.
  induction l as [|a l IH]; intros [|y ys] E H; simpl in E; try discriminate.
  - constructor.
  - injection E as Ey E. inversion H as [|? ? Hl Hall]; subst.
    constructor; [now apply IH|].
    rewrite List.Forall_forall in *. intros b Hb.
    assert (Hin : In (g b) (map f l)).
    { rewrite <- E. now apply in_map. }
    apply in_map_iff in Hin. destruct Hin as (a' & Ea & Ha').
    rewrite Ey, <- Ea. now apply Hall.
Qed.

Lemma departamentos_labels max items deps :
  Forall2 (fun item dep => mk_departamento max item = Returned dep) items deps ->
  map d_dormitorios deps = map fst items.
Proof.
  apply Forall2_map_eq. intros x y H. now apply mk_departamento_inv in H.
Qed.

(** X5. In a result, [departamentos] has one entry for each bedroom label
    of the plans and no other; the entry holds, written in decimal, the
    units of the plans with that label added up, and empty bathrooms and
    area.  The plans are the cards of the page, in order. *)
Theorem departamentos_one_per_label max select_cards url html r :
  build_resultado max select_cards url html = Returned r ->
  fuente r = url
  /\ detalle_plantas r = map (mk_tile max) (select_cards html)
  /\ NoDup (map d_dormitorios (departamentos r))
  /\ (forall d, In d (map d_dormitorios (departamentos r))
                <-> In d (map dormitorios (detalle_plantas r)))
  /\ (forall dep, In dep (departamentos r) ->
        str max (total_for (d_dormitorios dep) (detalle_plantas r))
        = Returned (d_unidades_disponibles dep)
        /\ d_banos dep = EmptyString /\ d_m2_utiles dep = EmptyString).
Proof.
  intros H. apply build_resultado_inv in H.
  destruct H as (Hf & Ht & items & Hs & Hd).
  apply sorted_spec in Hs. destruct Hs as (Hp & _).
  destruct (aggregate_from (detalle_plantas r) []) as (Hnd & Hin & Hu & _).
  fold (aggregate (detalle_plantas r)) in Hnd, Hin, Hu. simpl in Hnd, Hin, Hu.
  assert (Hnd' : NoDup (map fst (aggregate (detalle_plantas r))))
    by (apply Hnd; constructor).
  pose proof (departamentos_labels max items _ Hd) as Hl.
  split; [exact Hf|split; [exact Ht|split; [|split]]].
  - rewrite Hl, Hp. exact Hnd'.
  - intros d. rewrite Hl. split; intros Hd'.
    + apply (Permutation_in _ (Permutation_map fst Hp)) in Hd'.
      apply Hin in Hd'. destruct Hd' as [[]|Hd']. exact Hd'.
    + eapply Permutation_in; [apply Permutation_map; symmetry; exact Hp|].
      apply Hin. now right.
  - intros dep Hdep.
    destruct (Forall2_in_r _ _ _ _ Hd Hdep) as ([d v] & Hitem & Hmk).
    apply mk_departamento_inv in Hmk. simpl in Hmk.
    destruct Hmk as (-> & Hstr & Hb & Hm). repeat split; auto.
    rewrite <- Hstr. f_equal.
    assert (Hagg : In (d, v) (aggregate (detalle_plantas r)))
      by (eapply Permutation_in; [exact Hp|exact Hitem]).
    rewrite <- (units_of_in d v _ Hnd' Hagg). rewrite Hu. lia.
Qed.

Lemma departamentos_one_per_label_witness :
  NoDup (map d_dormitorios Samples.somma_departamentos)
  /\ str 4300 (total_for "2" (map (mk_tile 4300) Samples.somma_cards))
     = Returned "4".
Proof.
  destruct (departamentos_one_per_label 4300 Samples.select_cards
              Samples.somma_url "<html>" Samples.somma_resultado eq_refl)
    as (_ & _ & Hnd & _ & Hunits).
  split; [exact Hnd|].
  apply (Hunits {| d_dormitorios := "2"; d_unidades_disponibles := "4";
                   d_banos := EmptyString; d_m2_utiles := EmptyString |}).
  simpl. auto.
Defined.

Lemma sort_key_digits max d k :
  isdigit d = true -> _sort_key max (d, 0) = Returned k ->
  fst k = Z.of_nat (nat_of_digits 0 d).
Proof.
  unfold _sort_key. simpl fst. intros Hd. rewrite Hd.
  unfold isdigit in Hd. apply andb_true_iff in Hd. destruct Hd as [Ht Ha].
  rewrite int_digits by assumption.
  destruct (within_limit max _); [|discriminate]. now intros [= <-].
Qed.

Lemma sort_key_other max d k :
  isdigit d = false -> _sort_key max (d, 0) = Returned k -> fst k = 999.
Proof.
  unfold _sort_key. simpl fst. intros ->. now intros [= <-].
Qed.

(** X6. In a result, [departamentos] is in the order of the keys: every
    entry comes before the entries whose key is larger.  The key of a
    label made of digits is its value, and the key of any other label,
    the empty one included, is 999: labels made of digits are in
    ascending order of value, those below 999 come before the other
    labels and those above 999 after them. *)
Theorem departamentos_in_key_order max select_cards url html r :
  build_resultado max select_cards url html = Returned r ->
  Sorted.StronglySorted
    (fun a b => key_order max (d_dormitorios a) (d_dormitorios b))
    (departamentos r)
  /\ (forall a b, key_order max a b ->
        isdigit a = true -> isdigit b = true ->
        (nat_of_digits 0 a <= nat_of_digits 0 b)%nat)
  /\ (forall a b, key_order max a b ->
        isdigit a = true -> isdigit b = false ->
        (nat_of_digits 0 a <= 999)%nat)
  /\ (forall a b, key_order max a b ->
        isdigit a = false -> isdigit b = true ->
        (999 <= nat_of_digits 0 b)%nat).
Proof.
  intros H. apply build_resultado_inv in H.
  destruct H as (_ & _ & items & Hs & Hd).
  apply sorted_spec in Hs. destruct Hs as (_ & Hs).
  split; [|split; [|split]].
  - apply (strongly_sorted_map_eq (key_order max) fst d_dormitorios items);
      [now apply (departamentos_labels max)|exact Hs].
  - intros a b (ka & kb & Ha & Hb & Hle) Da Db.
    apply key_lt_false in Hle. destruct Hle as (Hle & _).
    rewrite (sort_key_digits max a ka Da Ha) in Hle.
    rewrite (sort_key_digits max b kb Db Hb) in Hle. lia.
  - intros a b (ka & kb & Ha & Hb & Hle) Da Db.
    apply key_lt_false in Hle. destruct Hle as (Hle & _).
    rewrite (sort_key_digits max a ka Da Ha) in Hle.
    rewrite (sort_key_other max b kb Db Hb) in Hle. lia.
  - intros a b (ka & kb & Ha & Hb & Hle) Da Db.
    apply key_lt_false in Hle. destruct Hle as (Hle & _).
    rewrite (sort_key_other max a ka Da Ha) in Hle.
    rewrite (sort_key_digits max b kb Db Hb) in Hle. lia.
Qed.

Lemma departamentos_in_key_order_witness :
  Sorted.StronglySorted
    (fun a b => key_order 4300 (d_dormitorios a) (d_dormitorios b))
    Samples.somma_departamentos.
Proof.
  exact (proj1 (departamentos_in_key_order 4300 Samples.select_cards
                  Samples.somma_url "<html>" Samples.somma_resultado eq_refl)).
Defined.



Lemma number_at_head p s :
  head_is is_digit s = true -> head_is is_digit (number_at p s) = true.
Proof.
  intros Hd. unfold number_at. destruct s as [|c s]; [discriminate|].
  simpl in *. rewrite Hd. destruct (span is_digit s) as [whole rest].
  destruct rest as [|x rest']; [exact Hd|].
  destruct (p x && head_is is_digit rest')%bool; exact Hd.
Qed.

Lemma nth_filter p (l : list string) n :
  nth n (List.filter p l) EmptyString = EmptyString
  \/ p (nth n (List.filter p l) EmptyString) = true.
Proof.
  destruct (nth_in_or_default n (List.filter p l) EmptyString) as [H|H]; [|auto].
  apply filter_In in H. tauto.
Qed.

Lemma extract_bed_bath_digits abbrs :
  let '(d, b) := _extract_bed_bath abbrs in
  (d = EmptyString \/ isdigit d = true)
  /\ (b = EmptyString \/ isdigit b = true)
  /\ (d = EmptyString -> b = EmptyString).
Proof.
  unfold _extract_bed_bath. destruct abbrs as [abbrs|]; [|auto].
  split; [apply nth_filter|split; [apply nth_filter|]].
  destruct (List.filter isdigit abbrs) as [|x nums] eqn:E; [reflexivity|].
  simpl. intros ->.
  assert (H : In EmptyString (List.filter isdigit abbrs)) by (rewrite E; now left).
  apply filter_In in H. destruct H as (_ & H). discriminate.
Qed.

(** X8. Whatever the card, the plan read from it has a bedroom label and
    a bathroom label that are empty or made of digits, the bathrooms
    empty when the bedrooms are; a number of units that is not negative;
    and an area that is empty or a number that starts with a digit,
    followed by [" m2"]. *)
Theorem tile_fields max card :
  (dormitorios (mk_tile max card) = EmptyString
   \/ isdigit (dormitorios (mk_tile max card)) = true)
  /\ (banos (mk_tile max card) = EmptyString
      \/ isdigit (banos (mk_tile max card)) = true)
  /\ (dormitorios (mk_tile max card) = EmptyString ->
      banos (mk_tile max card) = EmptyString)
  /\ 0 <= unidades_disponibles (mk_tile max card)
  /\ (m2_utiles (mk_tile max card) = EmptyString
      \/ exists num, head_is is_digit num = true
                     /\ m2_utiles (mk_tile max card) = num +:+ " m2").
Proof.
  pose proof (extract_bed_bath_digits (c_abbrs card)) as Hbb.
  unfold mk_tile. destruct (_extract_bed_bath (c_abbrs card)) as [d b].
  simpl. destruct Hbb as (Hd & Hb & Hdb).
  split; [exact Hd|split; [exact Hb|split; [exact Hdb|split]]].
  - apply extract_units_nonneg.
  - unfold _extract_m2. rewrite search_num_spec. cbv zeta.
    destruct (head_is is_digit _) eqn:E; [right|now left].
    eexists. split; [|reflexivity]. now apply number_at_head.
Qed.

Lemma tile_fields_witness :
  banos (mk_tile 4300 (Samples.card "Estudio" ["Estudio"] EmptyString EmptyString))
  = EmptyString.
Proof.
  apply (proj1 (proj2 (proj2 (tile_fields 4300
           (Samples.card "Estudio" ["Estudio"] EmptyString EmptyString))))).
  reflexivity.
Defined.

End SommaResultado.

(* ===================================================================== *)
(** * The somma scraper: conversions, tiers and the file *)
(* ===================================================================== *)

Section SommaRun.
Import Py Re SommaFields Somma.

Lemma all_chars_span_rest p q s :
  all_chars q s = true -> all_chars q (snd (span p s)) = true.
Proof.
  intros H. destruct (span_spec p s) as (Hs & _ & _).
  rewrite <- Hs, all_chars_app in H. apply andb_true_iff in H. tauto.
Qed.

Lemma all_chars_rstrip_c q s :
  all_chars q s = true -> all_chars q (rstrip_c s) = true.
Proof.
  induction s as [|c s IH]; simpl; [reflexivity|].
  rewrite andb_true_iff. intros [Hc Hs]. specialize (IH Hs).
  destruct (rstrip_c s) as [|d r].
  - destruct (is_c_space c); simpl; [reflexivity|]. now rewrite Hc.
  - simpl in *. now rewrite Hc, IH.
Qed.

Lemma digit_groups_head s ds :
  digit_groups false s = Some ds -> head_is is_digit s = true.
Proof.
  destruct s as [|c s]; simpl; [discriminate|].
  destruct (is_digit c); [reflexivity|].
  rewrite andb_false_r. discriminate.
Qed.

Lemma all_not_digit_head s :
  all_chars not_digit s = true -> head_is is_digit s = false.
Proof.
  destruct s as [|c s]; simpl; [reflexivity|].
  rewrite andb_true_iff. unfold not_digit. intros [H _].
  now apply negb_true_iff in H.
Qed.

Lemma int_no_digit max s :
  all_chars not_digit s = true -> exists e, int max s = Raised e.
Proof.
  intros H. unfold int.
  apply (all_chars_span_rest is_c_space) in H.
  apply all_chars_rstrip_c in H.
  set (body := rstrip_c _) in *.
  assert (Hlit : forall neg lit,
             (neg, lit) = match body with
                          | String "-" r => (true, r)
                          | String "+" r => (false, r)
                          | _ => (false, body)
                          end ->
             all_chars not_digit lit = true).
  { intros neg lit E. destruct body as [|c r]; [now injection E as -> ->|].
    simpl in H. apply andb_true_iff in H. destruct H as [Hc Hr].
    destruct c as [[] [] [] [] [] [] [] []]; injection E as -> ->;
      simpl; rewrite ?Hc, ?Hr; auto. }
  destruct (match body with
            | String "-" r => (true, r)
            | String "+" r => (false, r)
            | _ => (false, body)
            end) as [neg lit] eqn:E.
  specialize (Hlit neg lit eq_refl).
  destruct (digit_groups false lit) as [ds|] eqn:Ed; [|eauto].
  apply digit_groups_head in Ed. apply all_not_digit_head in Hlit. congruence.
Qed.

(** X9. [_safe_int] on a text without a digit gives the default; on a
    non-empty run of digits it gives the value of the run, unless the run
    is longer than the interpreter converts: then it gives the default
    too. *)
Theorem safe_int_cases max default :
  (forall s, all_chars not_digit s = true -> _safe_int max s default = default)
  /\ (forall ds, truthy ds = true -> all_digits ds = true ->
        _safe_int max ds default
        = if within_limit max (String.length ds)
          then Z.of_nat (nat_of_digits 0 ds) else default).
Proof.
  split.
  - intros s H. unfold _safe_int. now destruct (int_no_digit max s H) as (e & ->).
  - intros ds Ht Ha. unfold _safe_int. rewrite int_digits by assumption.
    now destruct (within_limit max (String.length ds)).
Qed.

Lemma safe_int_cases_witness :
  _safe_int 4300 "varias" 0 = 0
  /\ _safe_int 4300 "012" 0 = 12
  /\ _safe_int 4300 Samples.long_label 0 = 0.
Proof.
  destruct (safe_int_cases 4300 0) as (Hnone & Hdigits).
  split; [|split].
  - apply Hnone. reflexivity.
  - apply (Hdigits "012"); reflexivity.
  - rewrite (Hdigits Samples.long_label); vm_compute; reflexivity.
Defined.

(** X10. The tiers of a fetch.  With [use_browser] the browser is the
    only tier used and its outcome is the outcome.  Without it, when the
    stealth tier is enabled and plain HTTP raised the 403 error, the
    stealth tier is used after plain HTTP and its outcome is the outcome;
    in every other case plain HTTP is the only tier used and its outcome,
    an error included, is the outcome. *)
Theorem fetch_html_tiers env url timeout use_cloudscraper :
  _fetch_html env url timeout true use_cloudscraper
  = (browser_content env url timeout, [HeadlessBrowser])
  /\ (use_cloudscraper = true ->
      checked_text (plain_get env url timeout) = Raised (HTTPError 403) ->
      _fetch_html env url timeout false use_cloudscraper
      = (checked_text (cloud_get env url timeout), [PlainHTTP; StealthHTTP]))
  /\ (use_cloudscraper = false
      \/ checked_text (plain_get env url timeout) <> Raised (HTTPError 403) ->
      _fetch_html env url timeout false use_cloudscraper
      = (checked_text (plain_get env url timeout), [PlainHTTP])).
Proof.
  split; [reflexivity|split].
  - intros -> H. unfold _fetch_html, _requests_fetch, _cloudscraper_fetch.
    rewrite H. reflexivity.
  - intros H. unfold _fetch_html, _requests_fetch, _cloudscraper_fetch.
    destruct (checked_text (plain_get env url timeout)) as [html|e];
      [reflexivity|].
    destruct e; try reflexivity.
    destruct (Z.eqb_spec status 403) as [->|Hne]; [|reflexivity].
    destruct H as [->|H]; [reflexivity|]. now elim H.
Qed.

Lemma fetch_html_tiers_witness :
  _fetch_html Examples.blocked_env Examples.somma_url 30 false true
  = (checked_text (cloud_get Examples.blocked_env Examples.somma_url 30),
     [PlainHTTP; StealthHTTP])
  /\ _fetch_html Examples.blocked_env Examples.somma_url 30 false false
     = (Raised (HTTPError 403), [PlainHTTP]).
Proof.
  destruct (fetch_html_tiers Examples.blocked_env Examples.somma_url 30 true)
    as (_ & Hstealth & _).
  destruct (fetch_html_tiers Examples.blocked_env Examples.somma_url 30 false)
    as (_ & _ & Hplain).
  split; [apply Hstealth; reflexivity|apply Hplain; left; reflexivity].
Defined.

(** X11. The file of a somma run.  When the run returns a result, the
    page was fetched, the result was built from it, and the file at the
    output path holds that result, the other files being as before; when
    the run raises, no file has changed.  The tiers used are those of the
    fetch. *)
Theorem scrape_departamentos_file max select_cards open_error env url
    output_path timeout use_browser use_cloudscraper files :
  let run := SommaFields.scrape_departamentos max select_cards open_error env
               url output_path timeout use_browser use_cloudscraper files in
  snd (fst run)
  = snd (_fetch_html env url timeout use_browser use_cloudscraper)
  /\ match fst (fst run) with
     | Returned r =>
         snd run = <[output_path := r]> files
         /\ open_error output_path = None
         /\ exists html,
              fst (_fetch_html env url timeout use_browser use_cloudscraper)
              = Returned html
              /\ build_resultado max select_cards url html = Returned r
     | Raised e => snd run = files
     end.
Proof.
  cbv zeta. unfold SommaFields.scrape_departamentos, Somma.scrape_departamentos.
  destruct (_fetch_html env url timeout use_browser use_cloudscraper)
    as [[html|e] tr]; simpl; [|auto].
  destruct (build_resultado max select_cards url html) as [r|e] eqn:Eb;
    simpl; [|auto].
  destruct (open_error output_path) eqn:Eo; simpl; [auto|].
  split; [reflexivity|]. split; [reflexivity|]. split; [reflexivity|].
  exists html. auto.
Qed.

End SommaRun.

(* ===================================================================== *)
(** * The bluehome scraper: the fields *)
(* ===================================================================== *)

Section BluehomeFieldFacts.
Import Py Re BluehomeFields.

Lemma sub_spaces_single s : forall b, single_spaced b (sub_spaces b s) = true.
Proof.
  induction s as [|c s IH]; intros b; simpl; [reflexivity|].
  destruct (is_space c) eqn:Hc.
  - destruct b; [apply IH|]. simpl. now rewrite IH.
  - simpl. rewrite Hc. apply IH.
Qed.

Lemma single_spaced_weaken s b :
  single_spaced b s = true -> single_spaced false s = true.
Proof.
  destruct s as [|c s]; simpl; [reflexivity|].
  destruct (is_space c); [|auto].
  rewrite !andb_true_iff. intros [[H1 _] H2]. auto.
Qed.

Lemma single_spaced_fixed s : forall b,
  single_spaced b s = true -> sub_spaces b s = s.
Proof.
  induction s as [|c s IH]; intros b; simpl; [reflexivity|].
  destruct (is_space c) eqn:Hc.
  - rewrite !andb_true_iff. intros [[Hsp Hb] Hs].
    apply negb_true_iff in Hb. subst b. apply Ascii.eqb_eq in Hsp. subst c.
    now rewrite (IH true Hs).
  - intros Hs. now rewrite (IH false Hs).
Qed.

Lemma single_spaced_suffix pre : forall s b,
  single_spaced b (pre +:+ s) = true -> single_spaced false s = true.
Proof.
  induction pre as [|c pre IH]; intros s b H.
  - now apply single_spaced_weaken in H.
  - rewrite append_cons in H. simpl in H.
    destruct (is_space c); [|now apply IH in H].
    apply andb_true_iff in H. destruct H as [_ H]. now apply IH in H.
Qed.

Lemma single_spaced_lstrip s b :
  single_spaced b s = true -> single_spaced false (lstrip s) = true.
Proof.
  intros H. unfold lstrip. destruct (span_spec is_space s) as (Hs & _ & _).
  rewrite <- Hs in H. now apply single_spaced_suffix in H.
Qed.

Lemma single_spaced_rstrip s : forall b,
  single_spaced b s = true -> single_spaced b (rstrip s) = true.
Proof.
  induction s as [|c s IH]; intros b; simpl; [reflexivity|].
  destruct (is_space c) eqn:Hc.
  - rewrite !andb_true_iff. intros [[Hsp Hb] Hs]. specialize (IH true Hs).
    destruct (rstrip s) as [|d r]; [reflexivity|].
    cbn [single_spaced]. rewrite Hc, Hsp, Hb. exact IH.
  - intros Hs. specialize (IH false Hs).
    destruct (rstrip s) as [|d r]; cbn [single_spaced]; rewrite Hc; auto.
Qed.

Lemma rstrip_head s :
  head_is is_space s = false -> head_is is_space (rstrip s) = false.
Proof.
  destruct s as [|c s]; simpl; [reflexivity|]. intros Hc.
  destruct (rstrip s); simpl; now rewrite ?Hc.
Qed.

Lemma rstrip_idem s : rstrip (rstrip s) = rstrip s.
Proof.
  induction s as [|c s IH]; simpl; [reflexivity|].
  destruct (rstrip s) as [|d r] eqn:E.
  - destruct (is_space c) eqn:Hc; simpl; [reflexivity|now rewrite Hc].
  - cbn [rstrip]. cbn [rstrip] in IH. now rewrite IH.
Qed.

Lemma lstrip_no_head s : head_is is_space s = false -> lstrip s = s.
Proof. intros H. unfold lstrip. now rewrite span_no_head. Qed.

Lemma strip_head s : head_is is_space (strip s) = false.
Proof.
  unfold strip, lstrip. apply rstrip_head.
  now destruct (span_spec is_space s) as (_ & _ & H).
Qed.

Lemma strip_idem s : strip (strip s) = strip s.
Proof.
  unfold strip at 1. rewrite (lstrip_no_head _ (strip_head s)).
  unfold strip. apply rstrip_idem.
Qed.

(** X12. A cleaned text is in normal form: its only whitespace is single
    spaces, none at the start and none at the end; so cleaning a cleaned
    text changes nothing. *)
Theorem clean_text_normal s :
  single_spaced false (_clean_text s) = true
  /\ head_is is_space (_clean_text s) = false
  /\ rstrip (_clean_text s) = _clean_text s
  /\ _clean_text (_clean_text s) = _clean_text s.
Proof.
  destruct s as [|c s]; [repeat split; reflexivity|].
  change (_clean_text (String c s)) with (strip (sub_spaces false (String c s))).
  set (t := strip (sub_spaces false (String c s))).
  assert (H1 : single_spaced false t = true).
  { apply single_spaced_rstrip, (single_spaced_lstrip _ false), sub_spaces_single. }
  assert (H2 : head_is is_space t = false) by apply strip_head.
  assert (H3 : rstrip t = t) by apply rstrip_idem.
  repeat split; auto.
  unfold _clean_text. destruct (truthy t) eqn:Ht; [|now destruct t].
  rewrite (single_spaced_fixed t false H1). apply strip_idem.
Qed.

(** X13. [_find_int] gives the first run of digits of the text: the
    default when the text has no digit, and otherwise the digits that
    follow the part without a digit, up to the first character that is
    not a digit. *)
Theorem find_int_first_run default :
  (forall text,
      all_chars not_digit text = true -> _find_int text default = default)
  /\ (forall pre run post,
        all_chars not_digit pre = true ->
        truthy run = true -> all_chars is_digit run = true ->
        head_is is_digit post = false ->
        _find_int (pre +:+ run +:+ post) default = run).
Proof.
  split.
  - intros text H. unfold _find_int. now rewrite search_int_none.
  - intros pre run post Hpre Ht Hrun Hpost. unfold _find_int.
    now rewrite search_int_run.
Qed.

Lemma find_int_first_run_witness :
  _find_int "Ver unidades" "2" = "2"
  /\ _find_int "Desde 3 dormitorios, 120 m2" EmptyString = "3".
Proof.
  destruct (find_int_first_run "2") as (Hnone & _).
  destruct (find_int_first_run EmptyString) as (_ & Hrun).
  split.
  - apply Hnone. reflexivity.
  - apply (Hrun "Desde " "3" " dormitorios, 120 m2"); reflexivity.
Defined.

Lemma find_int_truthy text default :
  truthy default = true -> truthy (_find_int text default) = true.
Proof.
  intros Hd. unfold _find_int. rewrite search_int_spec. cbv zeta.
  destruct (head_is is_digit _) eqn:E; [|exact Hd].
  now apply span_head.
Qed.

Lemma find_num_truthy text g :
  search false NUM_RE text = Some g -> truthy g = true.
Proof.
  rewrite search_num_spec. cbv zeta.
  destruct (head_is is_digit _) eqn:E; [|discriminate].
  intros [= <-]. now apply number_at_truthy.
Qed.

(** X14. What a detail page does to an entry of the listing.  The link
    and the units are never changed.  The bedrooms are never blanked: an
    entry that had bedrooms still has some, and a bed text without a
    digit leaves them as they were.  The bathrooms are: a bathtub text
    without a digit sets them to the empty string. *)
Theorem detail_keeps_listing_fields f dept :
  Bluehome.link (read_features f dept) = Bluehome.link dept
  /\ Bluehome.unidades_disponibles (read_features f dept)
     = Bluehome.unidades_disponibles dept
  /\ (truthy (Bluehome.dormitorios dept) = true ->
      truthy (Bluehome.dormitorios (read_features f dept)) = true)
  /\ (forall t, bed f = Some t -> all_chars not_digit t = true ->
        Bluehome.dormitorios (read_features f dept) = Bluehome.dormitorios dept)
  /\ (forall t, bathtub f = Some t -> all_chars not_digit t = true ->
        Bluehome.banos (read_features f dept) = EmptyString).
Proof.
  unfold read_features.
  destruct (bed f) as [tb|], (bathtub f) as [tt|], (texture f) as [tx|];
    simpl; repeat split; auto; try discriminate;
    try (intros; now apply find_int_truthy);
    try (intros t [= <-] H; unfold _find_int; now rewrite search_int_none).
Qed.

Lemma detail_keeps_listing_fields_witness :
  Bluehome.dormitorios
    (read_features {| bed := Some "Estudio"; bathtub := Some "-"; texture := None |}
       {| Bluehome.dormitorios := "1"; Bluehome.unidades_disponibles := "3";
          Bluehome.link := "https://bluehome.cl/a"; Bluehome.banos := "1";
          Bluehome.m2_utiles := EmptyString |}) = "1"
  /\ Bluehome.banos
       (read_features {| bed := Some "Estudio"; bathtub := Some "-"; texture := None |}
          {| Bluehome.dormitorios := "1"; Bluehome.unidades_disponibles := "3";
             Bluehome.link := "https://bluehome.cl/a"; Bluehome.banos := "1";
             Bluehome.m2_utiles := EmptyString |}) = EmptyString.
Proof.
  destruct (detail_keeps_listing_fields
              {| bed := Some "Estudio"; bathtub := Some "-"; texture := None |}
              {| Bluehome.dormitorios := "1"; Bluehome.unidades_disponibles := "3";
                 Bluehome.link := "https://bluehome.cl/a"; Bluehome.banos := "1";
                 Bluehome.m2_utiles := EmptyString |})
    as (_ & _ & _ & Hbed & Hbath).
  split; [apply (Hbed "Estudio")|apply (Hbath "-")]; reflexivity.
Defined.

(** X15. The two scrapers write a floor area the same way: the area
    bluehome reads from the texture text of a detail page is what somma's
    [_extract_m2] gives for that text. *)
Theorem bluehome_area_as_somma f dept t :
  texture f = Some t ->
  Bluehome.m2_utiles (read_features f dept) = SommaFields._extract_m2 t.
Proof.
  intros Ht. unfold read_features. rewrite Ht.
  unfold _find_num, SommaFields._extract_m2.
  destruct (search false NUM_RE (replace "," "." t)) as [g|] eqn:E.
  - apply find_num_truthy in E. destruct (bed f), (bathtub f); simpl;
      now rewrite E.
  - destruct (bed f), (bathtub f); reflexivity.
Qed.

Lemma bluehome_area_as_somma_witness :
  Bluehome.m2_utiles
    (read_features {| bed := None; bathtub := None; texture := Some "45,5 m2" |}
       {| Bluehome.dormitorios := "1"; Bluehome.unidades_disponibles := "3";
          Bluehome.link := "https://bluehome.cl/a"; Bluehome.banos := EmptyString;
          Bluehome.m2_utiles := EmptyString |})
  = SommaFields._extract_m2 "45,5 m2".
Proof.
  apply (bluehome_area_as_somma
           {| bed := None; bathtub := None; texture := Some "45,5 m2" |}).
  reflexivity.
Defined.

Lemma contains_char_none x s :
  all_chars (is_not x) s = true -> contains (String x EmptyString) s = false.
Proof.
  induction s as [|c s IH]; [reflexivity|]. simpl.
  rewrite andb_true_iff. unfold is_not at 1. rewrite negb_true_iff.
  intros [Hc Hs]. rewrite (Ascii.eqb_sym x c), Hc, (IH Hs). reflexivity.
Qed.

(** X26. The bedrooms of a listing entry are read before the first bar
    of its text: for a text made of a part without a bar, a bar and
    anything else, [_find_int] on the token gives what it gives on the
    first part, so a number that follows the bar, such as the units,
    never becomes the bedrooms; a text without a bar is its own token. *)
Theorem dormitorios_before_bar default :
  (forall a b,
      all_chars (is_not "|") a = true ->
      _find_int (dorms_token (a +:+ "|" +:+ b)) default = _find_int a default)
  /\ (forall texto,
        all_chars (is_not "|") texto = true -> dorms_token texto = texto).
Proof.
  split.
  - intros a b Ha. unfold dorms_token. rewrite contains_mid.
    unfold split_first.
    change (fun c : ascii => negb (Ascii.eqb c "|")) with (is_not "|").
    rewrite span_app; [reflexivity|exact Ha|reflexivity].
  - intros texto H. unfold dorms_token.
    now rewrite (contains_char_none "|" texto H).
Qed.

Lemma dormitorios_before_bar_witness :
  _find_int (dorms_token "Dormitorios | Ver unidades (3)") EmptyString
  = _find_int "Dormitorios " EmptyString.
Proof.
  apply (proj1 (dormitorios_before_bar EmptyString)
           "Dormitorios " " Ver unidades (3)").
  reflexivity.
Defined.

End BluehomeFieldFacts.

(* ===================================================================== *)
(** * The bluehome scraper: the run *)
(* ===================================================================== *)

Section BluehomeRun.
Import Py Bluehome BluehomeFields.

(** The detail loop, whatever the outside: it only adds loads of detail
    pages and pauses to the log, leaves [edificios] alone, and returns as
    many entries as it was given. *)
Lemma detail_loop_events env dd : forall depts idx s,
  exists r s' l,
    detail_loop env dd idx depts s = (r, s')
    /\ log s' = log s ++ l
    /\ forallb is_detail_event l = true
    /\ edificios s' = edificios s
    /\ r <> OutOfFuel
    /\ (forall ds, r = Val ds -> List.length ds = List.length depts).
Proof.
  induction depts as [|dept rest IH]; intros idx s; simpl.
  - exists (Val []), s, []. rewrite app_nil_r.
    repeat split; try discriminate. now intros ds [= <-].
  - rewrite bind_run. destruct (truthy (link dept)); simpl.
    + rewrite bind_run. unfold driver_get.
      destruct (navigate env (navigations s) (link dept)) as [src|e]; simpl.
      * rewrite !bind_run.
        match goal with |- context [detail_loop env dd (S idx) rest ?s0] =>
          destruct (IH (S idx) s0) as (r & s' & l & Hloop & Hlog & Hev & Hed & Hr & Hlen) end.
        rewrite Hloop. simpl in Hlog, Hed.
        destruct r as [ds|e|]; [| |now elim Hr].
        -- eexists; eexists; eexists (EvLoadDetail (link dept) :: EvSleep _ :: l).
           split; [reflexivity|]. rewrite Hlog, <- !app_assoc.
           split; [reflexivity|]. split; [exact Hev|]. split; [exact Hed|].
           split; [discriminate|]. intros ds' [= <-]. simpl.
           now rewrite (Hlen ds eq_refl).
        -- eexists; eexists; eexists (EvLoadDetail (link dept) :: EvSleep _ :: l).
           split; [reflexivity|]. rewrite Hlog, <- !app_assoc.
           split; [reflexivity|]. split; [exact Hev|]. split; [exact Hed|].
           split; discriminate.
      * eexists; eexists; exists [EvLoadDetail (link dept)].
        split; [reflexivity|]. simpl. repeat split; discriminate.
    + destruct (IH (S idx) s) as (r & s' & l & Hloop & Hlog & Hev & Hed & Hr & Hlen).
      rewrite bind_run, Hloop.
      destruct r as [ds|e|]; [| |now elim Hr].
      * eexists; eexists; exists l. split; [reflexivity|].
        repeat split; auto; try discriminate.
        intros ds' [= <-]. simpl. now rewrite (Hlen ds eq_refl).
      * eexists; eexists; exists l. split; [reflexivity|].
        repeat split; auto; discriminate.
Qed.

Lemma process_container_events env dd c s :
  exists r s' l,
    process_container env dd c s = (r, s')
    /\ log s' = log s ++ l
    /\ forallb is_detail_event l = true
    /\ r <> OutOfFuel
    /\ match r with
       | Val _ =>
           exists e, edificios s' = edificios s ++ [e]
                     /\ e_nombre e = c_nombre c
                     /\ e_direccion e = c_direccion c
                     /\ e_precio e = c_precio c
                     /\ List.length (e_departamentos e)
                        = List.length (c_departamentos c)
       | _ => edificios s' = edificios s
       end.
Proof.
  unfold process_container. rewrite bind_run. simpl. rewrite bind_run.
  destruct (detail_loop_events env dd (c_departamentos c) 0 (set_comodidades [] s))
    as (r & s' & l & Hloop & Hlog & Hev & Hed & Hr & Hlen).
  rewrite Hloop. simpl in Hlog, Hed.
  destruct r as [ds|e|]; [| |now elim Hr].
  - rewrite bind_run. simpl. eexists; eexists; exists l.
    split; [reflexivity|]. simpl. split; [exact Hlog|]. split; [exact Hev|].
    split; [discriminate|]. eexists. rewrite Hed. split; [reflexivity|].
    simpl. repeat split. now apply Hlen.
  - eexists; eexists; exists l. split; [reflexivity|].
    split; [exact Hlog|]. split; [exact Hev|]. split; [discriminate|exact Hed].
Qed.

Lemma containers_events env dd cs : forall s,
  exists r s' l,
    for_each cs (process_container env dd) s = (r, s')
    /\ log s' = log s ++ l
    /\ forallb is_detail_event l = true
    /\ r <> OutOfFuel
    /\ (r = Val tt ->
        exists es, edificios s' = edificios s ++ es
                   /\ map e_nombre es = map c_nombre cs
                   /\ map e_direccion es = map c_direccion cs
                   /\ map e_precio es = map c_precio cs
                   /\ map (fun e => List.length (e_departamentos e)) es
                      = map (fun c => List.length (c_departamentos c)) cs).
Proof.
  induction cs as [|c cs IH]; intros s; simpl.
  - exists (Val tt), s, []. rewrite app_nil_r.
    repeat split; try discriminate. intros _. exists []. now rewrite app_nil_r.
  - rewrite bind_run.
    destruct (process_container_events env dd c s)
      as (r & s1 & l & Hrun & Hlog & Hev & Hr & Hres).
    rewrite Hrun. destruct r as [[]|e|]; [| |now elim Hr].
    + destruct (IH s1) as (r2 & s2 & l2 & Hrun2 & Hlog2 & Hev2 & Hr2 & Hres2).
      rewrite Hrun2. exists r2, s2, (l ++ l2).
      split; [reflexivity|]. rewrite Hlog2, Hlog, <- app_assoc.
      split; [reflexivity|]. rewrite forallb_app, Hev, Hev2.
      split; [reflexivity|]. split; [exact Hr2|].
      intros ->. destruct (Hres2 eq_refl) as (es & Hes & Hn & Hd & Hp & Hl).
      destruct Hres as (e & He & Hen & Hed & Hep & Hel).
      exists (e :: es). rewrite Hes, He, <- app_assoc. simpl.
      rewrite Hn, Hd, Hp, Hl, Hen, Hed, Hep, Hel. auto.
    + exists (Exn e), s1, l. repeat split; auto; discriminate.
Qed.

Lemma detail_events_no_write l p c :
  forallb is_detail_event l = true -> ~ In (EvWrite p c) l.
Proof.
  intros H Hin. rewrite forallb_forall in H. now apply H in Hin.
Qed.

Lemma detail_events_no_quit l :
  forallb is_detail_event l = true -> ~ In EvQuit l.
Proof.
  intros H Hin. rewrite forallb_forall in H. now apply H in Hin.
Qed.

(** X16. The end of a bluehome run, once the driver is built.  Whatever
    the pages do, the driver is quit once, as the last act of the run.
    When the run returns, it returns the buildings collected, one for
    each container of the listing and in the same order, with the name,
    the address, the price and the number of entries of the container,
    and these buildings were written once to the output path, just
    before the driver was quit; when a page load or the wait for the
    listing raises, nothing was written. *)
Theorem bluehome_quit_and_write env url output_path detail_delay :
  let run := scrape_bluehome env url output_path detail_delay init in
  (exists l, log (snd run) = l ++ [EvQuit] /\ ~ In EvQuit l)
  /\ fst run <> OutOfFuel
  /\ (forall es, fst run = Val es ->
        (exists l, log (snd run) = l ++ [EvWrite output_path es; EvQuit]
                   /\ forall p c, ~ In (EvWrite p c) l)
        /\ exists src, navigate env 0 url = Returned src
             /\ map e_nombre es = map c_nombre (select_containers env src)
             /\ map e_direccion es = map c_direccion (select_containers env src)
             /\ map e_precio es = map c_precio (select_containers env src)
             /\ map (fun e => List.length (e_departamentos e)) es
                = map (fun c => List.length (c_departamentos c))
                    (select_containers env src))
  /\ (forall e, fst run = Exn e ->
        forall p c, ~ In (EvWrite p c) (log (snd run))).
Proof.
  cbv zeta. unfold scrape_bluehome, try_finally. rewrite bind_run.
  unfold driver_get. simpl navigations.
  destruct (navigate env 0 url) as [src|e] eqn:Enav; simpl.
  2:{ split; [exists [EvLoadListing url]; split; [reflexivity|]|].
      - intros [H|[]]. discriminate.
      - repeat split; try discriminate.
        intros e' _ p c [H|[H|[]]]; discriminate. }
  rewrite bind_run. destruct (listing_wait env) as [[]|e]; simpl.
  2:{ split; [exists [EvLoadListing url]; split; [reflexivity|]|].
      - intros [H|[]]. discriminate.
      - repeat split; try discriminate.
        intros e' _ p c [H|[H|[]]]; discriminate. }
  rewrite bind_run.
  match goal with |- context [for_each _ _ ?s0] =>
    destruct (containers_events env detail_delay (select_containers env src) s0)
      as (r & s' & l & Hrun & Hlog & Hev & Hr & Hres) end.
  rewrite Hrun. simpl in Hlog, Hres.
  destruct r as [[]|e|]; [| |now elim Hr]; simpl; rewrite Hlog.
  - destruct (Hres eq_refl) as (es & Hes & Hmaps).
    split; [|split; [discriminate|split; [|discriminate]]].
    + exists ((EvLoadListing url :: l) ++ [EvWrite output_path (edificios s')]).
      rewrite <- !app_assoc. split; [reflexivity|].
      rewrite in_app_iff. intros [[H|H]|[H|[]]]; try discriminate.
      now apply detail_events_no_quit in H.
    + intros es' [= <-]. split.
      * exists (EvLoadListing url :: l). rewrite <- !app_assoc.
        split; [reflexivity|]. intros p c [H|H]; [discriminate|].
        now apply detail_events_no_write in H.
      * exists src. split; [reflexivity|]. now rewrite Hes.
  - split; [|split; [discriminate|split; [discriminate|]]].
    + exists (EvLoadListing url :: l). rewrite <- ?app_assoc.
      split; [reflexivity|]. intros [H|H]; [discriminate|].
      now apply detail_events_no_quit in H.
    + intros e' _ p c. rewrite <- ?app_assoc. simpl.
      rewrite in_app_iff. intros [H|[H|[H|[]]]]; try discriminate.
      now apply detail_events_no_write in H.
Qed.

Lemma bluehome_quit_and_write_witness :
  exists es l,
    fst (scrape_bluehome Examples.bluehome_site
           "https://bluehome.cl/departamento" "data/raw/bluehome.json"
           detail_delay_default init) = Val es
    /\ log (snd (scrape_bluehome Examples.bluehome_site
                   "https://bluehome.cl/departamento" "data/raw/bluehome.json"
                   detail_delay_default init))
       = l ++ [EvWrite "data/raw/bluehome.json" es; EvQuit].
Proof.
  destruct (bluehome_quit_and_write Examples.bluehome_site
              "https://bluehome.cl/departamento" "data/raw/bluehome.json"
              detail_delay_default) as (_ & _ & Hval & _).
  eexists. destruct (Hval _ eq_refl) as ((l & Hl & _) & _).
  exists l. split; [reflexivity|exact Hl].
Defined.

End BluehomeRun.

Section BluehomeAmenities.
Import Py Bluehome BluehomeFields.
Variable parse : string -> DetailPage.
Variable nav : nat -> string -> Try string.
Variable wait : Try unit.
Variable containers : string -> list Container.
Variable bits : nat -> Z.

Local Abbreviation env := (env_with_reads parse nav wait containers bits).

(** After the first entry the loop leaves [comodidades] as it is. *)
Lemma detail_loop_later dd : forall depts idx s,
  comodidades (snd (detail_loop env dd (S idx) depts s)) = comodidades s.
Proof.
  induction depts as [|dept rest IH]; intros idx s; simpl; [reflexivity|].
  rewrite bind_run. destruct (truthy (link dept)); simpl.
  - rewrite bind_run. unfold driver_get.
    destruct (navigate env (navigations s) (link dept)) as [src|e]; simpl;
      [|reflexivity].
    rewrite !bind_run.
    match goal with |- context [detail_loop env dd (S (S idx)) rest ?s0] =>
      pose proof (IH (S idx) s0) as Hrest;
      destruct (detail_loop env dd (S (S idx)) rest s0) as [[ds|e|] s'] end;
      simpl in *; exact Hrest.
  - rewrite bind_run. pose proof (IH (S idx) s) as Hrest.
    destruct (detail_loop env dd (S (S idx)) rest s) as [[ds|e|] s'];
      simpl in *; exact Hrest.
Qed.

Lemma detail_loop_first dd depts s ds s' :
  comodidades s = [] ->
  detail_loop env dd 0 depts s = (Val ds, s') ->
  comodidades s' = first_amenities parse nav (navigations s) depts.
Proof.
  intros Hs. destruct depts as [|dept rest]; simpl.
  - intros [= _ <-]. exact Hs.
  - rewrite bind_run. destruct (truthy (link dept)); simpl.
    + rewrite bind_run. unfold driver_get.
      change (navigate env) with nav.
      destruct (nav (navigations s) (link dept)) as [src|e]; simpl;
        [|discriminate].
      rewrite !bind_run.
      match goal with |- context [detail_loop env dd 1 rest ?s0] =>
        pose proof (detail_loop_later dd rest 0 s0) as Hrest;
        destruct (detail_loop env dd 1 rest s0) as [[ds'|e|] s1] end;
        simpl in *; try discriminate.
      intros [= _ <-]. rewrite Hrest, Hs. reflexivity.
    + rewrite bind_run. pose proof (detail_loop_later dd rest 0 s) as Hrest.
      destruct (detail_loop env dd 1 rest s) as [[ds'|e|] s1];
        simpl in *; try discriminate.
      intros [= _ <-]. now rewrite Hrest.
Qed.

(** X17. The amenities of a building are read from one page only: the
    detail page of its first entry.  A building that was added to the
    result has the amenities of that page, cleaned, the empty ones
    dropped; when the first entry has no link it has none, whatever the
    pages of its other entries hold. *)
Theorem amenities_from_first_entry detail_delay c s s' :
  process_container env detail_delay c s = (Val tt, s') ->
  exists e,
    edificios s' = edificios s ++ [e]
    /\ e_comodidades e
       = first_amenities parse nav (navigations s) (c_departamentos c).
Proof.
  unfold process_container. rewrite bind_run. simpl. rewrite bind_run.
  destruct (detail_loop_events env detail_delay (c_departamentos c) 0
              (set_comodidades [] s)) as (r & s1 & l & Hrun & _ & _ & Hed & _).
  rewrite Hrun. destruct r as [ds|e|]; try discriminate.
  apply detail_loop_first in Hrun; [|reflexivity].
  rewrite bind_run. simpl. intros [= <-]. simpl. simpl in Hed. rewrite Hed.
  eexists. split; [reflexivity|]. exact Hrun.
Qed.

End BluehomeAmenities.

Section BluehomeAmenitiesWitness.
Import Py Bluehome BluehomeFields.

Lemma amenities_from_first_entry_witness :
  exists e,
    edificios (snd (process_container Samples.bluehome_env
                      detail_delay_default Samples.bluehome_container init))
    = [e]
    /\ e_comodidades e = [].
Proof.
  destruct (amenities_from_first_entry Samples.bluehome_parse
              (fun _ _ => Returned "<html>") (Returned tt)
              (fun _ => [Samples.bluehome_container]) (fun _ => 0)
              detail_delay_default Samples.bluehome_container init
              (snd (process_container Samples.bluehome_env
                      detail_delay_default Samples.bluehome_container init))
              eq_refl) as (e & He & Hc).
  exists e. split; [exact He|exact Hc].
Defined.

End BluehomeAmenitiesWitness.

(* ===================================================================== *)
(** * The assetplan scraper: the page URLs of any start URL *)
(* ===================================================================== *)

Section AssetplanUrls.
Import Py Assetplan.

Lemma append_inv_head pre : forall a b, pre +:+ a = pre +:+ b -> a = b.
Proof.
  induction pre as [|c pre IH]; intros a b H; [exact H|].
  rewrite !append_cons in H. injection H as H. now apply IH.
Qed.

Lemma append_inv_tail a : forall b post,
  a +:+ post = b +:+ post -> a = b.
Proof.
  induction a as [|x a IH]; intros [|y b] post H.
  - reflexivity.
  - exfalso. apply (f_equal String.length) in H.
    rewrite !length_append in H. simpl in H. lia.
  - exfalso. apply (f_equal String.length) in H.
    rewrite !length_append in H. simpl in H. lia.
  - rewrite !append_cons in H. injection H as -> H. f_equal. now apply IH in H.
Qed.

(** The first match: its digits are replaced by the slot and the scan
    goes on after them. *)
Lemma sub_page_first : forall s k,
  count_page Scan s = S k ->
  exists pre ds post,
    s = pre +:+ "page=" +:+ ds +:+ post
    /\ sub_page Scan s = pre +:+ "page={}" +:+ sub_page Scan post
    /\ count_page Scan post = k.
Proof.
  induction s as [|c s IH]; intros k; [discriminate|].
  rewrite count_page_scan, sub_page_scan.
  destruct (page_digits_here (String c s)) eqn:Hhere.
  - destruct (page_digits_here_inv _ Hhere) as (d & rest & Hs & Hd).
    injection Hs as -> ->.
    change (count_page (InMatch 4) _) with (count_page (InMatch 0) (String d rest)).
    change (sub_page (InMatch 4) _) with (sub_page (InMatch 0) (String d rest)).
    rewrite sub_page_in_digits, count_page_in_digits, Hd.
    destruct (sub_page_digits rest) as (ds & post & -> & Hds & Hsub & Hcount).
    rewrite Hsub, Hcount. intros Hc. injection Hc as Hc.
    exists EmptyString, (String d ds), post. auto.
  - intros Hc. destruct (IH k Hc) as (pre & ds & post & -> & Hsub & Hk).
    exists (String c pre), ds, post. rewrite Hsub. auto.
Qed.

Lemma emit_raised v e : emit v (Some (Raised e)) = Some (Raised e).
Proof. reflexivity. Qed.

(** X18. Different pages, different addresses.  For a start URL without
    braces that has no [page=], or one [page=] followed by digits, the
    URL of every page can be built, and the URLs of two pages are the
    same only when the page numbers are. *)
Theorem page_urls_distinct env url n m :
  brace_free url = true ->
  contains "page=" url = false \/ count_page Scan url = 1%nat ->
  exists un um,
    page_url env (base_url_of url) n = Returned un
    /\ page_url env (base_url_of url) m = Returned um
    /\ (un = um -> n = m).
Proof.
  intros Hfree [Hno|Hone].
  - rewrite !page_url_appended by assumption.
    eexists; eexists. split; [reflexivity|]. split; [reflexivity|].
    intros H. apply append_inv_head in H. apply append_inv_head in H.
    now apply str_of_nat_inj.
  - destruct (sub_page_single url Hone) as (pre & ds & post & Hurl & Hne & Hds & Hsub).
    assert (Hn : forall k, page_url env (base_url_of url) k
                           = Returned (pre +:+ "page=" +:+ str_of_nat k +:+ post)).
    { intros k. unfold page_url, base_url_of, format.
      rewrite (count_page_contains url) by lia.
      unfold re_sub_page. rewrite Hsub.
      rewrite Hurl, !brace_free_app, !andb_true_iff in Hfree.
      destruct Hfree as (Hpre & _ & _ & Hpost).
      rewrite (fmt_text _ _ _ _ Hpre).
      change ("page={}" +:+ post) with ("page=" +:+ "{}" +:+ post).
      rewrite (fmt_text _ _ _ "page=" eq_refl).
      change (fmt [str_of_nat k] Text Unset ("{}" +:+ post))
        with (emit (str_of_nat k) (fmt [str_of_nat k] Text (Auto 1) post)).
      rewrite <- (append_nil_r post) at 1.
      rewrite (fmt_text _ _ _ _ Hpost). simpl. now rewrite append_nil_r. }
    rewrite !Hn. eexists; eexists. split; [reflexivity|]. split; [reflexivity|].
    intros H. apply append_inv_head in H. apply append_inv_head in H.
    apply append_inv_tail in H. now apply str_of_nat_inj.
Qed.

Lemma page_urls_distinct_witness :
  exists un um,
    page_url Examples.two_pages (base_url_of Examples.listing_url) 2 = Returned un
    /\ page_url Examples.two_pages (base_url_of Examples.listing_url) 3 = Returned um
    /\ (un = um -> 2%nat = 3%nat).
Proof.
  apply (page_urls_distinct Examples.two_pages Examples.listing_url 2 3).
  - reflexivity.
  - right. reflexivity.
Defined.

(** X19. A [page=] that no digit follows switches the pages off: for a
    start URL without braces that holds [page=] but never followed by a
    digit, the URL of every page is the start URL itself. *)
Theorem page_param_without_digits env url n :
  brace_free url = true ->
  contains "page=" url = true ->
  count_page Scan url = 0%nat ->
  page_url env (base_url_of url) n = Returned url.
Proof.
  intros Hfree Hpage Hnone. unfold page_url, base_url_of, format.
  rewrite Hpage. unfold re_sub_page. rewrite (sub_page_no_match url Hnone).
  rewrite <- (append_nil_r url) at 1. rewrite (fmt_text _ _ _ _ Hfree).
  simpl. now rewrite append_nil_r.
Qed.

Lemma page_param_without_digits_witness :
  page_url Examples.two_pages
    (base_url_of "https://www.assetplan.cl/arriendo?page=&servicioPro=1") 7
  = Returned "https://www.assetplan.cl/arriendo?page=&servicioPro=1".
Proof.
  apply page_param_without_digits; reflexivity.
Defined.

(** X20. Two page numbers in the start URL stop the run at once: for a
    start URL without braces in which [page=] followed by digits occurs
    twice or more, building the URL of any page raises [IndexError], and
    the run raises it before any request is made and without writing a
    file. *)
Theorem two_page_numbers_crash env url output_path fuel :
  brace_free url = true ->
  (2 <= count_page Scan url)%nat ->
  (forall n, page_url env (base_url_of url) n = Raised IndexError)
  /\ scrape_assetplan env (S fuel) url output_path init
     = (Exn IndexError, init).
Proof.
  intros Hfree Htwo.
  assert (Hurl : forall n, page_url env (base_url_of url) n = Raised IndexError).
  { intros n.
    destruct (count_page Scan url) as [|[|k]] eqn:Hc; try lia.
    destruct (sub_page_first url (S k) Hc) as (pre & ds & post & Hu & Hsub & Hc2).
    destruct (sub_page_first post k Hc2) as (pre2 & ds2 & post2 & Hu2 & Hsub2 & _).
    unfold page_url, base_url_of, format.
    rewrite (count_page_contains url) by lia.
    unfold re_sub_page. rewrite Hsub, Hsub2.
    rewrite Hu, Hu2, !brace_free_app, !andb_true_iff in Hfree.
    destruct Hfree as (Hpre & _ & _ & Hpre2 & _).
    rewrite (fmt_text _ _ _ _ Hpre).
    change ("page={}" +:+ pre2 +:+ "page={}" +:+ sub_page Scan post2)
      with ("page=" +:+ "{}" +:+ pre2 +:+ "page={}" +:+ sub_page Scan post2).
    rewrite (fmt_text _ _ _ "page=" eq_refl).
    change (fmt [str_of_nat n] Text Unset
              ("{}" +:+ pre2 +:+ "page={}" +:+ sub_page Scan post2))
      with (emit (str_of_nat n)
              (fmt [str_of_nat n] Text (Auto 1)
                 (pre2 +:+ "page={}" +:+ sub_page Scan post2))).
    rewrite (fmt_text _ _ _ _ Hpre2).
    change ("page={}" +:+ sub_page Scan post2)
      with ("page=" +:+ "{}" +:+ sub_page Scan post2).
    rewrite (fmt_text _ _ _ "page=" eq_refl).
    change (fmt [str_of_nat n] Text (Auto 1) ("{}" +:+ sub_page Scan post2))
      with (@Some (Try string) (Raised IndexError)).
    reflexivity. }
  split; [exact Hurl|].
  unfold scrape_assetplan. rewrite bind_run, walk_unfold.
  now rewrite (page_iteration_bad_url env _ init IndexError (Hurl _)).
Qed.

Lemma two_page_numbers_crash_witness :
  scrape_assetplan Examples.two_pages 5
    "https://www.assetplan.cl/arriendo?perpage=20&page=3"
    "data/raw/assetplan.txt" init
  = (Exn IndexError, init).
Proof.
  apply (two_page_numbers_crash Examples.two_pages
           "https://www.assetplan.cl/arriendo?perpage=20&page=3"
           "data/raw/assetplan.txt" 4); [reflexivity|].
  vm_compute. lia.
Defined.

End AssetplanUrls.

(* ===================================================================== *)
(** * The assetplan scraper: the files that cannot be opened, the records *)
(* ===================================================================== *)

Section AssetplanDisk.
Import Py Assetplan.

(** X21. The two files do not fail alike.  When the JSON file cannot be
    opened, writing raises the error of the opening, no file is changed,
    and a run whose walk had ended raises that error: what was collected
    is not written.  When the JSON file can be opened and the JSONL file
    cannot, the error is dropped: writing returns, and the JSON file
    alone holds the records. *)
Theorem write_results_errors env output_path s :
  let json := replace ".txt" ".json" output_path in
  let jsonl := replace ".txt" ".jsonl" output_path in
  (forall e, open_error env json = Some e ->
     (exists s', write_results env output_path s = (Exn e, s')
                 /\ files s' = files s
                 /\ log s' = log s ++ makedirs_events env output_path)
     /\ (forall fuel url s0 site,
           walk env (base_url_of url) fuel s0 = (Val site, s) ->
           exists s', scrape_assetplan env fuel url output_path s0 = (Exn e, s')
                      /\ files s' = files s))
  /\ (forall e, open_error env json = None -> open_error env jsonl = Some e ->
        exists s', write_results env output_path s = (Val tt, s')
                   /\ files s' = <[json := JsonArray (properties s)]> (files s)
                   /\ log s' = log s ++ makedirs_events env output_path
                                 ++ [EvWrite json]).
Proof.
  intros json jsonl. split.
  - intros e He.
    assert (Hw : exists s', write_results env output_path s = (Exn e, s')
                            /\ files s' = files s
                            /\ log s' = log s ++ makedirs_events env output_path).
    { unfold write_results, makedirs_events. fold json. rewrite bind_run.
      destruct (truthy (dirname env output_path)); simpl;
        rewrite bind_run; simpl; rewrite bind_run; unfold write_file;
        rewrite He; simpl; (eexists; split; [reflexivity|]); simpl;
        rewrite ?app_nil_r; auto. }
    split; [exact Hw|].
    intros fuel url s0 site Hwalk. destruct Hw as (s' & Hw & Hf & _).
    exists s'. split; [|exact Hf].
    unfold scrape_assetplan. rewrite bind_run, Hwalk, bind_run, Hw. reflexivity.
  - intros e Hjson Hjsonl.
    destruct (write_results_spec env output_path s Hjson)
      as (s' & Hrun & _ & Hfiles & Hlog).
    unfold jsonl_written in Hfiles, Hlog. fold jsonl in Hfiles, Hlog.
    rewrite Hjsonl in Hfiles, Hlog.
    exists s'. auto.
Qed.

Lemma write_results_errors_witness :
  (exists s', write_results Samples.read_only_disk "data/raw/assetplan.txt" init
              = (Exn OSError, s')
              /\ files s' = ∅)
  /\ (exists s', write_results Samples.no_jsonl_disk "data/raw/assetplan.txt" init
                 = (Val tt, s')
                 /\ files s' = <["data/raw/assetplan.json" := JsonArray []]> ∅).
Proof.
  split.
  - destruct (proj1 (write_results_errors Samples.read_only_disk
                       "data/raw/assetplan.txt" init) OSError eq_refl)
      as ((s' & Hrun & Hfiles & _) & _).
    exists s'. auto.
  - destruct (proj2 (write_results_errors Samples.no_jsonl_disk
                       "data/raw/assetplan.txt" init) OSError eq_refl eq_refl)
      as (s' & Hrun & Hfiles & _).
    exists s'. auto.
Defined.

End AssetplanDisk.

Section AssetplanRecords.
Import Py Assetplan AssetplanFields.
Variable env : Env.

Lemma details_of_ok link_full r :
  truthy link_full = true ->
  Forall (fun c => truthy c = true) (fst (details_of env link_full r))
  /\ Forall (fun d => truthy (d_link d) = true) (snd (details_of env link_full r)).
Proof.
  intros Hl. unfold details_of.
  destruct r as [dresp|e]; [|split; constructor].
  destruct (status_code dresp =? 200); [|split; constructor].
  destruct (parse_ficha env (text dresp)) as [dsoup|e]; [|split; constructor].
  simpl. split.
  - apply List.Forall_forall. intros c Hc. apply filter_In in Hc. tauto.
  - apply List.Forall_forall. intros d Hd. apply in_map_iff in Hd.
    destruct Hd as (t & <- & _). simpl. now destruct (truthy (t_link_tip t)) eqn:E.
Qed.

Lemma process_anuncio_record a s :
  exists s' p,
    process_anuncio env a s = (Val tt, s')
    /\ properties s' = properties s ++ [p] /\ record_ok p.
Proof.
  destruct (process_anuncio_spec env a s)
    as (s' & p & Hrun & Hprops & Hbase & Hdet & _).
  exists s', p. split; [exact Hrun|]. split; [exact Hprops|].
  unfold base_of_property, base_of_anuncio in Hbase.
  injection Hbase as Hop _ _ _ Hlink.
  unfold record_ok. rewrite Hlink, Hop.
  destruct (truthy (link_full_of env a)) eqn:Hl.
  - destruct (details_of_ok (link_full_of env a)
                (net env (requests s) (link_full_of env a)) Hl) as (H1 & H2).
    rewrite <- Hdet in H1, H2. simpl in H1, H2.
    repeat split; auto; discriminate.
  - injection Hdet as -> ->. repeat split; auto.
Qed.

Lemma cards_records anuncios : forall s,
  Forall record_ok (properties s) ->
  exists s',
    for_each anuncios (process_anuncio env) s = (Val tt, s')
    /\ Forall record_ok (properties s').
Proof.
  induction anuncios as [|a l IH]; intros s Hs; simpl.
  - exists s. auto.
  - rewrite bind_run.
    destruct (process_anuncio_record a s) as (s1 & p & Hrun & Hprops & Hp).
    rewrite Hrun. apply IH. rewrite Hprops. apply Forall_app. auto.
Qed.

Lemma page_iteration_records base_url s :
  Forall record_ok (properties s) ->
  Forall record_ok (properties (snd (page_iteration env base_url s))).
Proof.
  intros Hs.
  unfold page_iteration, bind, gets, try_except, session_get. simpl.
  destruct (page_url env base_url (page s)) as [u|e]; simpl; [|exact Hs].
  destruct (net env (requests s) u) as [resp|e]; simpl; [|exact Hs].
  destruct (status_code resp =? 200); simpl; [|exact Hs].
  destruct (bool_decide _); simpl; [exact Hs|].
  destruct (select_anuncios env (text resp)) as [|a l] eqn:Hsel; [exact Hs|].
  match goal with |- context [for_each (a :: l) (process_anuncio env) ?s0] =>
    destruct (cards_records (a :: l) s0 Hs) as (s1 & Hrun & Hok) end.
  rewrite Hrun. simpl. destruct (Nat.eqb (count_items s1) 0); exact Hok.
Qed.

Lemma walk_records base_url : forall fuel s,
  Forall record_ok (properties s) ->
  Forall record_ok (properties (snd (walk env base_url fuel s))).
Proof.
  induction fuel as [|fuel IH]; intros s Hs; [exact Hs|].
  rewrite walk_unfold.
  pose proof (page_iteration_records base_url s Hs) as Hturn.
  destruct (page_iteration env base_url s) as [[[|site]|e|] s1]; simpl in *; auto.
Qed.

Lemma write_results_properties output_path s :
  properties (snd (write_results env output_path s)) = properties s.
Proof.
  unfold write_results. rewrite bind_run.
  destruct (truthy (dirname env output_path)); simpl;
    rewrite bind_run; simpl; rewrite bind_run; unfold write_file;
    destruct (open_error env (replace ".txt" ".json" output_path)); simpl;
    try reflexivity;
    unfold try_except; rewrite bind_run; simpl;
    destruct (open_error env (replace ".txt" ".jsonl" output_path)); reflexivity.
Qed.

(** X22. Every record a run collects can be used as it is: each of its
    [departamentos] has a link, its own or that of the record; none of
    its [comodidades] is empty; a record whose card had no link has no
    details at all; and its operator is [assetplan].  This holds however
    the run ends. *)
Theorem records_are_usable fuel url output_path :
  Forall record_ok
    (properties (snd (scrape_assetplan env fuel url output_path init))).
Proof.
  unfold scrape_assetplan. rewrite bind_run.
  pose proof (walk_records (base_url_of url) fuel init (List.Forall_nil _)) as Hw.
  destruct (walk env (base_url_of url) fuel init) as [[site|e|] s1];
    simpl in *; try exact Hw.
  rewrite bind_run.
  pose proof (write_results_properties output_path s1) as Hp.
  destruct (write_results env output_path s1) as [[[]|e|] s2]; simpl in *;
    now rewrite Hp.
Qed.

End AssetplanRecords.

(* ===================================================================== *)
(** * The button of a tipologia, and the entry point *)
(* ===================================================================== *)

Section AssetplanButton.
Import Py Re AssetplanFields.

Lemma match_lits_cs {A} w : forall rest cap (K : string -> string -> option A),
  match_at false (lits w) (w +:+ rest) cap K = K rest cap.
Proof.
  induction w as [|c w IH]; intros rest cap K; [reflexivity|].
  cbn [lits match_at]. rewrite append_cons, Ascii.eqb_refl. apply IH.
Qed.

Lemma count_char c :
  is_digit_or_plus c = true -> is_space c = false.
Proof.
  destruct c as [[] [] [] [] [] [] [] []]; vm_compute; intros H;
    try discriminate H; reflexivity.
Qed.

Lemma search_ver_skip pre : forall s,
  all_chars (is_not "V") pre = true ->
  search false VER_RE (pre +:+ s) = search false VER_RE s.
Proof.
  induction pre as [|c pre IH]; intros s Hpre; [reflexivity|].
  rewrite append_cons. simpl in Hpre. apply andb_true_iff in Hpre.
  destruct Hpre as [Hc Hpre]. unfold is_not in Hc. apply negb_true_iff in Hc.
  cbn [search VER_RE match_at lits]. rewrite Hc. now apply IH.
Qed.

Lemma head_count_not_space count rest :
  truthy count = true -> all_chars is_digit_or_plus count = true ->
  head_is is_space (count +:+ rest) = false.
Proof.
  destruct count as [|c count]; [discriminate|]. simpl. intros _ H.
  apply andb_true_iff in H. now apply count_char.
Qed.

Lemma head_space_not_count ws rest :
  truthy ws = true -> all_chars is_space ws = true ->
  head_is is_digit_or_plus (ws +:+ rest) = false.
Proof.
  destruct ws as [|c ws]; [discriminate|]. simpl. intros _ H.
  apply andb_true_iff in H. destruct H as [H _].
  destruct (is_digit_or_plus c) eqn:E; [|reflexivity].
  apply count_char in E. congruence.
Qed.

Lemma head_count_app count rest :
  truthy count = true -> all_chars is_digit_or_plus count = true ->
  head_is is_digit_or_plus (count +:+ rest) = true.
Proof.
  destruct count as [|c count]; [discriminate|]. simpl. intros _ H.
  apply andb_true_iff in H. tauto.
Qed.

(** X23. The units of a tipologia are what stands between [Ver] and
    [disponible] on its button: for a button text with no capital V
    before the word Ver, followed by whitespace, a run of digits and
    plus signs, whitespace and the word disponible, the units are that
    run, a plus sign included; a tipologia without a button, or whose
    button has no capital V, has empty units. *)
Theorem unidades_of_button :
  unidades_of None = EmptyString
  /\ (forall text, all_chars (is_not "V") text = true ->
        unidades_of (Some text) = EmptyString)
  /\ (forall pre ws1 count ws2 post,
        all_chars (is_not "V") pre = true ->
        truthy ws1 = true -> all_chars is_space ws1 = true ->
        truthy count = true -> all_chars is_digit_or_plus count = true ->
        truthy ws2 = true -> all_chars is_space ws2 = true ->
        unidades_of
          (Some (pre +:+ "Ver" +:+ ws1 +:+ count +:+ ws2 +:+ "disponible" +:+ post))
        = count).
Proof.
  split; [reflexivity|split].
  - intros text H. unfold unidades_of.
    rewrite <- (append_nil_r text), search_ver_skip by exact H. reflexivity.
  - intros pre ws1 count ws2 post Hpre Hw1t Hw1 Hct Hc Hw2t Hw2.
    unfold unidades_of. rewrite search_ver_skip by exact Hpre.
    rewrite search_unfold.
    assert (Hm : match_at false VER_RE
                   ("Ver" +:+ ws1 +:+ count +:+ ws2 +:+ "disponible" +:+ post)
                   EmptyString (fun _ cap => Some cap) = Some count).
    { unfold VER_RE. cbn [match_at]. rewrite match_lits_cs.
      apply plus_longest; [now apply head_space_app|].
      rewrite span_app; [|assumption|now apply head_count_not_space].
      simpl snd.
      apply plus_longest; [now apply head_count_app|].
      rewrite span_app; [|assumption|now apply head_space_not_count].
      simpl snd. rewrite consumed_app.
      apply plus_longest; [now apply head_space_app|].
      rewrite span_app; [|assumption|reflexivity].
      simpl snd. rewrite match_lits_cs.
      destruct post as [|c post]; [reflexivity|].
      destruct (Ascii.eqb c "s"); reflexivity. }
    now rewrite Hm.
Qed.

Lemma unidades_of_button_witness :
  unidades_of (Some "ver 3 disponibles") = EmptyString
  /\ unidades_of (Some "Ver 10+ disponibles") = "10+".
Proof.
  destruct unidades_of_button as (_ & Hnone & Hcount).
  split.
  - apply Hnone. reflexivity.
  - apply (Hcount EmptyString " " "10+" " " "s"); reflexivity.
Defined.

End AssetplanButton.

Section EntryPoint.
Import Py Assetplan Main.




End EntryPoint.

Section BluehomeLoads.
Import Py Bluehome BluehomeFields.

Lemma loads_app l1 l2 : loads (l1 ++ l2) = loads l1 ++ loads l2.
Proof.
  induction l1 as [|e l1 IH]; [reflexivity|].
  destruct e; simpl; now rewrite IH.
Qed.

(** The loads of the detail loop: the links of the entries that have
    one, in order, up to the one whose load raised. *)
Lemma detail_loop_loads env dd : forall depts idx s,
  exists r s' l,
    detail_loop env dd idx depts s = (r, s')
    /\ log s' = log s ++ l
    /\ match r with
       | Val _ => loads l = List.filter truthy (map link depts)
       | _ => exists rest, loads l ++ rest = List.filter truthy (map link depts)
       end.
Proof.
  induction depts as [|dept rest IH]; intros idx s; simpl.
  - exists (Val []), s, []. rewrite app_nil_r. auto.
  - rewrite bind_run. destruct (truthy (link dept)) eqn:Hl; simpl.
    + rewrite bind_run. unfold driver_get.
      destruct (navigate env (navigations s) (link dept)) as [src|e]; simpl.
      * rewrite !bind_run.
        match goal with |- context [detail_loop env dd (S idx) rest ?s0] =>
          destruct (IH (S idx) s0) as (r & s' & l & Hloop & Hlog & Hr) end.
        rewrite Hloop. simpl in Hlog.
        destruct r as [ds|e|];
          (eexists; eexists; eexists (EvLoadDetail (link dept) :: EvSleep _ :: l);
           split; [reflexivity|]; rewrite Hlog, <- !app_assoc;
           split; [reflexivity|]; simpl).
        -- now rewrite Hr.
        -- destruct Hr as (more & <-). now exists more.
        -- destruct Hr as (more & <-). now exists more.
      * eexists; eexists; exists [EvLoadDetail (link dept)].
        split; [reflexivity|]. simpl. split; [reflexivity|].
        now exists (List.filter truthy (map link rest)).
    + destruct (IH (S idx) s) as (r & s' & l & Hloop & Hlog & Hr).
      rewrite bind_run, Hloop.
      destruct r as [ds|e|]; eexists; eexists; exists l;
        (split; [reflexivity|]); auto.
Qed.

Lemma process_container_loads env dd c s s' :
  process_container env dd c s = (Val tt, s') ->
  loads (log s') = loads (log s) ++ links_of c.
Proof.
  unfold process_container. rewrite bind_run. simpl. rewrite bind_run.
  destruct (detail_loop_loads env dd (c_departamentos c) 0 (set_comodidades [] s))
    as (r & s1 & l & Hloop & Hlog & Hr).
  rewrite Hloop. destruct r as [ds|e|]; try discriminate.
  rewrite bind_run. simpl. intros [= <-]. simpl. simpl in Hlog.
  now rewrite Hlog, loads_app, Hr.
Qed.

Lemma containers_loads env dd cs : forall s s',
  for_each cs (process_container env dd) s = (Val tt, s') ->
  loads (log s') = loads (log s) ++ flat_map links_of cs.
Proof.
  induction cs as [|c cs IH]; intros s s'; simpl.
  - intros [= <-]. now rewrite app_nil_r.
  - rewrite bind_run.
    destruct (process_container env dd c s) as [[[]|e|] s1] eqn:Hc;
      try discriminate.
    intros Hrest. apply IH in Hrest. apply process_container_loads in Hc.
    now rewrite Hrest, Hc, <- app_assoc.
Qed.

(** X25. The detail pages of a bluehome run that returns: the pages
    loaded are the links of the entries of the listing that have one,
    building after building and entry after entry, each loaded once; an
    entry without a link is never loaded. *)
Theorem detail_loads_are_links env url output_path detail_delay es s' :
  scrape_bluehome env url output_path detail_delay init = (Val es, s') ->
  exists src,
    navigate env 0 url = Returned src
    /\ loads (log s') = flat_map links_of (select_containers env src).
Proof.
  unfold scrape_bluehome, try_finally. rewrite bind_run.
  unfold driver_get. simpl navigations.
  destruct (navigate env 0 url) as [src|e]; simpl; [|discriminate].
  rewrite bind_run. destruct (listing_wait env) as [[]|e]; simpl; [|discriminate].
  rewrite bind_run.
  match goal with |- context [for_each _ _ ?s0] =>
    destruct (for_each (select_containers env src)
                (process_container env detail_delay) s0)
      as [[[]|e|] s1] eqn:Hrun end; simpl; try discriminate.
  intros [= _ <-]. apply containers_loads in Hrun. simpl in Hrun.
  exists src. split; [reflexivity|]. simpl.
  rewrite !loads_app, Hrun. simpl. now rewrite !app_nil_r.
Qed.

Lemma detail_loads_are_links_witness :
  loads (log (snd (scrape_bluehome Samples.bluehome_env
                     "https://bluehome.cl/departamento"
                     "data/raw/bluehome.json" detail_delay_default init)))
  = ["https://bluehome.cl/azul/2d"].
Proof.
  destruct (detail_loads_are_links Samples.bluehome_env
              "https://bluehome.cl/departamento" "data/raw/bluehome.json"
              detail_delay_default _ _ eq_refl) as (src & Hsrc & Hloads).
  injection Hsrc as <-. exact Hloads.
Defined.

End BluehomeLoads.
